(** * unsloth/models/rl.py: the TRL trainer patcher

    A shallow embedding of [unsloth/models/rl.py].  The module rewrites the
    trainer and config classes of the TRL library: it reads a constructor's
    signature, builds the text of a subclass from a template, rewrites
    method sources with [str.replace] and [re.sub], has the text compiled
    into a module and rebinds the library's names to the new classes.

    Python text is [string]; [inspect] results are records; the attribute
    tables of [trl], [trl.trainer] and its submodules are finite maps;
    a call that may raise returns an outcome with a [Raised] case. *)

From Stdlib Require Import Ascii ZArith Lia Bool.
From stdpp Require Import base gmap strings list pretty.

(** ** Python text primitives *)

Module Py.

(** The newline, quote and backslash characters of Python literals. *)
Definition nl : string := String "010"%char EmptyString.
Definition dq : string := String "034"%char EmptyString.
Definition bs : string := String "092"%char EmptyString.

(** [' ' * n] *)
Fixpoint spaces (n : nat) : string :=
  match n with
  | O => EmptyString
  | S k => String " "%char (spaces k)
  end.

(** [s.startswith(p)] *)
Definition startswith (s p : string) : bool := String.prefix p s.

(** [sub in s] *)
Fixpoint contains (sub s : string) : bool :=
  String.prefix sub s ||
  match s with
  | EmptyString => false
  | String _ s' => contains sub s'
  end.

(** [s.endswith(suf)]: some tail of [s] is [suf]. *)
Fixpoint endswith (s suf : string) : bool :=
  String.eqb s suf ||
  match s with
  | EmptyString => false
  | String _ s' => endswith s' suf
  end.

(** [s.lower()] on ASCII letters. *)
Definition lower_char (c : ascii) : ascii :=
  let n := nat_of_ascii c in
  if (65 <=? n) && (n <=? 90) then ascii_of_nat (n + 32) else c.

Fixpoint lower (s : string) : string :=
  match s with
  | EmptyString => EmptyString
  | String c s' => String (lower_char c) (lower s')
  end.

(** [s.split(sep)[0]] for a one-character separator. *)
Fixpoint split_head (sep : ascii) (s : string) : string :=
  match s with
  | EmptyString => EmptyString
  | String c s' => if Ascii.eqb c sep then EmptyString else String c (split_head sep s')
  end.

(** [s.split("\n")] *)
Fixpoint split_lines (s : string) : list string :=
  match s with
  | EmptyString => [EmptyString]
  | String c s' =>
      if Ascii.eqb c "010"%char then EmptyString :: split_lines s'
      else match split_lines s' with
           | [] => [String c EmptyString]
           | l :: ls => String c l :: ls
           end
  end.

(** [sep.join(parts)] *)
Definition join (sep : string) (parts : list string) : string :=
  String.concat sep parts.

(** [s.replace(old, new, count)]: the occurrences of [old] are found from
    left to right without overlap; [count = None] is Python's default of
    replacing all of them.  [skip] counts the characters of a match that
    are still to be dropped. *)
Fixpoint replace_go (old new : string) (count : option nat) (skip : nat)
    (s : string) : string :=
  match s with
  | EmptyString => EmptyString
  | String c s' =>
      match skip with
      | S k => replace_go old new count k s'
      | O =>
          match count with
          | Some O => s
          | _ =>
              if String.prefix old s
              then new +:+ replace_go old new (pred <$> count)
                            (String.length old - 1) s'
              else String c (replace_go old new count O s')
          end
      end
  end.

(** An empty [old] matches before every character and at the end. *)
Fixpoint replace_empty (new : string) (count : option nat) (s : string)
    : string :=
  match count with
  | Some O => s
  | _ =>
      new +:+ match s with
             | EmptyString => EmptyString
             | String c s' => String c (replace_empty new (pred <$> count) s')
             end
  end.

Definition replace_count (old new : string) (count : option nat)
    (s : string) : string :=
  match old with
  | EmptyString => replace_empty new count s
  | _ => replace_go old new count O s
  end.

Definition replace (old new s : string) : string :=
  replace_count old new None s.

Definition replace_n (old new : string) (count : nat) (s : string) : string :=
  replace_count old new (Some count) s.

End Py.

Import Py.

(** ** Constructor signatures and the synthesized argument lists *)

(** The default of a parameter, as far as lines 158-168 tell defaults
    apart: [inspect.Parameter.empty], a value of one of the exact types
    [str], [bool], [NoneType], [int], [float], or anything else.  A float
    carries the text [str] prints for it. *)
Inductive pyval : Type :=
  | VEmpty
  | VStr (s : string)
  | VBool (b : bool)
  | VNone
  | VInt (z : Z)
  | VFloat (repr : string)
  | VOther.

(** [inspect.signature(C.__init__).parameters]: names in order, each with
    its default. *)
Definition signature : Type := list (string * pyval).

(** [f"{v}"] *)
Definition py_str (v : pyval) : string :=
  match v with
  | VEmpty => "<class 'inspect._empty'>"
  | VStr s => s
  | VBool true => "True"
  | VBool false => "False"
  | VNone => "None"
  | VInt z => pretty z
  | VFloat r => r
  | VOther => "<object>"
  end.

(** [re.escape("\n")]: a backslash before the newline. *)
Definition escaped_newline : string := bs +:+ nl.

(** Line 164: [if v == "\n": v = re.escape("\n")]. *)
Definition escape_default (v : pyval) : pyval :=
  match v with
  | VStr s => if String.eqb s nl then VStr escaped_newline else v
  | _ => v
  end.

(** One turn of the loop of lines 161-169 over [(arguments, call_args)]. *)
Definition add_parameter (acc : list string * list string)
    (p : string * pyval) : list string * list string :=
  let '(arguments, call_args) := acc in
  let '(k, v) := p in
  if String.eqb k "self" then acc
  else
    let v := escape_default v in
    let forwarded := call_args ++ [k +:+ " = " +:+ k] in
    match v with
    | VEmpty => (arguments ++ [k], forwarded)
    | VStr s => (arguments ++ [k +:+ " = '" +:+ s +:+ "'"], forwarded)
    | VBool _ | VNone | VInt _ | VFloat _ =>
        (arguments ++ [k +:+ " = " +:+ py_str v], forwarded)
    | VOther => acc
    end.

Definition collect_parameters (parameters : signature)
    : list string * list string :=
  fold_left add_parameter parameters (["self"], []).

(** Lines 171-173: the two lists joined into the texts put in the
    template. *)
Definition process_signature (parameters : signature) : string * string :=
  let '(arguments, call_args) := collect_parameters parameters in
  (nl +:+ spaces 8 +:+ join ("," +:+ nl +:+ spaces 8) arguments,
   nl +:+ spaces 12 +:+ join ("," +:+ nl +:+ spaces 12) call_args).


(** ** Regular expressions

    The patterns of this module use literal characters, character sets,
    groups, alternatives and bounded repetition, greedy and lazy.
    [rmatch r s caps k] tries [r] at the start of [s] the way the
    backtracking matcher of [re] does: alternatives in the order of the
    pattern, a greedy repetition longest first and a lazy one shortest
    first, the continuation [k] deciding whether the rest of the pattern
    accepts what is left.  The result is the text left after the whole
    match and the text of each group. *)
Inductive charset : Type :=
  | Only (c : ascii)           (* a literal character *)
  | NoneOf (cs : list ascii)   (* [^...] *)
  | Space                      (* \s *)
  | NotSpace                   (* [^\s] *)
  | Dot                        (* . *)
  | AnyChar.                   (* . under re.DOTALL *)

(** The characters [\s] matches, among the first 128. *)
Definition is_space (c : ascii) : bool :=
  let n := nat_of_ascii c in
  ((9 <=? n) && (n <=? 13)) || ((28 <=? n) && (n <=? 32)).

Definition in_charset (cs : charset) (c : ascii) : bool :=
  match cs with
  | Only d => Ascii.eqb c d
  | NoneOf ds => negb (existsb (Ascii.eqb c) ds)
  | Space => is_space c
  | NotSpace => negb (is_space c)
  | Dot => negb (Ascii.eqb c "010"%char)
  | AnyChar => true
  end.

Inductive regex : Type :=
  | Eps
  | One (cs : charset)
  | Cat (r1 r2 : regex)
  | Alt (r1 r2 : regex)
  | Rep (greedy : bool) (min : nat) (max : option nat) (r : regex)
  | Group (n : nat) (r : regex).

Fixpoint lit (s : string) : regex :=
  match s with
  | EmptyString => Eps
  | String c s' => Cat (One (Only c)) (lit s')
  end.

(** [r{0,}], [r{1,}], [r{1,}?] and [r{n,}], [r{n}]. *)
Definition star (r : regex) : regex := Rep true 0 None r.
Definition plus (r : regex) : regex := Rep true 1 None r.
Definition lazy_plus (r : regex) : regex := Rep false 1 None r.
Definition at_least (n : nat) (r : regex) : regex := Rep true n None r.
Definition exactly (n : nat) (r : regex) : regex := Rep true n (Some n) r.

(** The first [n] characters. *)
Fixpoint take (n : nat) (s : string) : string :=
  match n, s with
  | S k, String c s' => String c (take k s')
  | _, _ => EmptyString
  end.

Definition captures : Type := gmap nat string.
Definition matched : Type := string * captures.

Definition or_else (a b : option matched) : option matched :=
  match a with
  | Some m => Some m
  | None => b
  end.

Fixpoint rmatch (r : regex) (s : string) (caps : captures)
    (k : string → captures → option matched) {struct r} : option matched :=
  match r with
  | Eps => k s caps
  | One cs =>
      match s with
      | String c s' => if in_charset cs c then k s' caps else None
      | EmptyString => None
      end
  | Cat r1 r2 => rmatch r1 s caps (λ s' caps', rmatch r2 s' caps' k)
  | Alt r1 r2 => or_else (rmatch r1 s caps k) (rmatch r2 s caps k)
  | Group n r' =>
      rmatch r' s caps
        (λ s' caps',
           k s' (<[n := take (String.length s - String.length s') s]> caps'))
  | Rep greedy min max r' =>
      (fix rep (fuel min : nat) (max : option nat) (s : string)
           (caps : captures) {struct fuel} : option matched :=
         let stop :=
           match min with
           | O => k s caps
           | S _ => None
           end in
         let more :=
           match fuel, max with
           | O, _ => None
           | _, Some O => None
           | S fuel', _ =>
               rmatch r' s caps
                 (λ s' caps',
                    if String.length s' <? String.length s
                    then rep fuel' (pred min) (pred <$> max) s' caps'
                    else None)
           end in
         if greedy then or_else more stop else or_else stop more)
        (S (String.length s)) min max s caps
  end.

(** A match at the start of [s] that is not empty. *)
Definition match_here (r : regex) (s : string) : option matched :=
  match rmatch r s ∅ (λ s' caps, Some (s', caps)) with
  | Some (rest, caps) =>
      if String.length rest <? String.length s then Some (rest, caps)
      else None
  | None => None
  end.

(** A replacement template: text and references to groups. *)
Inductive piece : Type :=
  | Text (t : string)
  | Backref (n : nat).

Fixpoint expand (template : list piece) (caps : captures) : string :=
  match template with
  | [] => EmptyString
  | Text t :: rest => t +:+ expand rest caps
  | Backref n :: rest => default EmptyString (caps !! n) +:+ expand rest caps
  end.

(** [re.sub(r, template, s, count)] for a pattern that matches no empty
    text: the leftmost match at each place is replaced and the scan goes
    on after it; [count = None] replaces every match. *)
Fixpoint sub_go (r : regex) (template : list piece) (count : option nat)
    (skip : nat) (s : string) : string :=
  match s with
  | EmptyString => EmptyString
  | String c s' =>
      match skip with
      | S n => sub_go r template count n s'
      | O =>
          match count with
          | Some O => s
          | _ =>
              match match_here r s with
              | Some (rest, caps) =>
                  expand template caps +:+
                  sub_go r template (pred <$> count)
                    (String.length s - String.length rest - 1) s'
              | None => String c (sub_go r template count O s')
              end
          end
      end
  end.

Definition re_sub (r : regex) (template : list piece) (s : string) : string :=
  sub_go r template None O s.

Definition re_sub_n (r : regex) (template : list piece) (s : string)
    (count : nat) : string :=
  sub_go r template (Some count) O s.

(** [re.findall(r, s)]: the groups of each match, from left to right. *)
Fixpoint findall_go (r : regex) (skip : nat) (s : string) : list captures :=
  match s with
  | EmptyString => []
  | String c s' =>
      match skip with
      | S n => findall_go r n s'
      | O =>
          match match_here r s with
          | Some (rest, caps) =>
              caps ::
              findall_go r (String.length s - String.length rest - 1) s'
          | None => findall_go r O s'
          end
      end
  end.

Definition re_findall (r : regex) (s : string) : list captures :=
  findall_go r O s.

(** The text of group [n] in the tuple [findall] gives for a match. *)
Definition group (n : nat) (caps : captures) : string :=
  default EmptyString (caps !! n).

(** ** The generated text *)

(** Adjacent literals each ending in a newline. *)
Definition unlines (ls : list string) : string :=
  foldr (λ l acc, l +:+ nl +:+ acc) EmptyString ls.

(** Lines 296-297 and 363-364:
    [extra_args.split(NL)] then [NL.join(" "*8 + x for x in extra_args)]. *)
Definition indent8 (s : string) : string :=
  join nl (map (λ x, spaces 8 +:+ x) (split_lines s)).

(** Lines 192-205: the mixed-precision check put in the trainer preamble. *)
Definition mixed_precision : string :=
  unlines
    [ "use_bf16 = getattr(args, 'bf16', False)";
      "use_fp16 = getattr(args, 'fp16', False)";
      "dtype = getattr(model.config, 'torch_dtype', None)";
      "if dtype is None: dtype = model.get_input_embeddings().dtype";
      "from unsloth_zoo.utils import _get_dtype";
      "dtype = _get_dtype(dtype)";
      "float16 = dtype == torch.float16";
      "if float16 and use_bf16: raise TypeError('Unsloth: Model is in float16 precision but you want to use bfloat16 precision. Set fp16 to `True` and bf16 to `False`')";
      "if not float16 and use_fp16: raise TypeError('Unsloth: Model is in bfloat16 precision but you want to use float16 precision. Set fp16 to `False` and bf16 to `True`')";
      "if not use_bf16 and not use_fp16:";
      "    args.fp16 = float16";
      "    args.bf16 = not float16";
      "    os.environ['ACCELERATE_MIXED_PRECISION'] = 'fp16' if float16 else 'bf16'" ].

(** Lines 214-218. *)
Definition check_eval_dataset : string :=
  unlines
    [ "if getattr(args, 'eval_dataset', None) is not None and getattr(args, 'eval_strategy', 'no') == 'no':";
      "    args.eval_strategy = 'steps'";
      "    if getattr(args, 'eval_steps', None) is None: args.eval_steps = 0.1" ].

(** Lines 223-229. *)
Definition check_ga : string :=
  unlines
    [ "ga_steps = getattr(args, 'gradient_accumulation_steps', None)";
      "if ga_steps is not None and ga_steps > 1:";
      "    from transformers import __version__ as transformers_version";
      "    if Version(transformers_version) <= Version('4.45.2'):";
      "        print('**** Unsloth: Please use our fixed gradient_accumulation_steps by updating transformers, TRL and Unsloth!\n'";
      "              '`pip install --upgrade --no-cache-dir --force-reinstall --no-deps unsloth transformers trl unsloth_zoo`')" ].

(** Lines 232-241. *)
Definition eval_changes : string :=
  unlines
    [ "if getattr(args, 'eval_strategy', 'no') != 'no':";
      "    eval_bsz = getattr(args, 'per_device_eval_batch_size', 8)";
      "    if eval_bsz == 8 and args.per_device_train_batch_size < eval_bsz: args.per_device_eval_batch_size = args.per_device_train_batch_size";
      "    if getattr(args, 'eval_accumulation_steps', None) is None and ga_steps is not None: args.eval_accumulation_steps = ga_steps";
      "fp16_full_eval = getattr(args, 'fp16_full_eval', False)";
      "bf16_full_eval = getattr(args, 'bf16_full_eval', False)";
      "if args.fp16 and bf16_full_eval: args.bf16_full_eval = False; args.fp16_full_eval = True";
      "if args.bf16 and fp16_full_eval: args.bf16_full_eval = True; args.fp16_full_eval = False";
      "if not bf16_full_eval and not fp16_full_eval: args.bf16_full_eval = args.bf16; args.fp16_full_eval = args.fp16" ].

(** Lines 247-255.  The literal of line 255 has no continuation mark, so the
    assignment ends there; the literals of lines 256-260 are an expression
    statement of their own and never reach the text. *)
Definition length_check : string :=
  unlines
    [ "if 'max_seq_length' not in locals() and not hasattr(args, 'max_seq_length'):";
      "    pass";
      "else:";
      "    model_max_seq_length = getattr(model, 'max_seq_length', None)";
      "    args_max_seq_length  = getattr(args,  'max_seq_length', None)";
      "    if args_max_seq_length is None and model_max_seq_length is not None:";
      "        max_seq_length = model.max_seq_length";
      "        if hasattr(args, 'max_seq_length'): args.max_seq_length = max_seq_length" ].

(** Lines 266-273. *)
Definition training_check : string :=
  unlines
    [ "if model is not None and hasattr(model, 'for_training'):";
      "    model.for_training()";
      "if 'tokenizer' in locals() and hasattr(tokenizer, 'padding_side'): tokenizer.padding_side = 'right'";
      "if 'processing_class' in locals():";
      "    if hasattr(processing_class, 'padding_side'): processing_class.padding_side = 'right'";
      "    if hasattr(processing_class, tokenizer) and hasattr(processing_class.tokenizer, 'padding_side'): processing_class.tokenizer.padding_side = 'right'" ].

(** Lines 279-286. *)
Definition neftune_check : string :=
  unlines
    [ "if hasattr(self, 'neftune_hook_handle'):";
      "    self.neftune_hook_handle.remove()";
      "    if hasattr(self, 'neftune_hook_handle'): del self.neftune_hook_handle";
      "if getattr(args, 'neftune_noise_alpha', None) is not None:";
      "    model.get_input_embeddings().neftune_noise_alpha = self.neftune_noise_alpha";
      "    self.neftune_hook_handle = self.model.get_input_embeddings().register_forward_hook(neftune_post_forward_hook)";
      "pass" ].

(** Lines 333-337. *)
Definition learning_rate_check : string :=
  unlines
    [ "if learning_rate < 1e-7: raise FloatingPointError(f'Unsloth: Your learning rate of `{learning_rate}` is too small and less than 1e-7! Consider increasing it, otherwise gradient updates will be close to 0!')";
      "if learning_rate > 1: raise OverflowError(f'Unsloth: Your learning rate of `{learning_rate}` is way too larger > 1! Consider decreasing it to 1e-1, otherwise gradient updates will explode!')" ].

(** Lines 344-347. *)
Definition saving_check : string :=
  unlines
    [ "if output_dir is None and save_strategy == 'steps' and save_steps == 500:";
      "    output_dir = 'unsloth_training_checkpoints'";
      "    save_strategy = 'no'" ].

(** Lines 353-356. *)
Definition num_proc_check : string :=
  unlines
    [ "if dataset_num_proc is None:";
      "    from multiprocessing import cpu_count";
      "    dataset_num_proc = cpu_count()" ].


(** Lines 290-293. *)
Definition statistics_call (trainer_file : string) : string :=
  unlines
    [ "from unsloth_zoo.logging_utils import PatchRLStatistics";
      "PatchRLStatistics('" +:+ trainer_file +:+ "')" ].

(** [k in parameters] for the mapping a signature gives. *)
Definition has_parameter (k : string) (parameters : signature) : bool :=
  existsb (λ p, String.eqb (fst p) k) parameters.

(** Lines 180-187.  [parameters] is the loop variable of line 157 as the
    loop leaves it: the signature of the config class. *)
Definition add_tokenizer (parameters : signature)
    (processed : string * string) : string * string :=
  let '(arguments, call_args) := processed in
  if negb (has_parameter "tokenizer" parameters)
     && has_parameter "processing_class" parameters
  then
    (arguments +:+ "," +:+ nl +:+ spaces 8 +:+ "tokenizer = None",
     replace "processing_class = processing_class"
       "processing_class = tokenizer if tokenizer is not None else processing_class"
       call_args)
  else (arguments, call_args).

(** [if c: extra_args += block] *)
Definition when (c : bool) (block : string) : string :=
  if c then block else EmptyString.

(** Lines 189-293: [extra_args] of the trainer before it is indented. *)
Definition trainer_extra_args (trainer_file call_args : string) : string :=
  when (contains "args" call_args && contains "model" call_args)
    mixed_precision +:+
  when (contains "args" call_args)
    (when (contains "eval_dataset" call_args) check_eval_dataset +:+
     check_ga +:+ eval_changes) +:+
  when (contains "model" call_args) length_check +:+
  when (contains "model" call_args) training_check +:+
  statistics_call trainer_file.

(** Lines 277-288: [RLTrainer_post] before it is indented. *)
Definition trainer_post (call_args : string) : string :=
  when (contains "model" call_args) neftune_check.

(** Lines 309-323. *)
Definition replacements : list (string * pyval) :=
  [ ("output_dir", VNone);
    ("logging_nan_inf_filter", VBool false);
    ("per_device_train_batch_size", VInt 4);
    ("gradient_accumulation_steps", VInt 2);
    ("weight_decay", VFloat "0.01");
    ("warmup_ratio", VFloat "0.1");
    ("seed", VInt 3407);
    ("optim", VStr "adamw_8bit");
    ("learning_rate", VFloat "5e-05");
    ("per_device_eval_batch_size", VInt 4);
    ("eval_accumulation_steps", VInt 2);
    ("torch_empty_cache_steps", VInt 250);
    ("logging_steps", VInt 1) ].

(** Line 325: the pattern [k( = [^,NL]{1,})?,NL]. *)
Definition default_pattern (k : string) : regex :=
  Cat (lit k)
    (Cat (Rep true 0 (Some 1)
            (Group 1 (Cat (lit " = ")
                        (plus (One (NoneOf [","%char; "010"%char]))))))
         (lit ("," +:+ nl))).

(** Lines 326-327. *)
Definition default_text (k : string) (v : pyval) : string :=
  let y := match v with
           | VStr s => "'" +:+ s +:+ "'"
           | _ => py_str v
           end in
  k +:+ " = " +:+ y +:+ "," +:+ nl.

(** Lines 324-329. *)
Definition replace_defaults (table : list (string * pyval))
    (arguments : string) : string :=
  fold_left (λ arguments kv,
               re_sub (default_pattern (fst kv))
                 [Text (default_text (fst kv) (snd kv))] arguments)
    table arguments.

(** Lines 331-358: [extra_args] of the config before it is indented. *)
Definition config_extra_args (call_args : string) : string :=
  when (contains " learning_rate" call_args) learning_rate_check +:+
  when (contains "output_dir" call_args) saving_check +:+
  when (contains "dataset_num_proc" call_args) num_proc_check.

(** Lines 385 and 392: [",**kwargs"[1 if call_args.endswith(",") else 0:]]. *)
Definition kwargs_text (call_args : string) : string :=
  if endswith call_args "," then "**kwargs" else ",**kwargs".



(** ** The template

    [RLTrainer_replacement.format(...)], lines 84-121 and 379-396: the
    literal pieces of the template in order, each field replaced by its
    argument. *)
Definition triple_quote : string := dq +:+ dq +:+ dq.

Definition RLTrainer_replacement
    (RLTrainer_name __RLTrainer_doc__ RLTrainer_arguments
     RLTrainer_extra_args RLTrainer_call_args RLTrainer_kwargs
     RLConfig_name __RLConfig_doc__ RLConfig_arguments
     RLConfig_extra_args RLConfig_call_args RLConfig_kwargs
     RLTrainer_extras RLTrainer_post : string) : string :=
  nl +:+
  "import os" +:+ nl +:+
  "from typing import *" +:+ nl +:+
  "from dataclasses import dataclass, field" +:+ nl +:+
  "from packaging.version import Version" +:+ nl +:+
  nl +:+
  "@dataclass" +:+ nl +:+
  "class Unsloth" +:+ RLConfig_name +:+ "(" +:+ RLConfig_name +:+ "):" +:+ nl +:+
  "    " +:+ triple_quote +:+ nl +:+
  "    " +:+ __RLConfig_doc__ +:+ nl +:+
  "    " +:+ triple_quote +:+ nl +:+
  "    sampling_params: Optional[Any] = field(" +:+ nl +:+
  "        default = None," +:+ nl +:+
  "        metadata = {'help': 'vLLM SamplingParams'}," +:+ nl +:+
  "    )" +:+ nl +:+
  "    def __init__(" +:+ RLConfig_arguments +:+ "," +:+ nl +:+
  "        sampling_params = None," +:+ nl +:+
  "        **kwargs," +:+ nl +:+
  "    ):" +:+ nl +:+
  RLConfig_extra_args +:+ nl +:+
  "        super().__init__(" +:+ RLConfig_call_args +:+ RLConfig_kwargs +:+
  ")" +:+ nl +:+
  "pass" +:+ nl +:+
  nl +:+
  RLTrainer_extras +:+ nl +:+
  nl +:+
  "class Unsloth" +:+ RLTrainer_name +:+ "(_Unsloth" +:+ RLTrainer_name +:+
  "):" +:+ nl +:+
  "    " +:+ triple_quote +:+ nl +:+
  "    " +:+ __RLTrainer_doc__ +:+ nl +:+
  "    " +:+ triple_quote +:+ nl +:+
  "    def __init__(" +:+ RLTrainer_arguments +:+ "," +:+ nl +:+
  "        **kwargs" +:+ nl +:+
  "    ):" +:+ nl +:+
  "        if args is None: args = Unsloth" +:+ RLConfig_name +:+ "()" +:+ nl +:+
  RLTrainer_extra_args +:+ nl +:+
  "        super().__init__(" +:+ RLTrainer_call_args +:+ RLTrainer_kwargs +:+
  ")" +:+ nl +:+
  RLTrainer_post +:+ nl +:+
  "pass" +:+ nl.

(** ** Objects and namespaces *)

(** A reference to an object this module only passes on: the
    [FastLanguageModel] class, a model. *)
Inductive pyref : Type := Ref (n : nat).

Global Instance pyref_eq_dec : EqDecision pyref.
Proof. solve_decision. Defined.

Global Instance pyref_countable : Countable pyref :=
  inj_countable' (λ r, match r with Ref n => n end) Ref
    (λ r, match r with Ref n => eq_refl end).

(** The module [create_new_function] returns: the text it was given,
    compiled and loaded under [name]. *)
Record created_module : Type := {
  cm_name : string;
  cm_source : string;
  cm_location : string;
  cm_imports : list string;
}.

(** What [inspect] and [dir] tell about a class of the library.  A field
    is [None], and a function is missing from [function_source], where
    the call raises. *)
Record introspection : Type := {
  init_signature : option signature;       (* inspect.signature(C.__init__).parameters *)
  function_source : gmap string string;    (* inspect.getsource(getattr(C, f)) *)
  class_source : option string;            (* inspect.getsource(C) *)
  class_dir : list string;                 (* dir(C) *)
}.

Inductive kind : Type :=
  | Library (i : introspection)
  | Synthesized (m : created_module)
  | TrlUnwrap
  | UnslothUnwrap (FastLanguageModel : pyref).

(** An object bound in a namespace, with its [__name__] and the text
    [format] prints for its [__doc__]. *)
Record pyobj : Type := {
  obj_name : string;
  obj_doc : string;
  obj_kind : kind;
}.

Definition introspect (o : pyobj) : option introspection :=
  match obj_kind o with
  | Library i => Some i
  | _ => None
  end.

(** A submodule [trl.trainer.<trainer_file>]: [dir] of it, and the
    attributes that resolve (a lazily loaded name can be listed and still
    raise when read). *)
Record pymodule : Type := {
  mod_dir : list string;
  mod_attrs : gmap string pyobj;
}.

(** The namespaces the patch reads and writes.  The submodules of
    [trl.trainer] are kept apart from its other attributes: a
    [trainer_file] names a submodule. *)
Record world : Type := {
  trl_attrs : gmap string pyobj;
  trainer_dir : list string;
  trainer_attrs : gmap string pyobj;
  trainer_files : gmap string pymodule;
}.

Definition add_name (x : string) (names : list string) : list string :=
  if existsb (String.eqb x) names then names else names ++ [x].

(** [trl.<x> = v] *)
Definition set_trl (x : string) (v : pyobj) (w : world) : world :=
  {| trl_attrs := <[x := v]> (trl_attrs w);
     trainer_dir := trainer_dir w;
     trainer_attrs := trainer_attrs w;
     trainer_files := trainer_files w |}.

(** [trl.trainer.<x> = v] *)
Definition set_trainer (x : string) (v : pyobj) (w : world) : world :=
  {| trl_attrs := trl_attrs w;
     trainer_dir := add_name x (trainer_dir w);
     trainer_attrs := <[x := v]> (trainer_attrs w);
     trainer_files := trainer_files w |}.

Definition mod_setattr (x : string) (v : pyobj) (m : pymodule) : pymodule :=
  {| mod_dir := add_name x (mod_dir m);
     mod_attrs := <[x := v]> (mod_attrs m) |}.

(** [trl.trainer.<file>.<x> = v]; [None] when [trl.trainer.<file>] does
    not resolve. *)
Definition set_file (file x : string) (v : pyobj) (w : world) : option world :=
  m ← trainer_files w !! file;
  Some {| trl_attrs := trl_attrs w;
          trainer_dir := trainer_dir w;
          trainer_attrs := trainer_attrs w;
          trainer_files := <[file := mod_setattr x v m]> (trainer_files w) |}.

(** ** [patch_vllm], lines 418-537 *)

(** Lines 422-427. *)
Definition remove_peft_config (init : string) : string :=
  let init := replace "elif peft_config is None:" "elif False:" init in
  let init := replace "elif peft_config is not None:" "elif False:" init in
  let init := replace "if peft_config is None:" "if False:" init in
  let init := replace "if peft_config is not None:" "if False:" init in
  replace "get_peft_model(model, peft_config)" "model" init.

(** Lines 533-535. *)
Definition rename_class (RLTrainer_name RLTrainer_source : string) : string :=
  replace_n ("class " +:+ RLTrainer_name) ("class _Unsloth" +:+ RLTrainer_name)
    1 RLTrainer_source.

(** [d[k] = v] on a dict, which keeps the place of a key it already has. *)
Definition dict_set {V : Type} (k : string) (v : V)
    (d : list (string * V)) : list (string * V) :=
  if existsb (λ e, String.eqb (fst e) k) d
  then map (λ e, if String.eqb (fst e) k then (k, v) else e) d
  else d ++ [(k, v)].

(** Lines 528-532. *)
Definition apply_changes (changed : list (string * (string * string)))
    (RLTrainer_source : string) : string :=
  fold_left (λ src e, replace (fst (snd e)) (snd (snd e)) src)
    changed RLTrainer_source.

(** Lines 429-437: the pattern [\)([ ]{0,}\-\>[ ]{0,}None[ ]{0,}):NL([\s]{4})],
    replaced once. *)
Definition signature_end : regex :=
  Cat (lit ")")
    (Cat (Group 1
            (Cat (star (One (Only " "%char)))
               (Cat (lit "->")
                  (Cat (star (One (Only " "%char)))
                     (Cat (lit "None") (star (One (Only " "%char))))))))
       (Cat (lit (":" +:+ nl)) (Group 2 (exactly 4 (One Space))))).

Definition use_vllm_line : list piece :=
  [ Text ("):" +:+ nl); Backref 2;
    Text "    if hasattr(model, 'vllm_engine') and getattr(args, 'use_vllm') and getattr(args, 'use_vllm', False): args.use_vllm = True";
    Text nl; Backref 2 ].

Definition set_use_vllm (init : string) : string :=
  re_sub_n signature_end use_vllm_line init 1.

(** Lines 439-446, under [re.MULTILINE | re.DOTALL]: the pattern
    [(NL[\s]{8}if (self|args)\.use_vllm\:.+?NL[\s]{8,}else:NL)]. *)
Definition vllm_branch : regex :=
  Group 1
    (Cat (lit nl)
       (Cat (exactly 8 (One Space))
          (Cat (lit "if ")
             (Cat (Group 2 (Alt (lit "self") (lit "args")))
                (Cat (lit ".use_vllm:")
                   (Cat (lazy_plus (One AnyChar))
                      (Cat (lit nl)
                         (Cat (at_least 8 (One Space))
                            (lit ("else:" +:+ nl)))))))))).

(** Line 450: [\#[^NL]{1,}NL]. *)
Definition comment : regex :=
  Cat (lit "#") (Cat (plus (One (NoneOf ["010"%char]))) (lit nl)).

(** Lines 453-458, under [re.MULTILINE | re.DOTALL]:
    [NL[\s]{4,}(self\.[^\s]{1,}[\s]{0,}\=[\s]{0,}SamplingParams\(.+?\))]. *)
Definition sampling_params_assignment : regex :=
  Cat (lit nl)
    (Cat (at_least 4 (One Space))
       (Group 1
          (Cat (lit "self.")
             (Cat (plus (One NotSpace))
                (Cat (star (One Space))
                   (Cat (lit "=")
                      (Cat (star (One Space))
                         (Cat (lit "SamplingParams(")
                            (Cat (lazy_plus (One AnyChar)) (lit ")")))))))))).

(** Lines 439-471: the vLLM branch of [__init__] swapped for one that
    takes the engine of the model. *)
Definition use_vllm_engine (init : string) : string :=
  match re_findall vllm_branch init with
  | [found] =>
      let vllm_part := group 1 found in
      let args := group 2 found in
      let new_vllm_part := re_sub comment [] vllm_part in
      match re_findall sampling_params_assignment new_vllm_part with
      | [found] =>
          let sampling_params := group 1 found in
          let sampling_params :=
            spaces 12 +:+
            "self.llm = model.vllm_engine; self._last_loaded_step = 0; " +:+
            sampling_params in
          let new_vllm_part :=
            nl +:+ spaces 8 +:+ "if " +:+ args +:+ ".use_vllm:" +:+ nl +:+
            sampling_params +:+ " " +:+
            "if getattr(args, 'sampling_params', None) is None else " +:+
            "getattr(args, 'sampling_params', None)" +:+ nl +:+
            spaces 8 +:+ "else:" +:+ nl in
          replace vllm_part new_vllm_part init
      | _ => init
      end
  | _ => init
  end.

(** Lines 487-514: the four substitutions applied to the source of a
    method.  The patterns are
    [(NL[\s]{4,}).+?model_executor\.driver_worker.+?NL],
    [(NL[\s]{4,}).+?load_weights\(.+?NL], [\.state_dict\(\)] and
    [(self\.llm\.(?:generate|chat)\([^\)]{1,})\)]; the name of the LoRA is
    put in the last template as it is. *)
Definition line_with (text : string) : regex :=
  Cat (Group 1 (Cat (lit nl) (at_least 4 (One Space))))
    (Cat (lazy_plus (One Dot))
       (Cat (lit text) (Cat (lazy_plus (One Dot)) (lit nl)))).

Definition pass_line : list piece :=
  [ Text nl; Backref 1; Text "pass"; Text nl ].

Definition llm_call : regex :=
  Cat (Group 1
         (Cat (lit "self.llm.")
            (Cat (Alt (lit "generate") (lit "chat"))
               (Cat (lit "(") (plus (One (NoneOf [")"%char])))))))
    (lit ")").

Definition redirect_vllm_calls (lora_name source : string) : string :=
  let source := re_sub (line_with "model_executor.driver_worker") pass_line source in
  let source := re_sub (line_with "load_weights(") pass_line source in
  let source := re_sub (lit ".state_dict()") [] source in
  re_sub llm_call
    [ Backref 1;
      Text (", lora_request = self.model.load_lora('" +:+ lora_name +:+
            "', load_tensors = True))") ]
    source.

(** Lines 480-523: one turn of the loop over [functions]. *)
Definition patch_function (RLTrainer : introspection)
    (trainer_file : string) (all_imports : list string)
    (acc : list (string * (string * string)) * list string)
    (function : string) : list (string * (string * string)) * list string :=
  let '(changed, imports) := acc in
  match function_source RLTrainer !! function with
  | None => acc
  | Some original_source =>
      let lora_name := trainer_file +:+ "_lora_model" in
      let source := redirect_vllm_calls lora_name original_source in
      if String.eqb source original_source then acc
      else
        (dict_set function (original_source, source) changed,
         imports ++
         List.filter (λ x, negb (startswith x "_") && contains x source)
           all_imports)
  end.

(** The result is the class source and the caller's [imports] list, which
    line 520 extends in place; [None] when [inspect.getsource] raises. *)
Definition patch_vllm (RLTrainer : pyobj) (trainer_file RLTrainer_name : string)
    (all_imports imports : list string) : option (string * list string) :=
  i ← introspect RLTrainer;
  init ← function_source i !! "__init__";
  let old_init := init in
  let init := remove_peft_config init in
  let init := set_use_vllm init in
  let init := use_vllm_engine init in
  RLTrainer_source ← class_source i;
  let functions :=
    List.filter (λ x, contains ("def " +:+ x) RLTrainer_source) (class_dir i) in
  let '(changed, imports) :=
    fold_left (patch_function i trainer_file all_imports) functions
      ([("__init__", (old_init, init))], imports) in
  let RLTrainer_source := apply_changes changed RLTrainer_source in
  Some (rename_class RLTrainer_name RLTrainer_source, imports).

(** ** [_patch_trl_rl_trainers], lines 123-415 *)

Section Patch.

(** How a call of [_patch_trl_rl_trainers] ends: all six names rebound,
    an early [return], or an exception. *)
Inductive outcome : Type :=
  | Patched (w : world)
  | Skipped
  | Raised (w : world).

(** Whether [create_new_function] loads the module or raises. *)
Variable loads : created_module → bool.

Definition create_new_function (name source location : string)
    (imports : list string) : option created_module :=
  let m := {| cm_name := name; cm_source := source;
              cm_location := location; cm_imports := imports |} in
  if loads m then Some m else None.

(** Lines 133-134. *)
Definition is_trainer_name (trainer_file x : string) : bool :=
  endswith x "Trainer" && negb (String.eqb x "Trainer")
  && contains (split_head "_"%char trainer_file) (lower x).

Definition is_config_name (trainer_file x : string) : bool :=
  endswith x "Config" && negb (String.eqb x "Config")
  && contains (split_head "_"%char trainer_file) (lower x).

(** [created_module.Unsloth<name>]: the class the template defines under
    that name, with the docstring the template gives it. *)
Definition synthesized (created : created_module) (name doc : string) : pyobj :=
  {| obj_name := "Unsloth" +:+ name;
     obj_doc := nl +:+ "    " +:+ doc +:+ nl +:+ "    ";
     obj_kind := Synthesized created |}.

(** Lines 406-414. *)
Definition rebind (trainer_file name : string) (v : pyobj) (w : world)
    : option world :=
  set_file trainer_file name v (set_trainer name v (set_trl name v w)).

(** Lines 150-414, once both classes are resolved and neither is named
    Unsloth already.  [patch_vllm] returns a text on every path, so the
    fallback of lines 371-372 is never taken. *)
Definition synthesize (trainer_file : string) (trainer : pymodule)
    (RLTrainer_name RLConfig_name : string) (RLTrainer RLConfig : pyobj)
    (w : world) : outcome :=
  let all_imports := mod_dir trainer in
  let imports := List.filter (λ x, negb (startswith x "_")) all_imports in
  match introspect RLTrainer ≫= init_signature,
        introspect RLConfig ≫= init_signature with
  | Some trainer_parameters, Some parameters =>
      let '(arguments, call_args) :=
        add_tokenizer parameters (process_signature trainer_parameters) in
      let RLTrainer_extra_args :=
        indent8 (trainer_extra_args trainer_file call_args) in
      let RLTrainer_post := indent8 (trainer_post call_args) in
      let RLTrainer_arguments := arguments in
      let RLTrainer_call_args := call_args in
      let '(arguments, call_args) := process_signature parameters in
      let RLConfig_arguments := replace_defaults replacements arguments in
      let RLConfig_extra_args := indent8 (config_extra_args call_args) in
      let RLConfig_call_args := call_args in
      match patch_vllm RLTrainer trainer_file RLTrainer_name all_imports imports with
      | None => Raised w
      | Some (RLTrainer_extras, imports) =>
          match trainer_attrs w !! RLTrainer_name,
                trainer_attrs w !! RLConfig_name with
          | Some exported_trainer, Some exported_config =>
              let __RLTrainer_doc__ := obj_doc exported_trainer in
              let __RLConfig_doc__ := obj_doc exported_config in
              let RLTrainer_source :=
                RLTrainer_replacement
                  RLTrainer_name __RLTrainer_doc__ RLTrainer_arguments
                  RLTrainer_extra_args RLTrainer_call_args
                  (kwargs_text RLTrainer_call_args)
                  RLConfig_name __RLConfig_doc__ RLConfig_arguments
                  RLConfig_extra_args RLConfig_call_args
                  (kwargs_text RLConfig_call_args)
                  RLTrainer_extras RLTrainer_post in
              match create_new_function ("Unsloth" +:+ RLTrainer_name)
                      RLTrainer_source ("trl.trainer." +:+ trainer_file)
                      imports with
              | None => Raised w
              | Some created =>
                  let new_trainer :=
                    synthesized created RLTrainer_name __RLTrainer_doc__ in
                  let new_config :=
                    synthesized created RLConfig_name __RLConfig_doc__ in
                  match rebind trainer_file RLTrainer_name new_trainer w with
                  | None => Raised w
                  | Some w1 =>
                      match rebind trainer_file RLConfig_name new_config w1 with
                      | None => Raised w1
                      | Some w2 => Patched w2
                      end
                  end
              end
          | _, _ => Raised w
          end
      end
  | _, _ => Raised w
  end.

Definition _patch_trl_rl_trainers (trainer_file : string) (w : world)
    : outcome :=
  match trainer_files w !! trainer_file with
  | None => Skipped
  | Some trainer =>
      let name := List.filter (is_trainer_name trainer_file) (mod_dir trainer) in
      let config := List.filter (is_config_name trainer_file) (mod_dir trainer) in
      match name with
      | [RLTrainer_name] =>
          match config with
          | [RLConfig_name] =>
              match mod_attrs trainer !! RLTrainer_name with
              | None => Skipped
              | Some RLTrainer =>
                  match mod_attrs trainer !! RLConfig_name with
                  | None => Skipped
                  | Some RLConfig =>
                      if startswith (obj_name RLTrainer) "Unsloth" then Skipped
                      else if startswith (obj_name RLConfig) "Unsloth"
                      then Skipped
                      else synthesize trainer_file trainer RLTrainer_name
                             RLConfig_name RLTrainer RLConfig w
                  end
              end
          | _ => Skipped
          end
      | _ => Skipped
      end
  end.

(** The world a call leaves behind. *)
Definition world_after (w : world) (o : outcome) : world :=
  match o with
  | Patched w' => w'
  | Skipped => w
  | Raised w' => w'
  end.

(** ** [patch_trl_rl_trainers], lines 540-548 *)

(** [x.islower()] on ASCII: no upper-case letter and a lower-case one. *)
Definition is_upper (c : ascii) : bool :=
  let n := nat_of_ascii c in (65 <=? n) && (n <=? 90).

Definition is_lower (c : ascii) : bool :=
  let n := nat_of_ascii c in (97 <=? n) && (n <=? 122).

Fixpoint any_char (p : ascii → bool) (s : string) : bool :=
  match s with
  | EmptyString => false
  | String c s' => p c || any_char p s'
  end.

Definition islower (s : string) : bool :=
  negb (any_char is_upper s) && any_char is_lower s.

(** How a statement sequence ends: normally, or with an exception that
    leaves the world as it was when raised. *)
Inductive result : Type :=
  | Returned (w : world)
  | Failed (w : world).

Fixpoint patch_each (all_trainers : list string) (w : world) : result :=
  match all_trainers with
  | [] => Returned w
  | trainer :: rest =>
      match _patch_trl_rl_trainers trainer w with
      | Patched w' => patch_each rest w'
      | Skipped => patch_each rest w
      | Raised w' => Failed w'
      end
  end.

Definition patch_trl_rl_trainers (w : world) : result :=
  let all_trainers :=
    List.filter (λ x, islower x && endswith x "_trainer") (trainer_dir w) in
  patch_each all_trainers w.

(** ** [PatchRL] and [PatchFastRL] *)

Definition unwrap : string := "unwrap_model_for_generation".

(** The context manager of lines 33-58 as the object line 68 binds. *)
Definition unsloth_unwrap (FastLanguageModel : pyref) : pyobj :=
  {| obj_name := "unsloth_unwrap_model_for_generation";
     obj_doc := "None";
     obj_kind := UnslothUnwrap FastLanguageModel |}.

(** Lines 60-70. *)
Definition PatchRL (FastLanguageModel : pyref) (w : world) : world :=
  let trainers := List.filter (λ x, endswith x "_trainer") (trainer_dir w) in
  fold_left
    (λ w trainer,
       match trainer_files w !! trainer with
       | None => w
       | Some current_trainer =>
           match mod_attrs current_trainer !! unwrap with
           | None => w
           | Some _ =>
               match set_file trainer unwrap
                       (unsloth_unwrap FastLanguageModel) w with
               | Some w' => w'
               | None => w
               end
           end
       end)
    trainers w.

(** The calls [PatchFastRL] makes, in order. *)
Inductive call : Type :=
  | CallPatchRL (FastLanguageModel : pyref)
  | CallPatchTrainers
  | CallPatchRLStatistics (algorithm : string).

(** Lines 551-554.  [PatchRLStatistics] belongs to another package; only
    the call is recorded. *)
Definition PatchFastRL (algorithm : option string)
    (FastLanguageModel : option pyref) (w : world) : list call * result :=
  let '(calls, w) :=
    match FastLanguageModel with
    | Some f => ([CallPatchRL f], PatchRL f w)
    | None => ([], w)
    end in
  match patch_trl_rl_trainers w with
  | Failed w' => (calls ++ [CallPatchTrainers], Failed w')
  | Returned w' =>
      (calls ++ [CallPatchTrainers] ++
       match algorithm with
       | Some a => [CallPatchRLStatistics a]
       | None => []
       end,
       Returned w')
  end.

End Patch.

(** ** [unsloth_unwrap_model_for_generation], lines 33-58 *)

Section UnwrapForGeneration.

(** What [generate] takes and returns; [isinstance(out, torch.Tensor)]
    and [out.clone()]. *)
Variable value : Type.
Variable is_tensor : value → bool.
Variable clone : value → value.

Definition generate_fn : Type := list value → value.

(** Lines 42-46. *)
Definition generate_with_clone (original_generate : generate_fn)
    : generate_fn :=
  λ args,
    let out := original_generate args in
    if is_tensor out then clone out else out.

Inductive event : Type :=
  | ForInference (model : pyref)
  | ForTraining (model : pyref).

(** The [generate] attribute of each model that has one, and the calls
    made on [FastLanguageModel] so far. *)
Record models : Type := {
  generate : gmap pyref generate_fn;
  log : list event;
}.

Definition set_generate (model : pyref) (f : generate_fn) (st : models)
    : models :=
  {| generate := <[model := f]> (generate st); log := log st |}.

(** What the two methods of [FastLanguageModel] and the context manager
    of TRL do to the models is theirs to decide. *)
Variable inference_effect training_effect
  : pyref → gmap pyref generate_fn → gmap pyref generate_fn.
Variable trl_enter
  : pyref → gmap pyref generate_fn → option (pyref * gmap pyref generate_fn).
Variable trl_exit : pyref → gmap pyref generate_fn → gmap pyref generate_fn.

Definition for_inference (model : pyref) (st : models) : models :=
  {| generate := inference_effect model (generate st);
     log := log st ++ [ForInference model] |}.

Definition for_training (model : pyref) (st : models) : models :=
  {| generate := training_effect model (generate st);
     log := log st ++ [ForTraining model] |}.

Definition leave_trl (model : pyref) (st : models) : models :=
  {| generate := trl_exit model (generate st); log := log st |}.

(** How a block ends. *)
Inductive completion : Type := Normal | Exception.

(** Lines 52-55: the [finally] block. *)
Definition restore (model unwrapped_model : pyref)
    (original_generate : generate_fn) (st : models) : models :=
  for_training model (set_generate unwrapped_model original_generate st).

(** The [with] statement around [body].  An exception before the [try]
    (the manager of TRL raising, no [generate] attribute) leaves without
    running [body]. *)
Definition unsloth_unwrap_model_for_generation (model : pyref)
    (body : pyref → models → models * completion) (st : models)
    : models * completion :=
  match trl_enter model (generate st) with
  | None => (st, Exception)
  | Some (unwrapped_model, g) =>
      let st := {| generate := g; log := log st |} in
      let st := for_inference unwrapped_model st in
      match generate st !! unwrapped_model with
      | None => (leave_trl model st, Exception)
      | Some original_generate =>
          let st :=
            set_generate unwrapped_model
              (generate_with_clone original_generate) st in
          let '(st, c) := body unwrapped_model st in
          let st := restore model unwrapped_model original_generate st in
          (leave_trl model st, c)
      end
  end.

End UnwrapForGeneration.

(** ** [neftune_post_forward_hook], lines 75-81 *)

Section Neftune.

(** Tensors, their scalars and the random generator belong to torch. *)
Variables tensor scalar rng input : Type.
Variable size : tensor → nat → Z.
(** [alpha / torch.sqrt(torch.tensor(dims))] *)
Variable noise_magnitude : scalar → Z → scalar.
(** [torch.zeros_like(x).uniform_(-m, m)] *)
Variable uniform_like : tensor → scalar → rng → tensor * rng.
Variable add : tensor → tensor → tensor.

Record embedding : Type := {
  training : bool;
  neftune_noise_alpha : scalar;
}.

Definition neftune_post_forward_hook (module : embedding) (inp : input)
    (output : tensor) (g : rng) : tensor * rng :=
  if training module then
    let dims := (size output 1 * size output 2)%Z in
    let mag_norm := noise_magnitude (neftune_noise_alpha module) dims in
    let '(noise, g) := uniform_like output mag_norm g in
    (add output noise, g)
  else (output, g).

End Neftune.
(** * Properties *)

(** ** Sanity checks of the text primitives *)

Example contains_ex : contains "args" "kwargs = kwargs" = true.
Proof. reflexivity. Qed.

Example replace_ex : replace "ab" "x" "cababab-ab" = "cxxx-x".
Proof. reflexivity. Qed.

Example replace_n_ex : replace_n "ab" "x" 1 "cababab-ab" = "cxabab-ab".
Proof. reflexivity. Qed.

Example split_lines_ex :
  split_lines ("a" +:+ nl +:+ "b" +:+ nl) = ["a"; "b"; ""].
Proof. reflexivity. Qed.

Example lower_ex : lower "GRPOTrainer" = "grpotrainer".
Proof. reflexivity. Qed.

Example replace_empty_ex : replace_n "" "-" 2 "abc" = "-a-bc".
Proof. reflexivity. Qed.

Example process_signature_ex :
  process_signature
    [("self", VEmpty); ("model", VEmpty); ("args", VNone);
     ("callbacks", VOther); ("seed", VInt 42); ("optim", VStr "adamw")]
  = (nl +:+ "        self," +:+ nl +:+ "        model," +:+ nl +:+
     "        args = None," +:+ nl +:+ "        seed = 42," +:+ nl +:+
     "        optim = 'adamw'",
     nl +:+ "            model = model," +:+ nl +:+
     "            args = args," +:+ nl +:+ "            seed = seed," +:+ nl +:+
     "            optim = optim").
Proof. reflexivity. Qed.

(** ** Text: append, prefixes, occurrences *)

Section Text.

Implicit Types (s t u p : string) (c : ascii).

Lemma str_app_nil_l s : EmptyString +:+ s = s.
Proof. reflexivity. Qed.

Lemma str_app_cons c s t : String c s +:+ t = String c (s +:+ t).
Proof. reflexivity. Qed.

Lemma str_app_nil_r s : s +:+ EmptyString = s.
Proof. induction s as [|c s IH]; [done | by rewrite str_app_cons, IH]. Qed.

Lemma str_app_assoc s t u : (s +:+ t) +:+ u = s +:+ (t +:+ u).
Proof. induction s as [|c s IH]; [done | by rewrite !str_app_cons, IH]. Qed.

Lemma str_length_app s t :
  String.length (s +:+ t) = String.length s + String.length t.
Proof.
  induction s as [|c s IH]; [done | rewrite str_app_cons; simpl; by rewrite IH].
Qed.

Lemma prefix_cons c d p s :
  String.prefix (String c p) (String d s)
  = Ascii.eqb c d && String.prefix p s.
Proof.
  simpl. destruct (ascii_dec c d) as [->|Hne].
  - by rewrite Ascii.eqb_refl.
  - by apply Ascii.eqb_neq in Hne as ->.
Qed.

Lemma prefix_nil_l s : String.prefix EmptyString s = true.
Proof. by destruct s. Qed.

Lemma prefix_app p s : String.prefix p (p +:+ s) = true.
Proof.
  induction p as [|c p IH]; [apply prefix_nil_l|].
  by rewrite str_app_cons, prefix_cons, Ascii.eqb_refl.
Qed.

Lemma prefix_app_both p s t :
  String.prefix (p +:+ s) (p +:+ t) = String.prefix s t.
Proof.
  induction p as [|c p IH]; [done|].
  by rewrite !str_app_cons, prefix_cons, Ascii.eqb_refl.
Qed.

Lemma prefix_split p s :
  String.prefix p s = true → ∃ t, s = p +:+ t.
Proof.
  revert s. induction p as [|c p IH]; intros s H.
  - by exists s.
  - destruct s as [|d s]; [done|].
    rewrite prefix_cons in H. apply andb_true_iff in H as [Hc Hp].
    apply Ascii.eqb_eq in Hc as ->. destruct (IH _ Hp) as [t ->].
    by exists t.
Qed.

Lemma contains_nil p :
  contains p EmptyString = String.prefix p EmptyString.
Proof. simpl. apply orb_false_r. Qed.

Lemma contains_cons_eq p c s :
  contains p (String c s) = String.prefix p (String c s) || contains p s.
Proof. reflexivity. Qed.

Lemma contains_prefix p s : String.prefix p s = true → contains p s = true.
Proof. intros H. destruct s; simpl in *; by rewrite H. Qed.

Lemma contains_cons p c s : contains p s = true → contains p (String c s) = true.
Proof.
  intros H. rewrite contains_cons_eq, H. apply orb_true_r.
Qed.

Lemma contains_app_r p s t : contains p t = true → contains p (s +:+ t) = true.
Proof.
  intros H. induction s as [|c s IH]; [done|].
  rewrite str_app_cons. by apply contains_cons.
Qed.

Lemma contains_middle p s t : contains p (s +:+ p +:+ t) = true.
Proof. apply contains_app_r, contains_prefix, prefix_app. Qed.

Lemma contains_spec p s : contains p s = true ↔ ∃ a b, s = a +:+ p +:+ b.
Proof.
  split.
  - induction s as [|c s IH].
    + rewrite contains_nil. intros [t ->]%prefix_split.
      by exists EmptyString, t.
    + rewrite contains_cons_eq. intros [H|H]%orb_true_iff.
      * apply prefix_split in H as [t Ht]. exists EmptyString, t.
        by rewrite str_app_nil_l.
      * destruct (IH H) as (a & b & ->). by exists (String c a), b.
  - intros (a & b & ->). apply contains_middle.
Qed.

Lemma endswith_nil suf :
  endswith EmptyString suf = String.eqb EmptyString suf.
Proof. unfold endswith. apply orb_false_r. Qed.

Lemma endswith_cons_eq c s suf :
  endswith (String c s) suf = String.eqb (String c s) suf || endswith s suf.
Proof. reflexivity. Qed.

Lemma endswith_spec s suf : endswith s suf = true ↔ ∃ a, s = a +:+ suf.
Proof.
  split.
  - induction s as [|c s IH].
    + rewrite endswith_nil. intros <-%String.eqb_eq. by exists EmptyString.
    + rewrite endswith_cons_eq. intros [H|H]%orb_true_iff.
      * apply String.eqb_eq in H as <-. by exists EmptyString.
      * destruct (IH H) as [a ->]. by exists (String c a).
  - intros [a ->]. induction a as [|c a IH].
    + rewrite str_app_nil_l. destruct suf.
      * by rewrite endswith_nil.
      * by rewrite endswith_cons_eq, String.eqb_refl.
    + by rewrite str_app_cons, endswith_cons_eq, IH, orb_true_r.
Qed.

(** The last character of a text. *)
Fixpoint last_char s : option ascii :=
  match s with
  | EmptyString => None
  | String c EmptyString => Some c
  | String _ s' => last_char s'
  end.

Lemma last_char_app s t : t ≠ EmptyString → last_char (s +:+ t) = last_char t.
Proof.
  intros Ht. induction s as [|c s IH]; [done|].
  rewrite str_app_cons. simpl. destruct (s +:+ t) eqn:E; [|done].
  destruct s; [done | discriminate].
Qed.

End Text.

(** ** The argument lists read off a signature *)

(** The claim in its own words: a parameter is kept unless it is [self]
    or its default has another type than the five. *)
Definition kept (p : string * pyval) : bool :=
  negb (String.eqb (fst p) "self")
  && match snd p with VOther => false | _ => true end.

(** The text of a kept parameter: bare, [k = '<default>'] for a string
    (the newline escaped), [k = <default>] otherwise. *)
Definition argument_text (p : string * pyval) : string :=
  let '(k, v) := p in
  match v with
  | VEmpty => k
  | VStr s =>
      k +:+ " = '" +:+ (if String.eqb s nl then bs +:+ nl else s) +:+ "'"
  | _ => k +:+ " = " +:+ py_str v
  end.

Definition forward_text (p : string * pyval) : string :=
  fst p +:+ " = " +:+ fst p.

Lemma add_parameter_kept arguments call_args p :
  add_parameter (arguments, call_args) p
  = if kept p
    then (arguments ++ [argument_text p], call_args ++ [forward_text p])
    else (arguments, call_args).
Proof.
  destruct p as [k v]. unfold add_parameter, kept, forward_text. simpl.
  destruct (String.eqb k "self"); [done|]. simpl.
  destruct v as [|s|b| |z|r|]; simpl; try done.
  by destruct (String.eqb s nl).
Qed.

Lemma fold_add_parameter parameters arguments call_args :
  fold_left add_parameter parameters (arguments, call_args)
  = (arguments ++ map argument_text (List.filter kept parameters),
     call_args ++ map forward_text (List.filter kept parameters)).
Proof.
  revert arguments call_args.
  induction parameters as [|p ps IH]; intros arguments call_args.
  - simpl. by rewrite !app_nil_r.
  - change (fold_left add_parameter (p :: ps) (arguments, call_args))
      with (fold_left add_parameter ps
              (add_parameter (arguments, call_args) p)).
    rewrite add_parameter_kept. cbn [List.filter].
    destruct (kept p); cbn [map]; rewrite IH; [|done].
    by rewrite <- !(assoc_L (++)).
Qed.



(** ** Indentation of the generated blocks *)

(** A text with eight spaces put after each newline. *)
Fixpoint nl_indent (s : string) : string :=
  match s with
  | EmptyString => EmptyString
  | String c s' =>
      if Ascii.eqb c "010"%char
      then String c (spaces 8 +:+ nl_indent s')
      else String c (nl_indent s')
  end.

Lemma nl_indent_cons c s :
  nl_indent (String c s)
  = if Ascii.eqb c "010"%char
    then String c (spaces 8 +:+ nl_indent s)
    else String c (nl_indent s).
Proof. reflexivity. Qed.

Lemma any_char_cons p c s : any_char p (String c s) = p c || any_char p s.
Proof. reflexivity. Qed.

Lemma split_lines_cons_eq c s :
  split_lines (String c s)
  = if Ascii.eqb c "010"%char then EmptyString :: split_lines s
    else match split_lines s with
         | [] => [String c EmptyString]
         | l :: ls => String c l :: ls
         end.
Proof. reflexivity. Qed.

Lemma nl_indent_app s t : nl_indent (s +:+ t) = nl_indent s +:+ nl_indent t.
Proof.
  induction s as [|c s IH]; [done|].
  rewrite str_app_cons, !nl_indent_cons, IH.
  destruct (Ascii.eqb c "010"); [|done].
  by rewrite (str_app_cons c (spaces 8 +:+ _)), str_app_assoc.
Qed.

Lemma nl_indent_id s :
  any_char (Ascii.eqb "010"%char) s = false → nl_indent s = s.
Proof.
  induction s as [|c s IH]; [done|]. rewrite any_char_cons, nl_indent_cons.
  intros [Hc Hs]%orb_false_iff. rewrite Ascii.eqb_sym, Hc. by rewrite IH.
Qed.

Lemma split_lines_cons s : ∃ l ls, split_lines s = l :: ls.
Proof.
  induction s as [|c s (l & ls & IH)]; [by eexists _, _|].
  rewrite split_lines_cons_eq.
  destruct (Ascii.eqb c "010"); [by eexists _, _|].
  rewrite IH. by eexists _, _.
Qed.

Lemma join_cons sep x y ys :
  join sep (x :: y :: ys) = x +:+ sep +:+ join sep (y :: ys).
Proof. reflexivity. Qed.

(** Splitting into lines, indenting each and joining them again is the
    same as indenting after each newline. *)
Lemma indent8_nl_indent s : indent8 s = spaces 8 +:+ nl_indent s.
Proof.
  unfold indent8. induction s as [|c s IH]; [done|].
  destruct (split_lines_cons s) as (l & ls & Hs).
  rewrite split_lines_cons_eq, nl_indent_cons. rewrite Hs in IH |- *.
  destruct (Ascii.eqb c "010") eqn:Hc.
  - apply Ascii.eqb_eq in Hc as ->.
    cbn [map]. cbn [map] in IH. rewrite join_cons, IH.
    by rewrite str_app_nil_r.
  - cbn [map] in IH |- *.
    assert (∃ T, ∀ x, join nl ((spaces 8 +:+ x) :: map (λ x, spaces 8 +:+ x) ls)
                      = spaces 8 +:+ x +:+ T) as [T HT].
    { destruct ls as [|y ys].
      - exists EmptyString. intros x. unfold join. simpl String.concat.
        by rewrite str_app_nil_r.
      - eexists. intros x. cbn [map]. rewrite join_cons.
        by rewrite str_app_assoc. }
    rewrite HT in IH |- *. apply (inj (String.app (spaces 8))) in IH.
    by rewrite str_app_cons, IH.
Qed.

Lemma indent8_app s t : indent8 (s +:+ t) = indent8 s +:+ nl_indent t.
Proof. by rewrite !indent8_nl_indent, nl_indent_app, str_app_assoc. Qed.

Lemma endswith_app_r s t suf :
  endswith t suf = true → endswith (s +:+ t) suf = true.
Proof.
  intros [a ->]%endswith_spec. apply endswith_spec. exists (s +:+ a).
  by rewrite str_app_assoc.
Qed.

(** ** The preamble of the synthesized trainer *)

Lemma unlines_cons l ls : unlines (l :: ls) = l +:+ nl +:+ unlines ls.
Proof. reflexivity. Qed.





Lemma statistics_call_end trainer_file :
  statistics_call trainer_file
  = ("from unsloth_zoo.logging_utils import PatchRLStatistics" +:+ nl) +:+
    "PatchRLStatistics('" +:+ trainer_file +:+ "')" +:+ nl.
Proof.
  unfold statistics_call. rewrite !unlines_cons.
  change (unlines []) with EmptyString.
  by rewrite !str_app_assoc, str_app_nil_r.
Qed.

Lemma app_regroup (a b c d e f g : string) :
  a +:+ b +:+ c +:+ d +:+ ((e +:+ f) +:+ g)
  = ((a +:+ b +:+ c +:+ d +:+ e) +:+ f) +:+ g.
Proof. by rewrite !str_app_assoc. Qed.

Lemma trainer_extra_args_end trainer_file call_args :
  ∃ pre,
    trainer_extra_args trainer_file call_args
    = (pre +:+ nl) +:+ "PatchRLStatistics('" +:+ trainer_file +:+ "')" +:+ nl.
Proof.
  unfold trainer_extra_args. rewrite statistics_call_end.
  eexists. apply app_regroup.
Qed.

Lemma indented_call_end pre trainer_file :
  any_char (Ascii.eqb "010"%char) trainer_file = false →
  endswith
    (indent8 ((pre +:+ nl) +:+ "PatchRLStatistics('" +:+ trainer_file +:+ "')" +:+ nl))
    (spaces 8 +:+ "PatchRLStatistics('" +:+ trainer_file +:+ "')" +:+ nl +:+ spaces 8)
  = true.
Proof.
  intros HF. rewrite str_app_assoc, indent8_app.
  apply endswith_app_r.
  rewrite (str_app_cons "010" EmptyString), nl_indent_cons.
  cbn [Ascii.eqb Bool.eqb]. rewrite str_app_nil_l.
  rewrite !nl_indent_app, (nl_indent_id trainer_file HF).
  change (nl_indent "PatchRLStatistics('") with "PatchRLStatistics('".
  change (nl_indent "')") with "')".
  change (nl_indent nl) with (nl +:+ spaces 8).
  apply endswith_spec. by exists nl.
Qed.

(** ** [PatchFastRL] *)

(** Membership in a short list of calls, by cases. *)
Ltac call_cases :=
  cbn; split;
  [ intros H; destruct_or?; simplify_eq; eauto; done
  | intros H; destruct_and?;
    repeat match goal with H' : ex _ |- _ => destruct H' end;
    simplify_eq; tauto ].

Section Patching.

Variable loads : created_module → bool.

Local Abbreviation patch :=
  (_patch_trl_rl_trainers loads).
Local Abbreviation patch_all :=
  (patch_trl_rl_trainers loads).
Local Abbreviation fast_rl :=
  (PatchFastRL loads).

(** C7, as the code has it.  The text put before the call of the
    superclass constructor ends with the call
    [PatchRLStatistics('<trainer_file>')], whatever the signature gave as
    call arguments; so does the indented preamble, followed by the
    indentation of the empty last line, for a [trainer_file] without a
    newline.  [PatchFastRL] calls [PatchRL(FastLanguageModel)] exactly
    when [FastLanguageModel] is not [None].  It calls
    [PatchRLStatistics(algorithm)] exactly when [algorithm] is not [None]
    and [patch_trl_rl_trainers] has returned: line 554 stands after the
    patching and is not reached when that raises. *)
Theorem C7_statistics_calls (trainer_file call_args : string)
    (algorithm : option string) (FastLanguageModel : option pyref)
    (w : world) :
  endswith (trainer_extra_args trainer_file call_args)
    ("PatchRLStatistics('" +:+ trainer_file +:+ "')" +:+ nl) = true
  ∧ (any_char (Ascii.eqb "010"%char) trainer_file = false →
     endswith (indent8 (trainer_extra_args trainer_file call_args))
       (spaces 8 +:+ "PatchRLStatistics('" +:+ trainer_file +:+ "')" +:+ nl
        +:+ spaces 8) = true)
  ∧ (∀ f, In (CallPatchRL f) (fast_rl algorithm FastLanguageModel w).1
          ↔ FastLanguageModel = Some f)
  ∧ (∀ a, In (CallPatchRLStatistics a) (fast_rl algorithm FastLanguageModel w).1
          ↔ algorithm = Some a
            ∧ ∃ w', (fast_rl algorithm FastLanguageModel w).2 = Returned w').
Proof.
  destruct (trainer_extra_args_end trainer_file call_args) as [pre Hpre].
  split; [|split; [|split]].
  - rewrite Hpre. apply endswith_app_r, endswith_spec. by exists EmptyString.
  - intros HF. rewrite Hpre. by apply indented_call_end.
  - intros f. unfold PatchFastRL.
    destruct FastLanguageModel as [f'|];
      destruct (patch_trl_rl_trainers _ _) as [w'|w'];
      destruct algorithm as [a|]; call_cases.
  - intros a. unfold PatchFastRL.
    destruct FastLanguageModel as [f'|];
      destruct (patch_trl_rl_trainers _ _) as [w'|w'];
      destruct algorithm as [a'|]; call_cases.
Qed.

End Patching.

(** A library class whose constructor [inspect.signature] cannot read. *)
Definition opaque_class (name : string) : pyobj :=
  {| obj_name := name; obj_doc := "None";
     obj_kind := Library {| init_signature := None; function_source := ∅;
                            class_source := None; class_dir := [] |} |}.

Definition opaque_world : world :=
  let m := {| mod_dir := ["GRPOConfig"; "GRPOTrainer"];
              mod_attrs := {[ "GRPOConfig" := opaque_class "GRPOConfig";
                              "GRPOTrainer" := opaque_class "GRPOTrainer" ]} |} in
  {| trl_attrs := ∅;
     trainer_dir := ["grpo_trainer"];
     trainer_attrs := ∅;
     trainer_files := {[ "grpo_trainer" := m ]} |}.

(** C7 as claimed fails where the patching raises: with an algorithm
    given, [PatchFastRL] ends in the exception of
    [patch_trl_rl_trainers] and has not called [PatchRLStatistics]. *)
Lemma C7_no_statistics_after_raise :
  PatchFastRL (λ _, true) (Some "grpo_trainer") None
    opaque_world
  = ([CallPatchTrainers], Failed opaque_world)
  ∧ ¬ In (CallPatchRLStatistics "grpo_trainer")
        (PatchFastRL (λ _, true) (Some "grpo_trainer") None
           opaque_world).1.
Proof.
  assert (H : PatchFastRL (λ _, true) (Some "grpo_trainer")
                None opaque_world
              = ([CallPatchTrainers], Failed opaque_world))
    by (vm_compute; reflexivity).
  split; [done|]. rewrite H. simpl. intros [?|[]]; discriminate.
Qed.

(** The second part of C7 at a [trainer_file] and a world where the
    patching returns. *)
Lemma C7_statistics_calls_witness :
  any_char (Ascii.eqb "010"%char) "grpo_trainer" = false
  ∧ endswith (indent8 (trainer_extra_args "grpo_trainer" "args = args"))
      (spaces 8 +:+ "PatchRLStatistics('grpo_trainer')" +:+ nl +:+ spaces 8)
    = true.
Proof.
  split; [reflexivity|].
  apply (proj1 (proj2 (C7_statistics_calls (λ _, true)
                         "grpo_trainer" "args = args" None None
                         opaque_world))).
  reflexivity.
Defined.

(** ** [_patch_trl_rl_trainers]: the three namespaces *)

Lemma filter_singleton {A : Type} (p : A → bool) (l : list A) (x : A) :
  List.filter p l = [x] → p x = true ∧ In x l.
Proof.
  intros H. assert (Hin : In x (List.filter p l)) by (rewrite H; by left).
  apply filter_In in Hin. tauto.
Qed.

Lemma add_name_present x names : In x names → add_name x names = names.
Proof.
  intros H. unfold add_name.
  assert (existsb (String.eqb x) names = true) as ->; [|done].
  apply existsb_exists. exists x. by rewrite String.eqb_refl.
Qed.

Lemma trainer_config_distinct trainer_file n c :
  is_trainer_name trainer_file n = true →
  is_config_name trainer_file c = true → n ≠ c.
Proof.
  unfold is_trainer_name, is_config_name.
  intros [[Hn _]%andb_true_iff _]%andb_true_iff
         [[Hc _]%andb_true_iff _]%andb_true_iff ->.
  apply endswith_spec in Hn as [a Ha]. apply endswith_spec in Hc as [b Hb].
  assert (H : last_char (a +:+ "Trainer") = last_char (b +:+ "Config"))
    by congruence.
  rewrite !last_char_app in H by done. discriminate.
Qed.

Lemma synthesized_name created name doc :
  obj_name (synthesized created name doc) = "Unsloth" +:+ name.
Proof. reflexivity. Qed.

Lemma synthesized_startswith created name doc :
  startswith (obj_name (synthesized created name doc)) "Unsloth" = true.
Proof. unfold startswith. rewrite synthesized_name. apply prefix_app. Qed.

(** What the three assignments of one name leave. *)
Lemma rebind_spec trainer_file x v w w' :
  rebind trainer_file x v w = Some w' →
  ∃ m, trainer_files w !! trainer_file = Some m
       ∧ trl_attrs w' = <[x := v]> (trl_attrs w)
       ∧ trainer_attrs w' = <[x := v]> (trainer_attrs w)
       ∧ trainer_dir w' = add_name x (trainer_dir w)
       ∧ trainer_files w'
         = <[trainer_file := mod_setattr x v m]> (trainer_files w).
Proof.
  unfold rebind, set_file. cbn.
  destruct (trainer_files w !! trainer_file) as [m|] eqn:Hm; [|done].
  cbn. intros [= <-]. by exists m.
Qed.

Lemma rebind_defined trainer_file x v w m :
  trainer_files w !! trainer_file = Some m →
  is_Some (rebind trainer_file x v w).
Proof. intros Hm. unfold rebind, set_file. cbn. rewrite Hm. by eexists. Qed.

Lemma prefix_app_both_true p s t :
  String.prefix s t = true → String.prefix (p +:+ s) (p +:+ t) = true.
Proof. by rewrite prefix_app_both. Qed.

(** A text given as pieces: a piece-wise search for an occurrence made of
    consecutive pieces. *)
Ltac prefix_pieces :=
  first [ apply prefix_app | apply prefix_app_both_true; prefix_pieces ].

Ltac find_pieces :=
  first [ apply contains_prefix; prefix_pieces
        | apply contains_app_r; find_pieces ].

(** The text of the template defines both classes under their new
    names. *)
Lemma template_defines_config tn td ta te tc tk cn cd ca ce cc ck extras post :
  contains ("class Unsloth" +:+ cn +:+ "(" +:+ cn +:+ "):")
    (RLTrainer_replacement tn td ta te tc tk cn cd ca ce cc ck extras post)
  = true.
Proof. unfold RLTrainer_replacement. find_pieces. Qed.

Lemma template_defines_trainer tn td ta te tc tk cn cd ca ce cc ck extras post :
  contains ("class Unsloth" +:+ tn +:+ "(_Unsloth" +:+ tn +:+ "):")
    (RLTrainer_replacement tn td ta te tc tk cn cd ca ce cc ck extras post)
  = true.
Proof. unfold RLTrainer_replacement. find_pieces. Qed.

Section PatchProperties.

Variable loads : created_module → bool.

Local Abbreviation patch :=
  (_patch_trl_rl_trainers loads).
Local Abbreviation synth :=
  (synthesize loads).

(** The names and classes a call resolves, lines 128-144. *)
Definition resolves (trainer_file : string) (w : world) (trainer : pymodule)
    (RLTrainer_name RLConfig_name : string) (RLTrainer RLConfig : pyobj)
    : Prop :=
  trainer_files w !! trainer_file = Some trainer
  ∧ List.filter (is_trainer_name trainer_file) (mod_dir trainer)
    = [RLTrainer_name]
  ∧ List.filter (is_config_name trainer_file) (mod_dir trainer)
    = [RLConfig_name]
  ∧ mod_attrs trainer !! RLTrainer_name = Some RLTrainer
  ∧ mod_attrs trainer !! RLConfig_name = Some RLConfig.

(** The classes of one synthesized module put under both names in the
    three namespaces. *)
Definition rebound (trainer_file : string) (w w' : world)
    (RLTrainer_name RLConfig_name : string) (created : created_module)
    (new_trainer new_config : pyobj) : Prop :=
  loads created = true
  ∧ cm_name created = "Unsloth" +:+ RLTrainer_name
  ∧ contains ("class Unsloth" +:+ RLTrainer_name +:+ "(_Unsloth"
              +:+ RLTrainer_name +:+ "):") (cm_source created) = true
  ∧ contains ("class Unsloth" +:+ RLConfig_name +:+ "(" +:+ RLConfig_name
              +:+ "):") (cm_source created) = true
  ∧ (∃ doc, new_trainer = synthesized created RLTrainer_name doc)
  ∧ (∃ doc, new_config = synthesized created RLConfig_name doc)
  ∧ ∃ w1, rebind trainer_file RLTrainer_name new_trainer w = Some w1
          ∧ rebind trainer_file RLConfig_name new_config w1 = Some w'.

Lemma synthesize_cases trainer_file trainer tn cn RLTrainer RLConfig w :
  trainer_files w !! trainer_file = Some trainer →
  match synth trainer_file trainer tn cn RLTrainer RLConfig w with
  | Patched w' =>
      ∃ created new_trainer new_config,
        rebound trainer_file w w' tn cn created new_trainer new_config
  | Skipped => False
  | Raised w' => w' = w
  end.
Proof.
  intros Hfile. unfold synthesize.
  destruct (introspect RLTrainer ≫= init_signature) as [tp|]; [|done].
  destruct (introspect RLConfig ≫= init_signature) as [cp|]; [|done].
  destruct (add_tokenizer cp (process_signature tp)) as [targs tcall].
  destruct (process_signature cp) as [cargs ccall].
  destruct (patch_vllm _ _ _ _ _) as [[extras imports]|]; [|done].
  destruct (trainer_attrs w !! tn) as [et|]; [|done].
  destruct (trainer_attrs w !! cn) as [ec|]; [|done].
  unfold create_new_function.
  match goal with |- context [loads ?m] =>
    set (created := m); destruct (loads created) eqn:Hloads; [|done] end.
  destruct (rebind_defined trainer_file tn
              (synthesized created tn (obj_doc et)) w trainer Hfile)
    as [w1 Hw1].
  rewrite Hw1.
  destruct (rebind_spec _ _ _ _ _ Hw1) as (m & Hm & _ & _ & _ & Hfiles).
  assert (Hfile1 : trainer_files w1 !! trainer_file
                   = Some (mod_setattr tn (synthesized created tn (obj_doc et)) m)).
  { rewrite Hfiles. apply lookup_insert_eq. }
  destruct (rebind_defined trainer_file cn
              (synthesized created cn (obj_doc ec)) w1 _ Hfile1)
    as [w2 Hw2].
  rewrite Hw2.
  exists created, (synthesized created tn (obj_doc et)),
         (synthesized created cn (obj_doc ec)).
  split; [done|]. split; [done|].
  split; [apply template_defines_trainer|].
  split; [apply template_defines_config|].
  split; [by eexists|]. split; [by eexists|]. by exists w1.
Qed.

(** A call that completes went through every lookup. *)
Lemma patch_patched trainer_file w w' :
  patch trainer_file w = Patched w' →
  ∃ trainer tn cn RLTrainer RLConfig,
    resolves trainer_file w trainer tn cn RLTrainer RLConfig
    ∧ startswith (obj_name RLTrainer) "Unsloth" = false
    ∧ startswith (obj_name RLConfig) "Unsloth" = false
    ∧ synth trainer_file trainer tn cn RLTrainer RLConfig w = Patched w'.
Proof.
  unfold _patch_trl_rl_trainers.
  destruct (trainer_files w !! trainer_file) as [trainer|] eqn:Hfile; [|done].
  destruct (List.filter (is_trainer_name _) _) as [|tn [|]] eqn:Hn; try done.
  destruct (List.filter (is_config_name _) _) as [|cn [|]] eqn:Hc; try done.
  destruct (mod_attrs trainer !! tn) as [RLTrainer|] eqn:Ht; [|done].
  destruct (mod_attrs trainer !! cn) as [RLConfig|] eqn:Hcf; [|done].
  destruct (startswith (obj_name RLTrainer) "Unsloth") eqn:H1; [done|].
  destruct (startswith (obj_name RLConfig) "Unsloth") eqn:H2; [done|].
  intros H. by exists trainer, tn, cn, RLTrainer, RLConfig.
Qed.

Lemma patch_resolved trainer_file w trainer tn cn RLTrainer RLConfig :
  resolves trainer_file w trainer tn cn RLTrainer RLConfig →
  patch trainer_file w
  = if startswith (obj_name RLTrainer) "Unsloth" then Skipped
    else if startswith (obj_name RLConfig) "Unsloth" then Skipped
    else synth trainer_file trainer tn cn RLTrainer RLConfig w.
Proof.
  intros (Hfile & Hn & Hc & Ht & Hcf). unfold _patch_trl_rl_trainers.
  by rewrite Hfile, Hn, Hc, Ht, Hcf.
Qed.

(** An exception leaves the namespaces as they were. *)
Lemma patch_raised trainer_file w w' :
  patch trainer_file w = Raised w' → w' = w.
Proof.
  unfold _patch_trl_rl_trainers.
  destruct (trainer_files w !! trainer_file) as [trainer|] eqn:Hfile; [|done].
  destruct (List.filter (is_trainer_name _) _) as [|tn [|]]; try done.
  destruct (List.filter (is_config_name _) _) as [|cn [|]]; try done.
  destruct (mod_attrs trainer !! tn) as [RLTrainer|]; [|done].
  destruct (mod_attrs trainer !! cn) as [RLConfig|]; [|done].
  destruct (startswith (obj_name RLTrainer) "Unsloth"); [done|].
  destruct (startswith (obj_name RLConfig) "Unsloth"); [done|].
  intros H.
  pose proof (synthesize_cases trainer_file trainer tn cn RLTrainer RLConfig
                w Hfile) as Hs.
  by rewrite H in Hs.
Qed.

(** The attributes after both names are rebound. *)
Lemma rebound_lookup trainer_file w w' trainer tn cn created nt nc :
  trainer_files w !! trainer_file = Some trainer →
  tn ≠ cn →
  rebound trainer_file w w' tn cn created nt nc →
  trl_attrs w' !! tn = Some nt ∧ trl_attrs w' !! cn = Some nc
  ∧ trainer_attrs w' !! tn = Some nt ∧ trainer_attrs w' !! cn = Some nc
  ∧ trainer_files w'
    = <[trainer_file := mod_setattr cn nc (mod_setattr tn nt trainer)]>
        (trainer_files w).
Proof.
  intros Hfile Hne (_ & _ & _ & _ & _ & _ & w1 & H1 & H2).
  apply rebind_spec in H1 as (m1 & Hm1 & Ha1 & Hb1 & _ & Hf1).
  apply rebind_spec in H2 as (m2 & Hm2 & Ha2 & Hb2 & _ & Hf2).
  rewrite Hfile in Hm1. injection Hm1 as <-.
  rewrite Hf1, lookup_insert_eq in Hm2. injection Hm2 as <-.
  rewrite Ha2, Ha1, Hb2, Hb1, Hf2, Hf1.
  rewrite lookup_insert_ne, !lookup_insert_eq by done.
  rewrite (lookup_insert_ne (<[tn:=nt]> (trainer_attrs w))), !lookup_insert_eq by done.
  by rewrite insert_insert_eq.
Qed.

(** The two classes of the synthesized module stand under the trainer
    name and the config name in [trl], in [trl.trainer] and in
    [trl.trainer.<trainer_file>]. *)
Definition patched_everywhere (trainer_file : string) (w w' : world) : Prop :=
  ∃ trainer tn cn RLTrainer RLConfig created new_trainer new_config trainer',
    resolves trainer_file w trainer tn cn RLTrainer RLConfig
    ∧ rebound trainer_file w w' tn cn created new_trainer new_config
    ∧ obj_name new_trainer = "Unsloth" +:+ tn
    ∧ obj_name new_config = "Unsloth" +:+ cn
    ∧ trl_attrs w' !! tn = Some new_trainer
    ∧ trainer_attrs w' !! tn = Some new_trainer
    ∧ trainer_files w' !! trainer_file = Some trainer'
    ∧ mod_attrs trainer' !! tn = Some new_trainer
    ∧ trl_attrs w' !! cn = Some new_config
    ∧ trainer_attrs w' !! cn = Some new_config
    ∧ mod_attrs trainer' !! cn = Some new_config.

(** C1.  A call of [_patch_trl_rl_trainers] that runs to its end has
    resolved one trainer name and one config name in
    [trl.trainer.<trainer_file>], and leaves the two classes of the
    synthesized module ([Unsloth<trainer>] and [Unsloth<config>], which the
    text of the module defines) bound to those names in [trl], in
    [trl.trainer] and in [trl.trainer.<trainer_file>]. *)
Theorem C1_rebinds_three_namespaces (trainer_file : string) (w w' : world) :
  patch trainer_file w = Patched w' →
  patched_everywhere trainer_file w w'.
Proof.
  intros H.
  destruct (patch_patched _ _ _ H)
    as (trainer & tn & cn & RLTrainer & RLConfig & Hres & _ & _ & Hs).
  pose proof Hres as (Hfile & Hn & Hc & _ & _).
  pose proof (synthesize_cases trainer_file trainer tn cn RLTrainer RLConfig
                w Hfile) as Hcases.
  rewrite Hs in Hcases. destruct Hcases as (created & nt & nc & Hre).
  assert (Hne : tn ≠ cn).
  { apply (trainer_config_distinct trainer_file).
    - by apply (filter_singleton _ _ _ Hn).
    - by apply (filter_singleton _ _ _ Hc). }
  destruct (rebound_lookup _ _ _ _ _ _ _ _ _ Hfile Hne Hre)
    as (H1 & H2 & H3 & H4 & Hf).
  pose proof Hre as (_ & _ & _ & _ & [td ->] & [cd ->] & _).
  exists trainer, tn, cn, RLTrainer, RLConfig, created,
    (synthesized created tn td), (synthesized created cn cd),
    (mod_setattr cn (synthesized created cn cd)
       (mod_setattr tn (synthesized created tn td) trainer)).
  split_and!; try done.
  - rewrite Hf. apply lookup_insert_eq.
  - cbn. rewrite lookup_insert_ne by done. apply lookup_insert_eq.
  - cbn. apply lookup_insert_eq.
Qed.

(** ** Failed lookups and a second run *)

(** The reflective lookups of lines 127-144 fail or are ambiguous: the
    submodule does not resolve, the names ending in [Trainer] or in
    [Config] that match the prefix are not exactly one, or one of the two
    classes does not resolve. *)
Definition lookup_fails (trainer_file : string) (w : world) : Prop :=
  trainer_files w !! trainer_file = None
  ∨ ∃ trainer,
      trainer_files w !! trainer_file = Some trainer
      ∧ (length (List.filter (is_trainer_name trainer_file) (mod_dir trainer))
         ≠ 1
         ∨ length (List.filter (is_config_name trainer_file) (mod_dir trainer))
           ≠ 1
         ∨ (∃ tn, In tn (List.filter (is_trainer_name trainer_file)
                           (mod_dir trainer))
                  ∧ mod_attrs trainer !! tn = None)
         ∨ (∃ cn, In cn (List.filter (is_config_name trainer_file)
                           (mod_dir trainer))
                  ∧ mod_attrs trainer !! cn = None)).

(** C5.  When a reflective lookup fails or is ambiguous the call returns
    early: it does not raise, and [trl], [trl.trainer] and the submodule
    are as before. *)
Theorem C5_failed_lookup_returns (trainer_file : string) (w : world) :
  lookup_fails trainer_file w →
  patch trainer_file w = Skipped
  ∧ world_after w (patch trainer_file w) = w.
Proof.
  intros Hfail.
  assert (H : patch trainer_file w = Skipped); [|by rewrite H].
  unfold _patch_trl_rl_trainers.
  destruct Hfail as [->|(trainer & -> & Hfail)]; [done|].
  destruct (List.filter (is_trainer_name _) _) as [|tn [|]] eqn:Hn; try done.
  destruct (List.filter (is_config_name _) _) as [|cn [|]] eqn:Hc; try done.
  destruct Hfail as [Hl|[Hl|[(x & [<-|[]] & Hx)|(x & [<-|[]] & Hx)]]];
    try done.
  - by rewrite Hx.
  - rewrite Hx. by destruct (mod_attrs trainer !! tn).
Qed.

(** After a complete run the same lookups resolve the synthesized
    classes. *)
Lemma patched_resolves trainer_file w w' :
  patch trainer_file w = Patched w' →
  ∃ trainer' tn cn created td cd,
    resolves trainer_file w' trainer' tn cn
      (synthesized created tn td) (synthesized created cn cd).
Proof.
  intros H.
  destruct (patch_patched _ _ _ H)
    as (trainer & tn & cn & RLTrainer & RLConfig & Hres & _ & _ & Hs).
  pose proof Hres as (Hfile & Hn & Hc & _ & _).
  pose proof (synthesize_cases trainer_file trainer tn cn RLTrainer RLConfig
                w Hfile) as Hcases.
  rewrite Hs in Hcases. destruct Hcases as (created & nt & nc & Hre).
  destruct (filter_singleton _ _ _ Hn) as [Hpn Hin].
  destruct (filter_singleton _ _ _ Hc) as [Hpc Hic].
  assert (Hne : tn ≠ cn) by by apply (trainer_config_distinct trainer_file).
  destruct (rebound_lookup _ _ _ _ _ _ _ _ _ Hfile Hne Hre)
    as (_ & _ & _ & _ & Hf).
  pose proof Hre as (_ & _ & _ & _ & [td ->] & [cd ->] & _).
  exists (mod_setattr cn (synthesized created cn cd)
            (mod_setattr tn (synthesized created tn td) trainer)),
    tn, cn, created, td, cd.
  assert (Hdir : mod_dir (mod_setattr cn (synthesized created cn cd)
                   (mod_setattr tn (synthesized created tn td) trainer))
                 = mod_dir trainer).
  { cbn. by rewrite (add_name_present tn), (add_name_present cn). }
  unfold resolves. rewrite Hdir, Hf, lookup_insert_eq. cbn.
  rewrite lookup_insert_ne, !lookup_insert_eq by done. done.
Qed.

(** C8.  The classes the patch installs are named [Unsloth...]; a call
    that resolves a class so named returns without a change; so a second
    call after a complete one returns early, and whatever way the first
    call ended the second leaves every namespace as the first left it. *)
Theorem C8_patch_idempotent (trainer_file : string) (w w' : world) :
  patch trainer_file w = Patched w' →
  (∃ tn cn new_trainer new_config,
     trl_attrs w' !! tn = Some new_trainer
     ∧ trl_attrs w' !! cn = Some new_config
     ∧ startswith (obj_name new_trainer) "Unsloth" = true
     ∧ startswith (obj_name new_config) "Unsloth" = true)
  ∧ (∀ created name doc,
       startswith (obj_name (synthesized created name doc)) "Unsloth" = true)
  ∧ (∀ w0 trainer tn cn RLTrainer RLConfig,
       resolves trainer_file w0 trainer tn cn RLTrainer RLConfig →
       startswith (obj_name RLTrainer) "Unsloth" = true
       ∨ startswith (obj_name RLConfig) "Unsloth" = true →
       patch trainer_file w0 = Skipped)
  ∧ patch trainer_file w' = Skipped
  ∧ world_after w' (patch trainer_file w') = w'
  ∧ (∀ w0, world_after (world_after w0 (patch trainer_file w0))
             (patch trainer_file (world_after w0 (patch trainer_file w0)))
           = world_after w0 (patch trainer_file w0)).
Proof.
  intros H.
  assert (Hguard : ∀ w0 trainer tn cn RLTrainer RLConfig,
            resolves trainer_file w0 trainer tn cn RLTrainer RLConfig →
            startswith (obj_name RLTrainer) "Unsloth" = true
            ∨ startswith (obj_name RLConfig) "Unsloth" = true →
            patch trainer_file w0 = Skipped).
  { intros w0 trainer tn cn T Cf Hres Hname.
    rewrite (patch_resolved _ _ _ _ _ _ _ Hres).
    destruct Hname as [->| ->]; [done|]. by destruct (startswith _ _). }
  assert (Hsecond : ∀ w0 w1, patch trainer_file w0 = Patched w1 →
            patch trainer_file w1 = Skipped).
  { intros w0 w1 H01.
    destruct (patched_resolves _ _ _ H01)
      as (trainer' & tn & cn & created & td & cd & Hres).
    apply (Hguard _ _ _ _ _ _ Hres). left. apply synthesized_startswith. }
  split; [|split; [|split; [|split; [|split]]]].
  - destruct (patch_patched _ _ _ H)
      as (trainer & tn & cn & T & Cf & Hres & _ & _ & Hs).
    pose proof Hres as (Hfile & Hn & Hc & _ & _).
    pose proof (synthesize_cases trainer_file trainer tn cn T Cf w Hfile)
      as Hcases.
    rewrite Hs in Hcases. destruct Hcases as (created & nt & nc & Hre).
    assert (Hne : tn ≠ cn).
    { apply (trainer_config_distinct trainer_file).
      - by apply (filter_singleton _ _ _ Hn).
      - by apply (filter_singleton _ _ _ Hc). }
    destruct (rebound_lookup _ _ _ _ _ _ _ _ _ Hfile Hne Hre)
      as (H1 & H2 & _).
    destruct Hre as (_ & _ & _ & _ & [td ->] & [cd ->] & _).
    exists tn, cn, (synthesized created tn td), (synthesized created cn cd).
    split_and!; try done; apply synthesized_startswith.
  - intros. apply synthesized_startswith.
  - done.
  - by apply (Hsecond w).
  - by rewrite (Hsecond w w' H).
  - intros w0. destruct (patch trainer_file w0) as [w1| |w1] eqn:H0; cbn.
    + by rewrite (Hsecond w0 w1 H0).
    + by rewrite H0.
    + apply patch_raised in H0 as Heq. subst w1. by rewrite H0.
Qed.

End PatchProperties.

(** ** A sample library *)

Definition grpo_init_source : string :=
  unlines
    [ "    def __init__(self, model, args = None, peft_config = None) -> None:";
      "        if peft_config is not None:";
      "            model = get_peft_model(model, peft_config)";
      "        if self.use_vllm:";
      "            # the engine of vllm";
      "            self.llm = LLM(model = model.name_or_path)";
      "            self.sampling_params = SamplingParams(";
      "                temperature = args.temperature,";
      "            )";
      "        else:";
      "            self.generation_config = 1";
      "        super().__init__(model = model, args = args)" ].

Definition grpo_prepare_inputs_source : string :=
  unlines
    [ "    def _prepare_inputs(self, inputs):";
      "        if self.args.use_vllm:";
      "            state_dict = unwrapped_model.state_dict()";
      "            llm_model = self.llm.llm_engine.model_executor.driver_worker.model_runner.model";
      "            llm_model.load_weights(state_dict.items())";
      "            outputs = self.llm.generate(prompts, sampling_params = self.sampling_params)";
      "        return outputs" ].

Definition grpo_class_source : string :=
  unlines [ "class GRPOTrainer(Trainer):" ] +:+ grpo_init_source +:+ nl +:+
  grpo_prepare_inputs_source.

Definition GRPOTrainer : pyobj :=
  {| obj_name := "GRPOTrainer";
     obj_doc := "Trainer for GRPO.";
     obj_kind :=
       Library
         {| init_signature :=
              Some [("self", VEmpty); ("model", VEmpty); ("args", VNone);
                    ("peft_config", VNone); ("callbacks", VOther)];
            function_source :=
              {[ "__init__" := grpo_init_source;
                 "_prepare_inputs" := grpo_prepare_inputs_source ]};
            class_source := Some grpo_class_source;
            class_dir := ["__init__"; "_prepare_inputs"; "train"] |} |}.

Definition GRPOConfig : pyobj :=
  {| obj_name := "GRPOConfig";
     obj_doc := "Configuration for GRPO.";
     obj_kind :=
       Library
         {| init_signature :=
              Some [("self", VEmpty); ("output_dir", VEmpty);
                    ("overwrite_output_dir", VBool false);
                    ("learning_rate", VFloat "1e-06");
                    ("seed", VInt 42); ("data_seed", VNone);
                    ("optim", VStr "adamw_torch"); ("beta", VFloat "0.04")];
            function_source := ∅;
            class_source := None;
            class_dir := ["__init__"] |} |}.

Definition grpo_world : world :=
  let attrs : gmap string pyobj :=
    {[ "GRPOConfig" := GRPOConfig; "GRPOTrainer" := GRPOTrainer ]} in
  {| trl_attrs := attrs;
     trainer_dir := ["GRPOConfig"; "GRPOTrainer"; "grpo_trainer"];
     trainer_attrs := attrs;
     trainer_files :=
       {[ "grpo_trainer" :=
            {| mod_dir := ["GRPOConfig"; "GRPOTrainer"; "LLM"; "SamplingParams";
                          "Trainer"; "_helper"; "unwrap_model_for_generation"];
               mod_attrs := attrs |} ]} |}.

Definition grpo_patched : world :=
  world_after grpo_world
    (_patch_trl_rl_trainers (λ _, true) "grpo_trainer"
       grpo_world).

Lemma grpo_world_patched :
  _patch_trl_rl_trainers (λ _, true) "grpo_trainer" grpo_world
  = Patched grpo_patched.
Proof. vm_compute. reflexivity. Qed.

(** C1 at the sample library. *)
Lemma C1_rebinds_three_namespaces_witness :
  _patch_trl_rl_trainers (λ _, true) "grpo_trainer" grpo_world
  = Patched grpo_patched
  ∧ patched_everywhere (λ _, true) "grpo_trainer" grpo_world grpo_patched.
Proof.
  split; [vm_compute; reflexivity|].
  apply (C1_rebinds_three_namespaces (λ _, true)).
  vm_compute. reflexivity.
Defined.

(** C5 at a submodule that does not resolve. *)
Lemma C5_failed_lookup_returns_witness :
  lookup_fails "sft_trainer" grpo_world
  ∧ _patch_trl_rl_trainers (λ _, true) "sft_trainer" grpo_world
    = Skipped.
Proof.
  assert (H : lookup_fails "sft_trainer" grpo_world)
    by (left; vm_compute; reflexivity).
  split; [exact H|].
  exact (proj1 (C5_failed_lookup_returns (λ _, true)
                  "sft_trainer" grpo_world H)).
Defined.

(** C8 at the sample library: the second run returns early. *)
Lemma C8_patch_idempotent_witness :
  _patch_trl_rl_trainers (λ _, true) "grpo_trainer" grpo_world
  = Patched grpo_patched
  ∧ _patch_trl_rl_trainers (λ _, true) "grpo_trainer"
      grpo_patched
    = Skipped.
Proof.
  assert (H : _patch_trl_rl_trainers (λ _, true)
                "grpo_trainer" grpo_world = Patched grpo_patched)
    by (vm_compute; reflexivity).
  split; [exact H|].
  exact (proj1 (proj2 (proj2 (proj2
           (C8_patch_idempotent (λ _, true)
              "grpo_trainer" grpo_world grpo_patched H))))).
Defined.

(** ** The generation context manager *)

Section UnwrapProperties.

Variable value : Type.
Variable is_tensor : value → bool.
Variable clone : value → value.
Variable inference_effect training_effect
  : pyref → gmap pyref (generate_fn value) → gmap pyref (generate_fn value).
Variable trl_enter
  : pyref → gmap pyref (generate_fn value)
    → option (pyref * gmap pyref (generate_fn value)).
Variable trl_exit
  : pyref → gmap pyref (generate_fn value) → gmap pyref (generate_fn value).

Local Abbreviation run :=
  (unsloth_unwrap_model_for_generation value is_tensor clone
     inference_effect training_effect trl_enter trl_exit).

(** The state in which the body of the [with] statement starts: the
    model in inference mode, its [generate] wrapped. *)
Definition entered (unwrapped_model : pyref)
    (g : gmap pyref (generate_fn value)) (calls : list event)
    (original_generate : generate_fn value) : models value :=
  set_generate value unwrapped_model
    (generate_with_clone value is_tensor clone original_generate)
    (for_inference value inference_effect unwrapped_model
       {| generate := g; log := calls |}).

(** C9.  Once the body of the [with] statement is entered, however it
    ends, the [finally] block puts the [generate] saved before the
    wrapping back on the unwrapped model and then calls
    [FastLanguageModel.for_training(model)], the last call logged; the
    way the body ended is the way the statement ends. *)
Theorem C9_generate_restored (model unwrapped_model : pyref)
    (body : pyref → models value → models value * completion)
    (st : models value) (g : gmap pyref (generate_fn value))
    (original_generate : generate_fn value) :
  trl_enter model (generate value st) = Some (unwrapped_model, g) →
  inference_effect unwrapped_model g !! unwrapped_model
  = Some original_generate →
  ∃ st_body c restored,
    body unwrapped_model
      (entered unwrapped_model g (log value st) original_generate)
    = (st_body, c)
    ∧ restored = set_generate value unwrapped_model original_generate st_body
    ∧ generate value restored !! unwrapped_model = Some original_generate
    ∧ run model body st
      = (leave_trl value trl_exit model
           (for_training value training_effect model restored), c)
    ∧ log value (run model body st).1
      = log value st_body ++ [ForTraining model].
Proof.
  intros Henter Hgen.
  destruct (body unwrapped_model
              (entered unwrapped_model g (log value st) original_generate))
    as [st_body c] eqn:Hbody.
  exists st_body, c,
    (set_generate value unwrapped_model original_generate st_body).
  assert (Hrun : run model body st
            = (leave_trl value trl_exit model
                 (for_training value training_effect model
                    (set_generate value unwrapped_model original_generate
                       st_body)), c)).
  { unfold unsloth_unwrap_model_for_generation. rewrite Henter. cbn.
    rewrite Hgen. unfold entered in Hbody. cbn in Hbody. by rewrite Hbody. }
  split_and!; try done.
  - cbn. apply lookup_insert_eq.
  - by rewrite Hrun.
Qed.

End UnwrapProperties.

(** C9 at a body that raises: a model whose [generate] returns 7. *)
Lemma C9_generate_restored_witness :
  let st : models nat :=
    {| generate := {[ Ref 0 := λ _, 7 ]}; log := [] |} in
  let body : pyref → models nat → models nat * completion :=
    λ m s, (set_generate nat m (λ _, 0) s, Exception) in
  (λ (m : pyref) (g : gmap pyref (generate_fn nat)), Some (m, g))
    (Ref 0) (generate nat st) = Some (Ref 0, generate nat st)
  ∧ generate nat st !! Ref 0 = Some (λ _, 7)
  ∧ ∃ final,
      unsloth_unwrap_model_for_generation nat (λ _, true) id
        (λ _ g, g) (λ _ g, g) (λ m g, Some (m, g)) (λ _ g, g)
        (Ref 0) body st = (final, Exception)
      ∧ log nat final = [ForInference (Ref 0); ForTraining (Ref 0)].
Proof.
  intros st body.
  assert (H1 : (λ (m : pyref) (g : gmap pyref (generate_fn nat)), Some (m, g))
                 (Ref 0) (generate nat st) = Some (Ref 0, generate nat st))
    by reflexivity.
  assert (H2 : (λ (_ : pyref) (g : gmap pyref (generate_fn nat)), g) (Ref 0)
                 (generate nat st) !! Ref 0 = Some (λ _, 7))
    by (vm_compute; reflexivity).
  split; [exact H1|]. split; [exact H2|].
  destruct (C9_generate_restored nat (λ _, true) id (λ _ g, g) (λ _ g, g)
              (λ m g, Some (m, g)) (λ _ g, g) (Ref 0) (Ref 0) body st
              (generate nat st) (λ _, 7) H1 H2)
    as (st_body & c & restored & Hbody & -> & _ & Hrun & _).
  cbn in Hbody. injection Hbody as <- <-.
  eexists. split; [exact Hrun|]. reflexivity.
Defined.

(** ** The NEFTune hook *)

Section NeftuneProperties.

Variables tensor scalar rng input : Type.
Variable size : tensor → nat → Z.
Variable noise_magnitude : scalar → Z → scalar.
Variable uniform_like : tensor → scalar → rng → tensor * rng.
Variable add : tensor → tensor → tensor.

(** C10.  Outside training the hook gives back the output it was given,
    and draws no random number. *)
Theorem C10_hook_identity_in_eval (module : embedding scalar) (inp : input)
    (output : tensor) (g : rng) :
  training scalar module = false →
  neftune_post_forward_hook tensor scalar rng input size noise_magnitude
    uniform_like add module inp output g
  = (output, g).
Proof. intros H. unfold neftune_post_forward_hook. by rewrite H. Qed.

End NeftuneProperties.

(** C10 at an embedding in evaluation mode, tensors read as numbers. *)
Lemma C10_hook_identity_in_eval_witness :
  training Z {| training := false; neftune_noise_alpha := 5%Z |} = false
  ∧ neftune_post_forward_hook Z Z nat unit (λ _ _, 4%Z) Z.div
      (λ t m g, ((t + m)%Z, S g)) Z.add
      {| training := false; neftune_noise_alpha := 5%Z |} tt 10%Z 0
    = (10%Z, 0).
Proof.
  split; [reflexivity|].
  apply (C10_hook_identity_in_eval Z Z nat unit). reflexivity.
Defined.

(** ** Successive [str.replace] calls as one pass *)

(** A rule replaces a text by another.  [rewrite_all rules s] reads [s]
    from left to right; where a rule's text starts it writes the
    replacement and goes on after the text, elsewhere it keeps the
    character: every occurrence met is replaced by the text of its own
    rule and nothing else changes. *)
Definition rule : Type := string * string.

Fixpoint first_match (rules : list rule) (s : string) : option rule :=
  match rules with
  | [] => None
  | r :: rs => if String.prefix (fst r) s then Some r else first_match rs s
  end.

Fixpoint rewrite_go (rules : list rule) (skip : nat) (s : string) : string :=
  match s with
  | EmptyString => EmptyString
  | String c s' =>
      match skip with
      | S k => rewrite_go rules k s'
      | O =>
          match first_match rules s with
          | Some r => snd r +:+ rewrite_go rules (String.length (fst r) - 1) s'
          | None => String c (rewrite_go rules O s')
          end
      end
  end.

Definition rewrite_all (rules : list rule) (s : string) : string :=
  rewrite_go rules O s.





Section OnePass.

Implicit Types (s t u p q : string) (rules : list rule).



(** *** Unfolding the two scans *)

Lemma replace_go_nil p r k : replace_go p r None k EmptyString = EmptyString.
Proof. reflexivity. Qed.

Lemma replace_go_cons p r c s :
  replace_go p r None 0 (String c s)
  = if String.prefix p (String c s)
    then r +:+ replace_go p r None (String.length p - 1) s
    else String c (replace_go p r None 0 s).
Proof. reflexivity. Qed.

Lemma replace_go_skip p r q t :
  replace_go p r None (String.length q) (q +:+ t) = replace_go p r None 0 t.
Proof.
  induction q as [|c q IH]; [by destruct t|].
  rewrite str_app_cons. exact IH.
Qed.

Lemma replace_go_match p r t :
  p ≠ EmptyString →
  replace_go p r None 0 (p +:+ t) = r +:+ replace_go p r None 0 t.
Proof.
  destruct p as [|c p]; [done|]. intros _.
  rewrite str_app_cons, replace_go_cons.
  rewrite <- str_app_cons, prefix_app.
  cbn [String.length]. rewrite Nat.sub_1_r. cbn [pred].
  by rewrite replace_go_skip.
Qed.

Lemma replace_go_keep p r c s :
  String.prefix p (String c s) = false →
  replace_go p r None 0 (String c s) = String c (replace_go p r None 0 s).
Proof. intros H. by rewrite replace_go_cons, H. Qed.

Lemma replace_nonempty p r s :
  p ≠ EmptyString → replace p r s = replace_go p r None 0 s.
Proof. by destruct p. Qed.









(** *** Passing over a text no rule touches *)



(** *** A pass creates no start of a later rule's text *)


(** *** One more [replace] *)



End OnePass.

(** The five rules of lines 423-427. *)
Definition peft_rules : list rule :=
  [ ("elif peft_config is None:", "elif False:");
    ("elif peft_config is not None:", "elif False:");
    ("if peft_config is None:", "if False:");
    ("if peft_config is not None:", "if False:");
    ("get_peft_model(model, peft_config)", "model") ].


Example rewrite_all_ex :
  rewrite_all peft_rules
    "  if peft_config is None: a; elif peft_config is not None: get_peft_model(model, peft_config)"
  = "  if False: a; elif False: model".
Proof. reflexivity. Qed.

(** A replacement can build a text anew: the call is found again after
    [replace] where the text around an occurrence completes it. *)
Example replace_builds_occurrence :
  remove_peft_config
    "get_peft_get_peft_model(model, peft_config)(model, peft_config)"
  = "get_peft_model(model, peft_config)".
Proof. reflexivity. Qed.

(** ** [replace] with a count of one *)

Section ReplaceFirst.

Implicit Types (s a b old new : string).




End ReplaceFirst.

(** ** [patch_vllm] *)




(** What [patch_vllm] returns for the sample trainer. *)
Definition grpo_vllm_source : string :=
  unlines
    [ "class _UnslothGRPOTrainer(Trainer):";
      "    def __init__(self, model, args = None, peft_config = None):";
      "        if hasattr(model, 'vllm_engine') and getattr(args, 'use_vllm') and getattr(args, 'use_vllm', False): args.use_vllm = True";
      "        if False:";
      "            model = model";
      "        if self.use_vllm:";
      "            self.llm = model.vllm_engine; self._last_loaded_step = 0; self.sampling_params = SamplingParams(";
      "                temperature = args.temperature,";
      "            ) if getattr(args, 'sampling_params', None) is None else getattr(args, 'sampling_params', None)";
      "        else:";
      "            self.generation_config = 1";
      "        super().__init__(model = model, args = args)";
      EmptyString;
      "    def _prepare_inputs(self, inputs):";
      "        if self.args.use_vllm:";
      "            state_dict = unwrapped_model";
      EmptyString;
      "            pass";
      EmptyString;
      "            pass";
      "            outputs = self.llm.generate(prompts, sampling_params = self.sampling_params, lora_request = self.model.load_lora('grpo_trainer_lora_model', load_tensors = True))";
      "        return outputs" ].


(** ** The defaults of the config *)

Example default_pattern_ex :
  fst <$> match_here (default_pattern "seed") ("seed = 42," +:+ nl +:+ "rest")
  = Some "rest"
  ∧ fst <$> match_here (default_pattern "seed") ("seed," +:+ nl +:+ "rest")
    = Some "rest"
  ∧ match_here (default_pattern "seed") ("seed = 'a,b'," +:+ nl) = None
  ∧ match_here (default_pattern "seed") "seed = 42" = None.
Proof. repeat split; vm_compute; reflexivity. Qed.

(** The arguments of a config whose signature has [seed], [optim] and
    [output_dir], which the table names, and [data_seed],
    [overwrite_output_dir] and [beta], which it does not. *)
Definition seeded_signature : signature :=
  [ ("self", VEmpty);
    ("output_dir", VEmpty);
    ("overwrite_output_dir", VBool false);
    ("seed", VInt 42);
    ("data_seed", VNone);
    ("optim", VStr "adamw_torch");
    ("beta", VFloat "0.04") ].

(** C4 at that signature.  [seed], [optim] and [output_dir] get the
    values of the table, the string quoted, and [beta] keeps its default;
    but [data_seed] and [overwrite_output_dir], whose names end in a key
    of the table, get the values of [seed] and [output_dir]: the pattern
    of line 325 starts with the key and nothing holds its left end at the
    start of a name. *)
Theorem C4_defaults_of_longer_names_replaced :
  (process_signature seeded_signature).1
  = nl +:+ "        self," +:+ nl +:+
    "        output_dir," +:+ nl +:+
    "        overwrite_output_dir = False," +:+ nl +:+
    "        seed = 42," +:+ nl +:+
    "        data_seed = None," +:+ nl +:+
    "        optim = 'adamw_torch'," +:+ nl +:+
    "        beta = 0.04"
  ∧ replace_defaults replacements (process_signature seeded_signature).1
    = nl +:+ "        self," +:+ nl +:+
      "        output_dir = None," +:+ nl +:+
      "        overwrite_output_dir = None," +:+ nl +:+
      "        seed = 3407," +:+ nl +:+
      "        data_seed = 3407," +:+ nl +:+
      "        optim = 'adamw_8bit'," +:+ nl +:+
      "        beta = 0.04".
Proof. split; vm_compute; reflexivity. Qed.
(** ** [PatchRL]: the loop over the submodules, lines 60-70 *)

Lemma world_eq (w w' : world) :
  trl_attrs w = trl_attrs w' → trainer_dir w = trainer_dir w' →
  trainer_attrs w = trainer_attrs w' → trainer_files w = trainer_files w' →
  w = w'.
Proof. destruct w, w'. cbn. by intros -> -> -> ->. Qed.

Lemma pymodule_eq (m m' : pymodule) :
  mod_dir m = mod_dir m' → mod_attrs m = mod_attrs m' → m = m'.
Proof. destruct m, m'. cbn. by intros -> ->. Qed.

Lemma add_name_In x y names : In y (add_name x names) ↔ y = x ∨ In y names.
Proof.
  unfold add_name. destruct (existsb (String.eqb x) names) eqn:E.
  - apply existsb_exists in E as (z & Hz & ->%String.eqb_eq).
    split; [tauto|]. by intros [->|H].
  - rewrite in_app_iff. cbn. split; [intros [H|[<-|[]]]|intros [->|H]]; tauto.
Qed.

Lemma add_name_twice x names :
  add_name x (add_name x names) = add_name x names.
Proof. apply add_name_present, add_name_In. by left. Qed.

(** What lines 65-69 do to one submodule. *)
Definition with_unwrap (FastLanguageModel : pyref) (m : pymodule) : pymodule :=
  match mod_attrs m !! unwrap with
  | Some _ => mod_setattr unwrap (unsloth_unwrap FastLanguageModel) m
  | None => m
  end.

Lemma with_unwrap_twice f g m : with_unwrap g (with_unwrap f m) = with_unwrap g m.
Proof.
  unfold with_unwrap. destruct (mod_attrs m !! unwrap) eqn:E.
  - cbn. rewrite lookup_insert_eq. apply pymodule_eq; cbn.
    + apply add_name_twice.
    + apply insert_insert_eq.
  - by rewrite E.
Qed.

Definition PatchRL_step (f : pyref) (w : world) (trainer : string) : world :=
  match trainer_files w !! trainer with
  | None => w
  | Some current_trainer =>
      match mod_attrs current_trainer !! unwrap with
      | None => w
      | Some _ =>
          match set_file trainer unwrap (unsloth_unwrap f) w with
          | Some w' => w'
          | None => w
          end
      end
  end.

Lemma PatchRL_step_spec f w trainer :
  trl_attrs (PatchRL_step f w trainer) = trl_attrs w
  ∧ trainer_dir (PatchRL_step f w trainer) = trainer_dir w
  ∧ trainer_attrs (PatchRL_step f w trainer) = trainer_attrs w
  ∧ ∀ file, trainer_files (PatchRL_step f w trainer) !! file
            = (if String.eqb file trainer then with_unwrap f else id)
              <$> trainer_files w !! file.
Proof.
  unfold PatchRL_step, set_file.
  destruct (trainer_files w !! trainer) as [m|] eqn:Hm.
  - destruct (mod_attrs m !! unwrap) eqn:Hu; cbn.
    + split_and!; try done. intros file.
      destruct (String.eqb_spec file trainer) as [->|Hne].
      * rewrite lookup_insert_eq, Hm. cbn. unfold with_unwrap. by rewrite Hu.
      * rewrite lookup_insert_ne by done.
        by destruct (trainer_files w !! file).
    + split_and!; try done. intros file.
      destruct (String.eqb_spec file trainer) as [->|Hne].
      * rewrite Hm. cbn. unfold with_unwrap. by rewrite Hu.
      * by destruct (trainer_files w !! file).
  - split_and!; try done. intros file.
    destruct (String.eqb_spec file trainer) as [->|Hne].
    + by rewrite Hm.
    + by destruct (trainer_files w !! file).
Qed.

Lemma PatchRL_fold f trainers w :
  let w' := fold_left (PatchRL_step f) trainers w in
  trl_attrs w' = trl_attrs w
  ∧ trainer_dir w' = trainer_dir w
  ∧ trainer_attrs w' = trainer_attrs w
  ∧ ∀ file, trainer_files w' !! file
            = (if existsb (String.eqb file) trainers then with_unwrap f else id)
              <$> trainer_files w !! file.
Proof.
  revert w. induction trainers as [|t l IH]; intros w; cbn.
  - split_and!; try done. intros file. by destruct (trainer_files w !! file).
  - destruct (IH (PatchRL_step f w t)) as (H1 & H2 & H3 & H4).
    destruct (PatchRL_step_spec f w t) as (S1 & S2 & S3 & S4).
    cbn in H1, H2, H3, H4.
    rewrite H1, H2, H3, S1, S2, S3. split_and!; try done.
    intros file. rewrite H4, S4.
    destruct (trainer_files w !! file) as [m|]; [|done]. cbn. f_equal.
    destruct (String.eqb file t), (existsb (String.eqb file) l); cbn;
      try done.
    apply with_unwrap_twice.
Qed.

(** The submodules [PatchRL] looks at. *)
Definition listed_trainer (w : world) (file : string) : bool :=
  existsb (String.eqb file)
    (List.filter (λ x, endswith x "_trainer") (trainer_dir w)).

Lemma listed_trainer_spec w file :
  listed_trainer w file = true
  ↔ In file (trainer_dir w) ∧ endswith file "_trainer" = true.
Proof.
  unfold listed_trainer. rewrite existsb_exists. split.
  - intros (x & [Hx He]%filter_In & ->%String.eqb_eq). done.
  - intros [Hin He]. exists file. rewrite filter_In, String.eqb_refl. done.
Qed.

Lemma PatchRL_spec f w :
  trl_attrs (PatchRL f w) = trl_attrs w
  ∧ trainer_dir (PatchRL f w) = trainer_dir w
  ∧ trainer_attrs (PatchRL f w) = trainer_attrs w
  ∧ ∀ file, trainer_files (PatchRL f w) !! file
            = (if listed_trainer w file then with_unwrap f else id)
              <$> trainer_files w !! file.
Proof. apply (PatchRL_fold f). Qed.

(** X1.  [PatchRL] binds [unwrap_model_for_generation] to the context
    manager of Unsloth in every submodule of [trl.trainer] that [dir]
    lists under a name ending in [_trainer] and that has the attribute.
    It does nothing else: [trl] and [trl.trainer] keep their attributes,
    a submodule that is not listed so or has no such attribute is as
    before, no submodule appears or disappears, and in a submodule it
    touches every other attribute is as before. *)
Theorem PatchRL_effect (FastLanguageModel : pyref) (w : world) :
  let w' := PatchRL FastLanguageModel w in
  trl_attrs w' = trl_attrs w
  ∧ trainer_dir w' = trainer_dir w
  ∧ trainer_attrs w' = trainer_attrs w
  ∧ (∀ file, trainer_files w !! file = None →
       trainer_files w' !! file = None)
  ∧ (∀ file m, trainer_files w !! file = Some m →
       (In file (trainer_dir w) ∧ endswith file "_trainer" = true
        ∧ is_Some (mod_attrs m !! unwrap) →
        ∃ m', trainer_files w' !! file = Some m'
              ∧ mod_attrs m' !! unwrap
                = Some (unsloth_unwrap FastLanguageModel)
              ∧ (∀ x, x ≠ unwrap → mod_attrs m' !! x = mod_attrs m !! x)
              ∧ (∀ x, In x (mod_dir m') ↔ x = unwrap ∨ In x (mod_dir m)))
       ∧ (¬ (In file (trainer_dir w) ∧ endswith file "_trainer" = true
             ∧ is_Some (mod_attrs m !! unwrap)) →
          trainer_files w' !! file = Some m)).
Proof.
  destruct (PatchRL_spec FastLanguageModel w) as (H1 & H2 & H3 & H4).
  cbn. split_and!; try done.
  - intros file Hf. by rewrite H4, Hf.
  - intros file m Hf. rewrite H4, Hf. cbn. split.
    + intros (Hin & He & [o Ho]).
      assert (listed_trainer w file = true) as ->
        by by apply listed_trainer_spec.
      eexists. split; [done|]. unfold with_unwrap. rewrite Ho. cbn.
      split_and!.
      * apply lookup_insert_eq.
      * intros x Hx. by rewrite lookup_insert_ne.
      * intros x. apply add_name_In.
    + intros Hnot. destruct (listed_trainer w file) eqn:Hl; [|done].
      apply listed_trainer_spec in Hl as [Hin He]. unfold with_unwrap.
      destruct (mod_attrs m !! unwrap) eqn:Hu; [|done].
      destruct Hnot. by split_and!.
Qed.

(** X2.  A second [PatchRL] overrides the first and nothing more: the
    namespaces after [PatchRL g] on top of [PatchRL f] are those after
    [PatchRL g] alone; with the same argument a second call changes
    nothing, the context manager being told apart by the
    [FastLanguageModel] it closes over. *)
Theorem PatchRL_again (f g : pyref) (w : world) :
  PatchRL g (PatchRL f w) = PatchRL g w
  ∧ PatchRL f (PatchRL f w) = PatchRL f w.
Proof.
  assert (H : ∀ f g, PatchRL g (PatchRL f w) = PatchRL g w); [|by split].
  clear f g. intros f g.
  destruct (PatchRL_spec f w) as (F1 & F2 & F3 & F4).
  destruct (PatchRL_spec g (PatchRL f w)) as (G1 & G2 & G3 & G4).
  destruct (PatchRL_spec g w) as (K1 & K2 & K3 & K4).
  apply world_eq; try congruence.
  apply map_eq. intros file. rewrite G4, K4, F4.
  assert (listed_trainer (PatchRL f w) file = listed_trainer w file) as ->
    by (unfold listed_trainer; by rewrite F2).
  destruct (trainer_files w !! file) as [m|]; [|done]. cbn. f_equal.
  destruct (listed_trainer w file); [|done]. apply with_unwrap_twice.
Qed.
(** ** [patch_trl_rl_trainers]: what a run leaves alone, and a second run *)

Lemma any_char_app p s t : any_char p (s +:+ t) = any_char p s || any_char p t.
Proof.
  induction s as [|c s IH]; [done|].
  rewrite str_app_cons, !any_char_cons, IH. by rewrite orb_assoc.
Qed.

Lemma any_char_endswith p x suf :
  endswith x suf = true → any_char p suf = true → any_char p x = true.
Proof.
  intros [a ->]%endswith_spec H. rewrite any_char_app, H. apply orb_true_r.
Qed.


(** The names of classes the patch binds: they end in [Trainer] or in
    [Config]. *)
Definition class_name (x : string) : bool :=
  endswith x "Trainer" || endswith x "Config".

Lemma class_name_not_lower x : class_name x = true → islower x = false.
Proof.
  unfold class_name, islower. intros [H|H]%orb_true_iff.
  - by rewrite (any_char_endswith is_upper x "Trainer" H).
  - by rewrite (any_char_endswith is_upper x "Config" H).
Qed.


Lemma filter_add_name (p : string → bool) x names :
  p x = false → List.filter p (add_name x names) = List.filter p names.
Proof.
  intros Hx. unfold add_name. destruct (existsb _ _); [done|].
  rewrite List.filter_app. cbn. rewrite Hx. apply app_nil_r.
Qed.

(** Two states of the namespaces that differ at class names only: the
    same submodules, each listing the same names, and every attribute
    that is not a class name as before. *)
Definition same_off_classes (w w' : world) : Prop :=
  (∀ p, (∀ x, class_name x = true → p x = false) →
        List.filter p (trainer_dir w') = List.filter p (trainer_dir w))
  ∧ (∀ file,
       match trainer_files w !! file, trainer_files w' !! file with
       | Some m, Some m' =>
           mod_dir m' = mod_dir m
           ∧ ∀ x, class_name x = false → mod_attrs m' !! x = mod_attrs m !! x
       | None, None => True
       | _, _ => False
       end)
  ∧ ∀ x, class_name x = false →
      trl_attrs w' !! x = trl_attrs w !! x
      ∧ trainer_attrs w' !! x = trainer_attrs w !! x.

Lemma same_off_classes_refl w : same_off_classes w w.
Proof.
  split_and!; try done. intros file. by destruct (trainer_files w !! file).
Qed.

Lemma same_off_classes_trans w1 w2 w3 :
  same_off_classes w1 w2 → same_off_classes w2 w3 → same_off_classes w1 w3.
Proof.
  intros (D1 & F1 & A1) (D2 & F2 & A2). split_and!.
  - intros p Hp. by rewrite D2, D1.
  - intros file. specialize (F1 file). specialize (F2 file).
    destruct (trainer_files w1 !! file), (trainer_files w2 !! file),
      (trainer_files w3 !! file); try done.
    destruct F1 as [E1 G1], F2 as [E2 G2]. split; [congruence|].
    intros x Hx. by rewrite G2, G1.
  - intros x Hx. destruct (A1 x Hx) as [E1 E2], (A2 x Hx) as [E3 E4].
    split; congruence.
Qed.

Lemma rebind_same_off trainer_file x v w w' :
  rebind trainer_file x v w = Some w' →
  class_name x = true →
  (∀ m, trainer_files w !! trainer_file = Some m → In x (mod_dir m)) →
  same_off_classes w w'.
Proof.
  intros (m & Hm & Ha & Hb & Hd & Hf)%rebind_spec Hx Hin. split_and!.
  - intros p Hp. rewrite Hd. apply filter_add_name. by apply Hp.
  - intros file. rewrite Hf.
    destruct (decide (file = trainer_file)) as [->|Hne].
    + rewrite Hm, lookup_insert_eq. cbn. split.
      * apply add_name_present. by apply Hin.
      * intros y Hy. apply lookup_insert_ne. congruence.
    + rewrite lookup_insert_ne by done.
      by destruct (trainer_files w !! file).
  - intros y Hy. rewrite Ha, Hb.
    rewrite !lookup_insert_ne by congruence. done.
Qed.

Lemma is_trainer_class_name trainer_file x :
  is_trainer_name trainer_file x = true → class_name x = true.
Proof.
  unfold is_trainer_name, class_name.
  intros [[-> _]%andb_true_iff _]%andb_true_iff. done.
Qed.

Lemma is_config_class_name trainer_file x :
  is_config_name trainer_file x = true → class_name x = true.
Proof.
  unfold is_config_name, class_name.
  intros [[-> _]%andb_true_iff _]%andb_true_iff. apply orb_true_r.
Qed.

(** The world a run of the loop leaves. *)
Definition world_of (r : result) : world :=
  match r with
  | Returned w => w
  | Failed w => w
  end.

Section PatchAll.

Variable loads : created_module → bool.

Local Abbreviation patch :=
  (_patch_trl_rl_trainers loads).
Local Abbreviation patch_all :=
  (patch_trl_rl_trainers loads).

(** A complete call writes one submodule and two class names. *)
Lemma patch_patched_files trainer_file w w' :
  patch trainer_file w = Patched w' →
  same_off_classes w w'
  ∧ ∀ file, file ≠ trainer_file →
      trainer_files w' !! file = trainer_files w !! file.
Proof.
  intros H.
  destruct (patch_patched _ _ _ _ H)
    as (trainer & tn & cn & T & Cf & Hres & _ & _ & Hs).
  pose proof Hres as (Hfile & Hn & Hc & _ & _).
  pose proof (synthesize_cases loads trainer_file trainer tn cn T Cf w Hfile)
    as Hcases.
  rewrite Hs in Hcases. destruct Hcases as (created & nt & nc & Hre).
  destruct (filter_singleton _ _ _ Hn) as [Hpn Hin].
  destruct (filter_singleton _ _ _ Hc) as [Hpc Hic].
  assert (Hne : tn ≠ cn) by by apply (trainer_config_distinct trainer_file).
  destruct (rebound_lookup _ _ _ _ _ _ _ _ _ _ Hfile Hne Hre)
    as (_ & _ & _ & _ & Hf).
  split.
  - destruct Hre as (_ & _ & _ & _ & _ & _ & w1 & H1 & H2).
    apply (same_off_classes_trans w w1 w').
    + apply (rebind_same_off _ _ _ _ _ H1).
      * by apply (is_trainer_class_name trainer_file).
      * intros m Hm. rewrite Hfile in Hm. by injection Hm as <-.
    + apply (rebind_same_off _ _ _ _ _ H2).
      * by apply (is_config_class_name trainer_file).
      * intros m Hm.
        apply rebind_spec in H1 as (m1 & Hm1 & _ & _ & _ & Hf1).
        rewrite Hfile in Hm1. injection Hm1 as <-.
        rewrite Hf1, lookup_insert_eq in Hm. injection Hm as <-.
        cbn. apply add_name_In. by right.
  - intros file Hfile'. rewrite Hf. by apply lookup_insert_ne.
Qed.

(** Whether a call returns early is decided by the submodule alone. *)
Lemma patch_skipped_file trainer_file w1 w2 :
  trainer_files w2 !! trainer_file = trainer_files w1 !! trainer_file →
  patch trainer_file w1 = Skipped → patch trainer_file w2 = Skipped.
Proof.
  intros Heq. unfold _patch_trl_rl_trainers. rewrite Heq.
  destruct (trainer_files w1 !! trainer_file) as [trainer|] eqn:Hfile; [|done].
  destruct (List.filter (is_trainer_name _) _) as [|tn [|]]; try done.
  destruct (List.filter (is_config_name _) _) as [|cn [|]]; try done.
  destruct (mod_attrs trainer !! tn) as [T|]; [|done].
  destruct (mod_attrs trainer !! cn) as [Cf|]; [|done].
  destruct (startswith (obj_name T) "Unsloth"); [done|].
  destruct (startswith (obj_name Cf) "Unsloth"); [done|].
  intros H.
  pose proof (synthesize_cases loads trainer_file trainer tn cn T Cf w1 Hfile)
    as Hs.
  by rewrite H in Hs.
Qed.

(** A call after a complete one finds the classes named Unsloth. *)
Lemma patch_again_skipped trainer_file w w' :
  patch trainer_file w = Patched w' → patch trainer_file w' = Skipped.
Proof.
  intros H.
  destruct (patched_resolves _ _ _ _ H)
    as (trainer' & tn & cn & created & td & cd & Hres).
  rewrite (patch_resolved _ _ _ _ _ _ _ _ Hres).
  by rewrite synthesized_startswith.
Qed.

Lemma patch_each_frame trainers w :
  same_off_classes w (world_of (patch_each loads trainers w)).
Proof.
  revert w. induction trainers as [|t l IH]; intros w; cbn.
  - apply same_off_classes_refl.
  - destruct (patch t w) as [w1| |w1] eqn:H.
    + apply (same_off_classes_trans w w1); [|apply IH].
      by apply (patch_patched_files t).
    + apply IH.
    + apply patch_raised in H as ->. apply same_off_classes_refl.
Qed.

Lemma patch_each_settles trainers : ∀ w w' (settled : list string),
  (∀ t, In t settled → patch t w = Skipped) →
  patch_each loads trainers w = Returned w' →
  ∀ t, In t (settled ++ trainers) → patch t w' = Skipped.
Proof.
  induction trainers as [|t l IH]; intros w w' settled Hs; cbn.
  - intros [= <-] t. rewrite app_nil_r. apply Hs.
  - destruct (patch t w) as [w1| |w1] eqn:H; [| |done].
    + intros Hrun x Hx.
      apply (IH w1 w' (settled ++ [t])); [|done|].
      * intros y [Hy|[<-|[]]]%in_app_iff.
        -- destruct (patch_patched_files _ _ _ H) as [_ Hother].
           apply (patch_skipped_file y w); [|by apply Hs].
           apply Hother. intros ->. rewrite (Hs t Hy) in H. done.
        -- by apply (patch_again_skipped t w).
      * by rewrite <- app_assoc.
    + intros Hrun x Hx.
      apply (IH w w' (settled ++ [t])); [|done|].
      * intros y [Hy|[<-|[]]]%in_app_iff; [by apply Hs|done].
      * by rewrite <- app_assoc.
Qed.

Lemma patch_each_skipped trainers w :
  (∀ t, In t trainers → patch t w = Skipped) →
  patch_each loads trainers w = Returned w.
Proof.
  induction trainers as [|t l IH]; intros H; cbn; [done|].
  rewrite (H t) by by left. apply IH. intros x Hx. apply H. by right.
Qed.

Lemma all_trainers_same w w' :
  same_off_classes w w' →
  List.filter (λ x, islower x && endswith x "_trainer") (trainer_dir w')
  = List.filter (λ x, islower x && endswith x "_trainer") (trainer_dir w).
Proof.
  intros (D & _). apply D. intros x Hx.
  by rewrite (class_name_not_lower x Hx).
Qed.


(** X3.  Whatever way [patch_trl_rl_trainers] ends, it has changed class
    names only: in [trl], in [trl.trainer] and in every submodule an
    attribute whose name ends neither in [Trainer] nor in [Config] is as
    before; no submodule appears or disappears and each lists the names
    it listed; such a name is in [dir(trl.trainer)] after the run exactly
    if it was before. *)
Theorem patch_trl_rl_trainers_frame (w : world) :
  let w' := world_of (patch_all w) in
  (∀ x, endswith x "Trainer" = false → endswith x "Config" = false →
     trl_attrs w' !! x = trl_attrs w !! x
     ∧ trainer_attrs w' !! x = trainer_attrs w !! x
     ∧ (In x (trainer_dir w') ↔ In x (trainer_dir w)))
  ∧ (∀ file, trainer_files w' !! file = None
             ↔ trainer_files w !! file = None)
  ∧ (∀ file m m', trainer_files w !! file = Some m →
       trainer_files w' !! file = Some m' →
       mod_dir m' = mod_dir m
       ∧ ∀ x, endswith x "Trainer" = false → endswith x "Config" = false →
           mod_attrs m' !! x = mod_attrs m !! x).
Proof.
  cbn. unfold patch_trl_rl_trainers.
  destruct (patch_each_frame
              (List.filter (λ x, islower x && endswith x "_trainer")
                 (trainer_dir w)) w) as (D & F & A).
  set (w' := world_of _) in *.
  assert (Hcn : ∀ x, endswith x "Trainer" = false →
                     endswith x "Config" = false → class_name x = false).
  { intros x H1 H2. unfold class_name. by rewrite H1, H2. }
  split_and!.
  - intros x H1 H2. destruct (A x (Hcn x H1 H2)) as [-> ->].
    split_and!; try done.
    pose proof (D (λ y, String.eqb y x)) as Hd.
    assert (Hp : ∀ y, class_name y = true → String.eqb y x = false).
    { intros y Hy. apply String.eqb_neq. intros ->.
      rewrite (Hcn x H1 H2) in Hy. done. }
    specialize (Hd Hp).
    assert (Hin : ∀ l, In x l ↔ In x (List.filter (λ y, String.eqb y x) l)).
    { intros l. rewrite filter_In, String.eqb_refl. tauto. }
    by rewrite (Hin (trainer_dir w')), (Hin (trainer_dir w)), Hd.
  - intros file. specialize (F file).
    destruct (trainer_files w !! file), (trainer_files w' !! file); done.
  - intros file m m' Hm Hm'. specialize (F file). rewrite Hm, Hm' in F.
    destruct F as [Hd Ha]. split; [done|].
    intros x H1 H2. by apply Ha, Hcn.
Qed.

(** X4.  A run of [patch_trl_rl_trainers] that returns has settled every
    trainer: a second run returns too and changes nothing. *)
Theorem patch_trl_rl_trainers_idempotent (w w' : world) :
  patch_all w = Returned w' → patch_all w' = Returned w'.
Proof.
  unfold patch_trl_rl_trainers. intros H.
  set (all_trainers :=
         List.filter (λ x, islower x && endswith x "_trainer") (trainer_dir w))
    in *.
  pose proof (patch_each_frame all_trainers w) as Hframe.
  rewrite H in Hframe. cbn [world_of] in Hframe.
  rewrite (all_trainers_same w w' Hframe). fold all_trainers.
  apply patch_each_skipped. intros t Ht.
  assert (Hnone : ∀ t, In t [] → patch t w = Skipped) by (by intros ? []).
  exact (patch_each_settles all_trainers w w' [] Hnone H t Ht).
Qed.


End PatchAll.
(** ** The texts put in the template *)

Lemma process_signature_kept parameters :
  process_signature parameters
  = (nl +:+ spaces 8 +:+
     join ("," +:+ nl +:+ spaces 8)
       ("self" :: map argument_text (List.filter kept parameters)),
     nl +:+ spaces 12 +:+
     join ("," +:+ nl +:+ spaces 12)
       (map forward_text (List.filter kept parameters))).
Proof.
  unfold process_signature, collect_parameters.
  by rewrite fold_add_parameter.
Qed.

Lemma kept_spec k v : kept (k, v) = true ↔ k ≠ "self" ∧ v ≠ VOther.
Proof.
  unfold kept. cbn. rewrite andb_true_iff, negb_true_iff, String.eqb_neq.
  destruct v; split; intros [? ?]; done.
Qed.

(** *** The [kwargs] fields, lines 385 and 392 *)

Lemma endswith_last_char s c :
  endswith s (String c EmptyString) = true → last_char s = Some c.
Proof. intros [a ->]%endswith_spec. by rewrite last_char_app. Qed.

(** A text that is not empty and does not end in a comma. *)
Definition no_comma_end (s : string) : Prop :=
  s ≠ EmptyString ∧ last_char s ≠ Some ","%char.

Lemma no_comma_end_app s t : no_comma_end t → no_comma_end (s +:+ t).
Proof.
  intros [Ht Hl]. split.
  - destruct s; [done|]. by rewrite str_app_cons.
  - by rewrite last_char_app.
Qed.

Lemma no_comma_end_join sep l :
  l ≠ [] → Forall no_comma_end l → no_comma_end (join sep l).
Proof.
  induction l as [|x [|y l] IH]; [done| |]; intros _ Hall.
  - by apply Forall_inv in Hall.
  - rewrite join_cons. apply no_comma_end_app, no_comma_end_app, IH; [done|].
    by apply Forall_inv_tail in Hall.
Qed.

Lemma no_comma_end_forward p :
  endswith p.1 "," = false → no_comma_end (forward_text p).
Proof.
  intros H. unfold forward_text. apply no_comma_end_app.
  destruct (p.1) as [|c k] eqn:E.
  - split; done.
  - apply no_comma_end_app. split; [done|]. intros Hl.
    assert (Hend : endswith (String c k) "," = true); [|congruence].
    clear -Hl. apply endswith_spec.
    induction k as [|d k IH] in c, Hl |- *.
    + injection Hl as ->. by exists EmptyString.
    + destruct (IH d Hl) as [a Ha]. exists (String c a).
      by rewrite str_app_cons, <- Ha.
Qed.

Lemma call_args_no_comma_end parameters :
  (∀ k v, In (k, v) parameters → endswith k "," = false) →
  no_comma_end (process_signature parameters).2.
Proof.
  intros Hnames. rewrite process_signature_kept. cbn [snd].
  apply no_comma_end_app.
  destruct (List.filter kept parameters) as [|p l] eqn:E.
  - split; done.
  - apply no_comma_end_app, no_comma_end_join; [done|].
    apply List.Forall_forall. intros t Ht.
    apply in_map_iff in Ht as ([k v] & <- & Hin).
    apply no_comma_end_forward. cbn. apply (Hnames k v).
    assert (Hin' : In (k, v) (List.filter kept parameters))
      by by rewrite E.
    by apply filter_In in Hin' as [? _].
Qed.

Lemma replace_go_nonempty p r c s :
  r ≠ EmptyString → replace_go p r None 0 (String c s) ≠ EmptyString.
Proof.
  intros Hr. rewrite replace_go_cons.
  destruct (String.prefix p (String c s)); [|done].
  destruct r; [done|]. by rewrite str_app_cons.
Qed.

(** A replacement that ends as the text it replaces keeps the end of the
    whole. *)
Lemma last_char_replace p r s :
  p ≠ EmptyString → r ≠ EmptyString → last_char p = last_char r →
  last_char (replace p r s) = last_char s.
Proof.
  intros Hp Hr Hlast. rewrite replace_nonempty by done.
  induction s as [s IH] using (induction_ltof1 _ String.length).
  unfold ltof in IH.
  destruct s as [|c s]; [done|].
  destruct (String.prefix p (String c s)) eqn:Hpre.
  - apply prefix_split in Hpre as [t Ht]. rewrite Ht.
    rewrite replace_go_match by done.
    destruct t as [|d t].
    + rewrite replace_go_nil, !str_app_nil_r. done.
    + rewrite !last_char_app; [|done|by apply replace_go_nonempty].
      apply IH. rewrite Ht, str_length_app.
      destruct p; [done|]. cbn. lia.
  - rewrite replace_go_keep by done.
    destruct s as [|d s]; [done|].
    change (String c (String d s)) with (String c EmptyString +:+ String d s).
    change (String c (replace_go p r None 0 (String d s)))
      with (String c EmptyString +:+ replace_go p r None 0 (String d s)).
    rewrite !last_char_app; [|done|by apply replace_go_nonempty].
    apply IH. cbn. lia.
Qed.

Lemma replace_nonempty_result p r s :
  p ≠ EmptyString → r ≠ EmptyString → s ≠ EmptyString →
  replace p r s ≠ EmptyString.
Proof.
  intros Hp Hr Hs. rewrite replace_nonempty by done.
  destruct s; [done|]. by apply replace_go_nonempty.
Qed.

(** X6.  The slice of lines 385 and 392 never cuts: for signatures whose
    parameter names do not end in a comma, both [kwargs] fields of the
    template are [,**kwargs] with its comma.  When no parameter is
    forwarded the call the template writes is therefore
    [super().__init__(] followed by a line that starts with the comma. *)
Theorem kwargs_text_keeps_comma (trainer_parameters parameters : signature) :
  (∀ k v, In (k, v) trainer_parameters → endswith k "," = false) →
  (∀ k v, In (k, v) parameters → endswith k "," = false) →
  kwargs_text (add_tokenizer parameters
                 (process_signature trainer_parameters)).2 = ",**kwargs"
  ∧ kwargs_text (process_signature parameters).2 = ",**kwargs"
  ∧ ((∀ k v, In (k, v) parameters → k = "self" ∨ v = VOther) →
     (process_signature parameters).2
       +:+ kwargs_text (process_signature parameters).2
     = nl +:+ spaces 12 +:+ ",**kwargs").
Proof.
  intros Ht Hc.
  assert (Hk : ∀ s, no_comma_end s → kwargs_text s = ",**kwargs").
  { intros s [_ Hl]. unfold kwargs_text.
    destruct (endswith s ",") eqn:E; [|done].
    by apply endswith_last_char in E. }
  split_and!.
  - apply Hk. pose proof (call_args_no_comma_end _ Ht) as [Hne Hl].
    unfold add_tokenizer.
    destruct (process_signature trainer_parameters) as [a c].
    cbn [snd] in *.
    destruct (_ && _); cbn [snd]; [|done]. split.
    + by apply replace_nonempty_result.
    + by rewrite last_char_replace.
  - by apply Hk, call_args_no_comma_end.
  - intros Hnone. rewrite (Hk _ (call_args_no_comma_end _ Hc)).
    rewrite process_signature_kept. cbn [snd].
    assert (List.filter kept parameters = []) as ->; [|done].
    induction parameters as [|[k v] ps IH]; [done|]. cbn [List.filter].
    destruct (kept (k, v)) eqn:E.
    + apply kept_spec in E as [E1 E2].
      destruct (Hnone k v); [by left|done..].
    + apply IH.
      * intros k' v' Hin. apply (Hc k' v'). by right.
      * intros k' v' Hin. apply Hnone. by right.
Qed.

(** *** The tests [x in call_args], lines 191-352 *)

Lemma prefix_split_char x a c b :
  any_char (Ascii.eqb c) x = false →
  String.prefix x (a +:+ String c b) = String.prefix x a.
Proof.
  revert a. induction x as [|d x IH]; intros a Hx.
  - by rewrite !prefix_nil_l.
  - rewrite any_char_cons in Hx. apply orb_false_iff in Hx as [Hd Hx].
    destruct a as [|e a].
    + rewrite str_app_nil_l, prefix_cons, Ascii.eqb_sym, Hd. done.
    + rewrite str_app_cons, !prefix_cons, IH by done. done.
Qed.

Lemma contains_empty x : x ≠ EmptyString → contains x EmptyString = false.
Proof. by destruct x. Qed.

Lemma contains_split_char x a c b :
  x ≠ EmptyString → any_char (Ascii.eqb c) x = false →
  contains x (a +:+ String c b) = contains x a || contains x b.
Proof.
  intros Hne Hx. induction a as [|e a IH].
  - rewrite str_app_nil_l, contains_cons_eq, contains_empty by done.
    rewrite <- (str_app_nil_l (String c b)), prefix_split_char by done.
    by destruct x.
  - rewrite str_app_cons, !contains_cons_eq, IH.
    rewrite <- str_app_cons, prefix_split_char by done.
    by rewrite orb_assoc.
Qed.

(** No character of [sep] occurs in [x]. *)
Definition apart (sep x : string) : bool :=
  negb (any_char (λ c, any_char (Ascii.eqb c) x) sep).

Lemma contains_split_sep x sep a b :
  x ≠ EmptyString → sep ≠ EmptyString → apart sep x = true →
  contains x (a +:+ sep +:+ b) = contains x a || contains x b.
Proof.
  intros Hne Hsep Hap. unfold apart in Hap. apply negb_true_iff in Hap.
  revert a. induction sep as [|c sep IH]; [done|]. intros a.
  rewrite any_char_cons in Hap. apply orb_false_iff in Hap as [Hc Hrest].
  rewrite str_app_cons, contains_split_char by done.
  destruct sep as [|d sep]; [by rewrite str_app_nil_l|].
  rewrite <- (str_app_nil_l (String d sep +:+ b)), IH by done.
  by rewrite contains_empty.
Qed.

Lemma contains_join x sep l :
  x ≠ EmptyString → sep ≠ EmptyString → apart sep x = true →
  contains x (join sep l) = existsb (contains x) l.
Proof.
  intros Hne Hsep Hap. induction l as [|a [|b l] IH].
  - by apply contains_empty.
  - cbn. by rewrite orb_false_r.
  - rewrite join_cons, contains_split_sep, IH by done. done.
Qed.

(** A text without blank, equals sign, comma or newline: the characters
    that stand between the names of the forwarded arguments. *)
Definition plain (x : string) : bool :=
  apart (" =," +:+ nl) x.

Lemma any_char_member (q : ascii → bool) c s :
  any_char (Ascii.eqb c) s = true → any_char q s = false → q c = false.
Proof.
  induction s as [|d s IH]; [done|]. rewrite !any_char_cons.
  intros [->%Ascii.eqb_eq|H]%orb_true_iff [Hd Hs]%orb_false_iff; auto.
Qed.

Lemma apart_sub sep sep' x :
  any_char (λ c, negb (any_char (Ascii.eqb c) sep')) sep = false →
  apart sep' x = true → apart sep x = true.
Proof.
  unfold apart. rewrite !negb_true_iff. intros Hsub Hap.
  induction sep as [|c sep IH]; [done|].
  rewrite any_char_cons in Hsub |- *.
  apply orb_false_iff in Hsub as [Hc Hsub]. apply negb_false_iff in Hc.
  rewrite (IH Hsub), orb_false_r.
  by apply (any_char_member (λ c, any_char (Ascii.eqb c) x) c sep').
Qed.

Lemma plain_apart x :
  plain x = true →
  apart " = " x = true
  ∧ apart (nl +:+ spaces 12) x = true
  ∧ apart ("," +:+ nl +:+ spaces 12) x = true.
Proof.
  intros H. split_and!; by apply (apart_sub _ (" =," +:+ nl)).
Qed.

Lemma contains_after_sep x sep b :
  x ≠ EmptyString → sep ≠ EmptyString → apart sep x = true →
  contains x (sep +:+ b) = contains x b.
Proof.
  intros Hne Hsep Hap. rewrite <- (str_app_nil_l (sep +:+ b)).
  by rewrite contains_split_sep, contains_empty.
Qed.

Lemma contains_call_args x parameters :
  x ≠ EmptyString → plain x = true →
  contains x (process_signature parameters).2
  = existsb (λ p, contains x p.1) (List.filter kept parameters).
Proof.
  intros Hne (H1 & H2 & H3)%plain_apart.
  rewrite process_signature_kept. cbn [snd].
  rewrite <- (str_app_assoc nl (spaces 12)).
  rewrite contains_after_sep by done.
  rewrite contains_join by done.
  induction (List.filter kept parameters) as [|p l IH]; [done|].
  cbn [map existsb]. rewrite IH. f_equal.
  unfold forward_text. rewrite contains_split_sep by done.
  apply orb_diag.
Qed.

(** X7.  The tests of lines 191-352 look for a word anywhere in the
    forwarded arguments.  In the text line 172 builds (the one of the
    config, and the one of the trainer where lines 181-186 do not change
    it) a word without blank, equals sign, comma or newline is found
    exactly when some forwarded parameter (one that is not [self] and
    whose default is of a kept type) has the word inside its name:
    [model] is found for [ref_model] and [model_init] as it is for
    [model]. *)
Theorem word_in_call_args (parameters : signature) (x : string) :
  x ≠ EmptyString → plain x = true →
  (contains x (process_signature parameters).2 = true
   ↔ ∃ k v, In (k, v) parameters ∧ k ≠ "self" ∧ v ≠ VOther
            ∧ contains x k = true).
Proof.
  intros Hne Hplain. rewrite contains_call_args by done.
  rewrite existsb_exists. split.
  - intros ([k v] & [Hin Hk]%filter_In & Hx). exists k, v.
    apply kept_spec in Hk as [? ?]. done.
  - intros (k & v & Hin & Hk & Hv & Hx). exists (k, v).
    split; [|done]. apply filter_In. split; [done|]. by apply kept_spec.
Qed.

(** *** Indenting, lines 296-299 and 363-364 *)

Definition one_line (l : string) : Prop :=
  any_char (Ascii.eqb "010"%char) l = false.

Lemma split_lines_one_line l : one_line l → split_lines l = [l].
Proof.
  unfold one_line. induction l as [|c l IH]; [done|].
  rewrite any_char_cons, split_lines_cons_eq.
  intros [Hc Hl]%orb_false_iff. rewrite Ascii.eqb_sym, Hc, IH; done.
Qed.

Lemma split_lines_app_nl l t :
  one_line l → split_lines (l +:+ nl +:+ t) = l :: split_lines t.
Proof.
  unfold one_line. induction l as [|c l IH]; [done|].
  rewrite any_char_cons. intros [Hc Hl]%orb_false_iff.
  rewrite str_app_cons, split_lines_cons_eq, Ascii.eqb_sym, Hc, IH; done.
Qed.

Lemma split_lines_join ls :
  ls ≠ [] → Forall one_line ls → split_lines (join nl ls) = ls.
Proof.
  induction ls as [|l [|l2 ls] IH]; [done| |]; intros _ Hall.
  - apply split_lines_one_line. by apply Forall_inv in Hall.
  - rewrite join_cons, split_lines_app_nl.
    + f_equal. apply IH; [done|]. by apply Forall_inv_tail in Hall.
    + by apply Forall_inv in Hall.
Qed.

Lemma split_lines_are_lines s : Forall one_line (split_lines s).
Proof.
  induction s as [|c s IH]; [by repeat constructor|].
  rewrite split_lines_cons_eq.
  destruct (Ascii.eqb c "010") eqn:Hc; [by constructor|].
  destruct (split_lines s) as [|l ls].
  - constructor; [|constructor].
    unfold one_line. by rewrite any_char_cons, Ascii.eqb_sym, Hc.
  - apply Forall_cons in IH as [Hl Hls]. constructor; [|done].
    unfold one_line in *. by rewrite any_char_cons, Ascii.eqb_sym, Hc.
Qed.

Lemma join_split_lines s : join nl (split_lines s) = s.
Proof.
  induction s as [|c s IH]; [done|].
  rewrite split_lines_cons_eq.
  destruct (split_lines_cons s) as (l & ls & Hs). rewrite Hs in IH |- *.
  destruct (Ascii.eqb c "010") eqn:Hc.
  - apply Ascii.eqb_eq in Hc as ->. rewrite join_cons, IH. done.
  - destruct ls as [|l2 ls].
    + cbn in IH |- *. by rewrite IH.
    + rewrite join_cons in IH |- *. by rewrite str_app_cons, IH.
Qed.

(** X8.  The indented text has the lines of the text in order, each
    after eight blanks, the empty ones too; joining the lines of a text
    with newlines gives the text back. *)
Theorem indent8_lines (s : string) :
  split_lines (indent8 s) = map (λ x, spaces 8 +:+ x) (split_lines s)
  ∧ join nl (split_lines s) = s
  ∧ length (split_lines (indent8 s)) = length (split_lines s).
Proof.
  assert (H : split_lines (indent8 s)
              = map (λ x, spaces 8 +:+ x) (split_lines s)).
  { unfold indent8. apply split_lines_join.
    - destruct (split_lines_cons s) as (l & ls & ->). done.
    - apply Forall_map. eapply Forall_impl; [apply split_lines_are_lines|].
      intros l Hl. unfold one_line in *. cbn beta.
      by rewrite any_char_app, Hl. }
  split_and!; [done|apply join_split_lines|].
  by rewrite H, length_map.
Qed.

(** *** [str.replace] where the text is absent *)

Lemma contains_trans a b s :
  contains a b = true → contains b s = true → contains a s = true.
Proof.
  intros (u & v & ->)%contains_spec (u' & v' & ->)%contains_spec.
  apply contains_spec. exists (u' +:+ u), (v +:+ v').
  by rewrite !str_app_assoc.
Qed.

Lemma replace_absent old new s :
  contains old s = false → replace old new s = s.
Proof.
  destruct old as [|c old].
  { intros H. destruct s; discriminate. }
  intros H. rewrite replace_nonempty by done.
  induction s as [|d s IH]; [done|].
  rewrite contains_cons_eq in H. apply orb_false_iff in H as [Hp Hs].
  by rewrite replace_go_keep, IH.
Qed.

Lemma replace_same x s : replace x x s = s.
Proof.
  destruct x as [|c x].
  { unfold replace, replace_count. induction s as [|d s IH]; [done|].
    cbn. by rewrite IH. }
  rewrite replace_nonempty by done.
  induction s as [s IH] using (induction_ltof1 _ String.length).
  unfold ltof in IH. destruct s as [|d s]; [done|].
  destruct (String.prefix (String c x) (String d s)) eqn:Hpre.
  - apply prefix_split in Hpre as [t Ht]. rewrite Ht.
    rewrite replace_go_match by done. rewrite IH; [done|].
    rewrite Ht, str_length_app. cbn. lia.
  - rewrite replace_go_keep by done. rewrite IH; [done|]. cbn. lia.
Qed.

Lemma remove_peft_config_absent init :
  contains "peft_config" init = false → remove_peft_config init = init.
Proof.
  intros H. unfold remove_peft_config.
  assert (Hold : ∀ old new s, contains "peft_config" old = true →
            contains "peft_config" s = false → replace old new s = s).
  { intros old new s Ho Hs. apply replace_absent.
    destruct (contains old s) eqn:E; [|done].
    by rewrite (contains_trans _ _ _ Ho E) in Hs. }
  rewrite (Hold "elif peft_config is None:" _ init) by (done || by vm_compute).
  rewrite (Hold "elif peft_config is not None:" _ init)
    by (done || by vm_compute).
  rewrite (Hold "if peft_config is None:" _ init) by (done || by vm_compute).
  rewrite (Hold "if peft_config is not None:" _ init)
    by (done || by vm_compute).
  apply Hold; [by vm_compute|done].
Qed.
(** ** The matcher *)

(** The repetition of [rmatch], with the matcher of the repeated
    pattern, the continuation and the greediness as parameters. *)
Section Repetition.

Variable step :
  string → captures → (string → captures → option matched) → option matched.
Variable k : string → captures → option matched.
Variable greedy : bool.

Fixpoint rep_go (fuel min : nat) (max : option nat) (s : string)
    (caps : captures) {struct fuel} : option matched :=
  let stop :=
    match min with
    | O => k s caps
    | S _ => None
    end in
  let more :=
    match fuel, max with
    | O, _ => None
    | _, Some O => None
    | S fuel', _ =>
        step s caps
          (λ s' caps',
             if String.length s' <? String.length s
             then rep_go fuel' (pred min) (pred <$> max) s' caps'
             else None)
    end in
  if greedy then or_else more stop else or_else stop more.

End Repetition.

Lemma rmatch_rep greedy min max r s caps k :
  rmatch (Rep greedy min max r) s caps k
  = rep_go (rmatch r) k greedy (S (String.length s)) min max s caps.
Proof. reflexivity. Qed.

Lemma rmatch_cat r1 r2 s caps k :
  rmatch (Cat r1 r2) s caps k
  = rmatch r1 s caps (λ s' caps', rmatch r2 s' caps' k).
Proof. reflexivity. Qed.

Lemma rmatch_group n r s caps k :
  rmatch (Group n r) s caps k
  = rmatch r s caps
      (λ s' caps',
         k s' (<[n := take (String.length s - String.length s') s]> caps')).
Proof. reflexivity. Qed.

Lemma or_else_some a b m :
  or_else a b = Some m → a = Some m ∨ b = Some m.
Proof. destruct a; cbn; intros H; [left|right]; done. Qed.

(** [s'] is what is left of [s] after some first part. *)
Definition rest_of (s' s : string) : Prop := ∃ a, s = a +:+ s'.

Lemma rest_of_refl s : rest_of s s.
Proof. by exists EmptyString. Qed.

Lemma rest_of_trans s1 s2 s3 : rest_of s1 s2 → rest_of s2 s3 → rest_of s1 s3.
Proof.
  intros [a ->] [b ->]. exists (b +:+ a). by rewrite str_app_assoc.
Qed.

Lemma rest_of_cons c s : rest_of s (String c s).
Proof. by exists (String c EmptyString). Qed.

Lemma contains_rest_of t s' s :
  rest_of s' s → contains t s' = true → contains t s = true.
Proof. intros [a ->]. apply contains_app_r. Qed.

(** A match is what the continuation makes of some rest of the text. *)
Definition passes_on (r : regex) : Prop :=
  ∀ s caps k m, rmatch r s caps k = Some m →
    ∃ s' caps', rest_of s' s ∧ k s' caps' = Some m.

Lemma rep_go_passes_on step k greedy :
  (∀ s caps k' m, step s caps k' = Some m →
     ∃ s' caps', rest_of s' s ∧ k' s' caps' = Some m) →
  ∀ fuel min max s caps m,
    rep_go step k greedy fuel min max s caps = Some m →
    ∃ s' caps', rest_of s' s ∧ k s' caps' = Some m.
Proof.
  intros Hstep. induction fuel as [|fuel IH]; intros min max s caps m H.
  - cbn [rep_go] in H.
    destruct greedy; apply or_else_some in H as [H|H]; try done;
      (destruct min; [|done]); exists s, caps;
      (split; [apply rest_of_refl|done]).
  - cbn [rep_go] in H.
    assert (Hstop : match min with O => k s caps | S _ => None end = Some m →
              ∃ s' caps', rest_of s' s ∧ k s' caps' = Some m).
    { destruct min; [|done]. intros Hk. exists s, caps.
      split; [apply rest_of_refl|done]. }
    assert (Hmore :
      step s caps
        (λ s' caps',
           if String.length s' <? String.length s
           then rep_go step k greedy fuel (pred min) (pred <$> max) s' caps'
           else None) = Some m →
      ∃ s' caps', rest_of s' s ∧ k s' caps' = Some m).
    { intros (s1 & caps1 & Hrest & Hk)%Hstep.
      destruct (String.length s1 <? String.length s); [|done].
      destruct (IH _ _ _ _ _ Hk) as (s2 & caps2 & Hrest2 & Hk2).
      exists s2, caps2. split; [|done]. by apply (rest_of_trans _ s1). }
    destruct greedy; apply or_else_some in H as [H|H];
      try (by apply Hstop); destruct max as [[|n]|]; try done;
      by apply Hmore.
Qed.

Lemma rmatch_passes_on r : passes_on r.
Proof.
  induction r as [|cs|r1 IH1 r2 IH2|r1 IH1 r2 IH2|greedy min max r IH|n r IH];
    intros s caps k m H.
  - exists s, caps. split; [apply rest_of_refl|done].
  - cbn [rmatch] in H. destruct s as [|c s]; [done|].
    destruct (in_charset cs c); [|done].
    exists s, caps. split; [apply rest_of_cons|done].
  - rewrite rmatch_cat in H.
    destruct (IH1 _ _ _ _ H) as (s1 & caps1 & Hr1 & H1).
    destruct (IH2 _ _ _ _ H1) as (s2 & caps2 & Hr2 & H2).
    exists s2, caps2. split; [|done]. by apply (rest_of_trans _ s1).
  - cbn [rmatch] in H. apply or_else_some in H as [H|H]; eauto.
  - rewrite rmatch_rep in H. by apply (rep_go_passes_on _ _ _ IH) in H.
  - rewrite rmatch_group in H.
    destruct (IH _ _ _ _ H) as (s1 & caps1 & Hr1 & H1). eauto.
Qed.

(** *** Literal text *)

Lemma rmatch_lit_some t s caps k m :
  rmatch (lit t) s caps k = Some m → ∃ s', s = t +:+ s' ∧ k s' caps = Some m.
Proof.
  revert s. induction t as [|c t IH]; intros s H.
  - by exists s.
  - cbn [lit] in H. rewrite rmatch_cat in H. cbn [rmatch in_charset] in H.
    destruct s as [|d s]; [done|].
    destruct (Ascii.eqb d c) eqn:E; [|done].
    apply Ascii.eqb_eq in E as ->.
    destruct (IH _ H) as (s' & -> & Hk). by exists s'.
Qed.

Lemma rmatch_lit_app t s caps k : rmatch (lit t) (t +:+ s) caps k = k s caps.
Proof.
  induction t as [|c t IH]; [done|].
  cbn [lit]. rewrite rmatch_cat, str_app_cons. cbn [rmatch in_charset].
  by rewrite Ascii.eqb_refl.
Qed.

Lemma rmatch_lit_none t s caps k :
  String.prefix t s = false → rmatch (lit t) s caps k = None.
Proof.
  intros Hp. destruct (rmatch (lit t) s caps k) as [m|] eqn:E; [|done].
  apply rmatch_lit_some in E as (s' & -> & _). by rewrite prefix_app in Hp.
Qed.

(** *** Patterns that need a text *)

(** Every match of [r] has [t] in the text it starts in. *)
Definition needs (r : regex) (t : string) : Prop :=
  ∀ s caps k m, rmatch r s caps k = Some m → contains t s = true.

Lemma needs_lit t : needs (lit t) t.
Proof.
  intros s caps k m (s' & -> & _)%rmatch_lit_some.
  apply contains_prefix, prefix_app.
Qed.

Lemma needs_cat_l r1 r2 t : needs r1 t → needs (Cat r1 r2) t.
Proof. intros H s caps k m Hm. rewrite rmatch_cat in Hm. by apply H in Hm. Qed.

Lemma needs_cat_r r1 r2 t : needs r2 t → needs (Cat r1 r2) t.
Proof.
  intros H s caps k m Hm. rewrite rmatch_cat in Hm.
  apply rmatch_passes_on in Hm as (s1 & caps1 & Hr & H1).
  apply (contains_rest_of t s1 s Hr). by apply H in H1.
Qed.

Lemma needs_group n r t : needs r t → needs (Group n r) t.
Proof.
  intros H s caps k m Hm. rewrite rmatch_group in Hm. by apply H in Hm.
Qed.

Lemma match_here_needs r t s :
  needs r t → contains t s = false → match_here r s = None.
Proof.
  intros Hn Hs. unfold match_here.
  destruct (rmatch r s ∅ _) as [[rest caps]|] eqn:E; [|done].
  apply Hn in E. congruence.
Qed.

Lemma sub_go_absent r template count t s :
  needs r t → contains t s = false → sub_go r template count 0 s = s.
Proof.
  intros Hn. induction s as [|c s IH]; [done|]. intros Hs.
  cbn [sub_go]. rewrite (match_here_needs r t _ Hn Hs).
  rewrite contains_cons_eq in Hs. apply orb_false_iff in Hs as [_ Hs].
  rewrite (IH Hs). by destruct count as [[|n]|].
Qed.

Lemma re_sub_absent r template t s :
  needs r t → contains t s = false → re_sub r template s = s.
Proof. apply sub_go_absent. Qed.

Lemma re_findall_absent r t s :
  needs r t → contains t s = false → re_findall r s = [].
Proof.
  intros Hn. unfold re_findall. induction s as [|c s IH]; [done|]. intros Hs.
  cbn [findall_go]. rewrite (match_here_needs r t _ Hn Hs).
  rewrite contains_cons_eq in Hs. apply orb_false_iff in Hs as [_ Hs].
  by apply IH.
Qed.

(** ** [patch_vllm]: sources that mention neither PEFT nor vLLM *)

Lemma line_with_needs text : needs (line_with text) text.
Proof.
  unfold line_with.
  apply needs_cat_r, needs_cat_r, needs_cat_l, needs_lit.
Qed.

Lemma llm_call_needs : needs llm_call "self.llm.".
Proof.
  unfold llm_call. apply needs_cat_l, needs_group, needs_cat_l, needs_lit.
Qed.

Lemma signature_end_needs : needs signature_end "->".
Proof.
  unfold signature_end.
  apply needs_cat_r, needs_cat_l, needs_group, needs_cat_r, needs_cat_l,
    needs_lit.
Qed.

Lemma vllm_branch_needs : needs vllm_branch ".use_vllm:".
Proof.
  unfold vllm_branch.
  apply needs_group, needs_cat_r, needs_cat_r, needs_cat_r, needs_cat_r,
    needs_cat_l, needs_lit.
Qed.

(** The texts the four substitutions of lines 487-514 look for. *)
Definition mentions_vllm (source : string) : bool :=
  contains "model_executor.driver_worker" source
  || contains "load_weights(" source
  || contains ".state_dict()" source
  || contains "self.llm." source.

Lemma redirect_vllm_calls_absent lora_name source :
  mentions_vllm source = false → redirect_vllm_calls lora_name source = source.
Proof.
  unfold mentions_vllm.
  intros [[[H1 H2]%orb_false_iff H3]%orb_false_iff H4]%orb_false_iff.
  unfold redirect_vllm_calls.
  rewrite (re_sub_absent (line_with "model_executor.driver_worker") _ _ source
             (line_with_needs _) H1).
  rewrite (re_sub_absent (line_with "load_weights(") _ _ source
             (line_with_needs _) H2).
  rewrite (re_sub_absent (lit ".state_dict()") _ _ source (needs_lit _) H3).
  apply (re_sub_absent llm_call _ _ source llm_call_needs H4).
Qed.

Lemma set_use_vllm_absent init :
  contains "->" init = false → set_use_vllm init = init.
Proof. apply sub_go_absent, signature_end_needs. Qed.

Lemma use_vllm_engine_absent init :
  contains ".use_vllm:" init = false → use_vllm_engine init = init.
Proof.
  intros H. unfold use_vllm_engine.
  by rewrite (re_findall_absent _ _ _ vllm_branch_needs H).
Qed.

Lemma patch_function_absent i trainer_file all_imports acc function :
  (∀ source, function_source i !! function = Some source →
             mentions_vllm source = false) →
  patch_function i trainer_file all_imports acc function = acc.
Proof.
  intros H. unfold patch_function. destruct acc as [changed imports].
  destruct (function_source i !! function) as [source|]; [|done].
  rewrite (redirect_vllm_calls_absent _ source) by by apply H.
  by rewrite String.eqb_refl.
Qed.

(** X9.  A class whose [__init__] has no [peft_config], no return
    annotation and no [use_vllm] branch, and whose methods mention none
    of the four vLLM texts, is only renamed: [patch_vllm] returns the
    class source with the first [class <name>] turned into
    [class _Unsloth<name>], and the list of imports as it was given. *)
Theorem patch_vllm_only_renames (RLTrainer : pyobj) (i : introspection)
    (trainer_file RLTrainer_name init RLTrainer_source : string)
    (all_imports imports : list string) :
  introspect RLTrainer = Some i →
  function_source i !! "__init__" = Some init →
  class_source i = Some RLTrainer_source →
  contains "peft_config" init = false →
  contains "->" init = false →
  contains ".use_vllm:" init = false →
  (∀ function source, function_source i !! function = Some source →
                      mentions_vllm source = false) →
  patch_vllm RLTrainer trainer_file RLTrainer_name all_imports imports
  = Some (rename_class RLTrainer_name RLTrainer_source, imports).
Proof.
  intros Hi Hinit Hsrc Hpeft Harrow Hbranch Hmethods.
  unfold patch_vllm. rewrite Hi. cbn [mbind option_bind].
  rewrite Hinit. cbn [mbind option_bind]. rewrite Hsrc. cbn [mbind option_bind].
  rewrite (remove_peft_config_absent init Hpeft).
  rewrite (set_use_vllm_absent init Harrow).
  rewrite (use_vllm_engine_absent init Hbranch).
  assert (Hfold : ∀ functions acc,
            fold_left (patch_function i trainer_file all_imports) functions acc
            = acc).
  { induction functions as [|f l IH]; intros acc; [done|]. cbn [fold_left].
    rewrite patch_function_absent; [apply IH|]. apply Hmethods. }
  rewrite Hfold. unfold apply_changes. cbn [fold_left fst snd].
  by rewrite replace_same.
Qed.

(** ** [patch_vllm]: the entries of [changed] and the imports *)

Section MethodLoop.

Variable i : introspection.
Variable trainer_file : string.
Variable all_imports : list string.

Local Abbreviation step :=
  (patch_function i trainer_file all_imports).
Local Abbreviation redirect :=
  (redirect_vllm_calls (trainer_file +:+ "_lora_model")).

Definition other_key (e : string * (string * string)) : Prop :=
  e.1 ≠ "__init__".

Lemma dict_set_init v e rest :
  Forall other_key rest →
  dict_set "__init__" e (("__init__", v) :: rest) = ("__init__", e) :: rest.
Proof.
  intros Hrest. unfold dict_set. cbn [existsb fst]. rewrite String.eqb_refl.
  cbn [orb map fst]. rewrite String.eqb_refl. f_equal.
  induction rest as [|x rest IH]; [done|].
  apply Forall_cons in Hrest as [Hx Hrest]. cbn [map].
  apply String.eqb_neq in Hx as ->. by rewrite IH.
Qed.

Lemma dict_set_other f v e rest :
  f ≠ "__init__" → Forall other_key rest →
  ∃ rest', dict_set f e (("__init__", v) :: rest) = ("__init__", v) :: rest'
           ∧ Forall other_key rest'.
Proof.
  intros Hf Hrest. unfold dict_set. cbn [existsb fst].
  assert (Hne : String.eqb "__init__" f = false).
  { apply String.eqb_neq. congruence. }
  rewrite Hne. cbn [orb].
  destruct (existsb _ rest).
  - cbn [map fst]. rewrite Hne. eexists. split; [done|].
    clear -Hf Hrest. induction rest as [|x rest IH]; [done|].
    apply Forall_cons in Hrest as [Hx Hrest]. cbn [map].
    constructor; [|by apply IH].
    by destruct (String.eqb x.1 f).
  - exists (rest ++ [(f, e)]). split; [done|].
    apply Forall_app. split; [done|]. by repeat constructor.
Qed.

Lemma method_loop_init init functions :
  function_source i !! "__init__" = Some init →
  redirect init ≠ init →
  ∀ v rest imports,
    Forall other_key rest →
    ∃ v' rest' imports',
      fold_left step functions (("__init__", v) :: rest, imports)
      = (("__init__", v') :: rest', imports')
      ∧ Forall other_key rest'
      ∧ (v' = v ∨ v' = (init, redirect init))
      ∧ (In "__init__" functions → v' = (init, redirect init)).
Proof.
  intros Hinit Hchanged.
  induction functions as [|f l IH]; intros v rest imports Hrest.
  - exists v, rest, imports. split_and!; try done. by left.
  - cbn [fold_left].
    destruct (decide (f = "__init__")) as [->|Hf].
    + assert (Hstep : ∃ imports1,
                step (("__init__", v) :: rest, imports) "__init__"
                = (("__init__", (init, redirect init)) :: rest, imports1)).
      { unfold patch_function. rewrite Hinit.
        apply String.eqb_neq in Hchanged as ->.
        rewrite dict_set_init by done. by eexists. }
      destruct Hstep as [imports1 ->].
      destruct (IH (init, redirect init) rest imports1 Hrest)
        as (v' & rest' & imports' & -> & Hrest' & Hv' & _).
      exists v', rest', imports'. split_and!; try done.
      * right. by destruct Hv'.
      * intros _. by destruct Hv'.
    + assert (Hstep : ∃ rest1 imports1,
                step (("__init__", v) :: rest, imports) f
                = (("__init__", v) :: rest1, imports1)
                ∧ Forall other_key rest1).
      { unfold patch_function.
        destruct (function_source i !! f) as [source|]; [|by eexists _, _].
        destruct (String.eqb _ source); [by eexists _, _|].
        destruct (dict_set_other f v
                    (source, redirect source) rest Hf Hrest)
          as (rest1 & -> & Hrest1).
        by eexists _, _. }
      destruct Hstep as (rest1 & imports1 & -> & Hrest1).
      destruct (IH v rest1 imports1 Hrest1)
        as (v' & rest' & imports' & -> & Hrest' & Hv' & Hin).
      exists v', rest', imports'. split_and!; try done.
      intros [Heq|Hl]; [congruence|by apply Hin].
Qed.

Lemma method_loop_imports functions :
  ∀ changed imports,
    ∃ extra,
      (fold_left step functions (changed, imports)).2 = imports ++ extra
      ∧ ∀ x, In x extra → In x all_imports ∧ startswith x "_" = false.
Proof.
  induction functions as [|f l IH]; intros changed imports.
  - exists []. by rewrite app_nil_r.
  - cbn [fold_left].
    assert (Hstep : ∃ changed1 extra1,
              step (changed, imports) f = (changed1, imports ++ extra1)
              ∧ ∀ x, In x extra1 →
                     In x all_imports ∧ startswith x "_" = false).
    { unfold patch_function.
      destruct (function_source i !! f) as [source|].
      - destruct (String.eqb _ source).
        + exists changed, []. by rewrite app_nil_r.
        + eexists _, _. split; [done|].
          intros x [Hin Hx]%filter_In.
          apply andb_true_iff in Hx as [Hx _]. apply negb_true_iff in Hx.
          done.
      - exists changed, []. by rewrite app_nil_r. }
    destruct Hstep as (changed1 & extra1 & -> & Hextra1).
    destruct (IH changed1 (imports ++ extra1)) as (extra & -> & Hextra).
    exists (extra1 ++ extra). split; [by rewrite app_assoc|].
    intros x [H|H]%in_app_iff; auto.
Qed.

End MethodLoop.

(** X10.  When [__init__] is among the methods the loop visits and the
    four substitutions change its source, the loop overwrites the entry
    of [__init__]: what is put in the class source for [__init__] is its
    original source after the four substitutions, and the rewrites of
    lines 422-471 (the PEFT branches, [use_vllm], the vLLM engine) are
    not in it. *)
Theorem patch_vllm_init_overwritten (RLTrainer : pyobj) (i : introspection)
    (trainer_file RLTrainer_name init RLTrainer_source : string)
    (all_imports imports : list string) :
  introspect RLTrainer = Some i →
  function_source i !! "__init__" = Some init →
  class_source i = Some RLTrainer_source →
  In "__init__" (class_dir i) →
  contains "def __init__" RLTrainer_source = true →
  redirect_vllm_calls (trainer_file +:+ "_lora_model") init ≠ init →
  ∃ rest imports',
    patch_vllm RLTrainer trainer_file RLTrainer_name all_imports imports
    = Some (rename_class RLTrainer_name
              (apply_changes
                 (("__init__",
                   (init,
                    redirect_vllm_calls (trainer_file +:+ "_lora_model") init))
                  :: rest)
                 RLTrainer_source),
            imports')
    ∧ Forall (λ e, e.1 ≠ "__init__") rest.
Proof.
  intros Hi Hinit Hsrc Hdir Hdef Hchanged.
  unfold patch_vllm. rewrite Hi. cbn [mbind option_bind].
  rewrite Hinit. cbn [mbind option_bind]. rewrite Hsrc. cbn [mbind option_bind].
  destruct (method_loop_init i trainer_file all_imports init
              (List.filter (λ x, contains ("def " +:+ x) RLTrainer_source)
                 (class_dir i))
              Hinit Hchanged
              (init, use_vllm_engine (set_use_vllm (remove_peft_config init)))
              [] imports (List.Forall_nil _))
    as (v' & rest' & imports' & -> & Hrest' & _ & Hv').
  rewrite Hv'; [by exists rest', imports'|].
  apply filter_In. split; [done|]. exact Hdef.
Qed.

Lemma patch_vllm_imports_spec (RLTrainer : pyobj)
    (trainer_file RLTrainer_name source : string)
    (all_imports imports imports' : list string) :
  patch_vllm RLTrainer trainer_file RLTrainer_name all_imports imports
  = Some (source, imports') →
  ∃ extra, imports' = imports ++ extra
           ∧ ∀ x, In x extra → In x all_imports ∧ startswith x "_" = false.
Proof.
  unfold patch_vllm. intros H.
  destruct (introspect RLTrainer) as [i|]; [|done].
  cbn [mbind option_bind] in H.
  destruct (function_source i !! "__init__") as [init|]; [|done].
  cbn [mbind option_bind] in H.
  destruct (class_source i) as [class_src|]; [|done].
  cbn [mbind option_bind] in H.
  match type of H with
  | context [fold_left ?f ?l (?c, ?im)] =>
      destruct (method_loop_imports i trainer_file all_imports l c im)
        as (extra & Hextra & Hnames);
      destruct (fold_left f l (c, im)) as [changed imports'']
  end.
  injection H as _ <-. exists extra. by split.
Qed.

(** X11.  [patch_vllm] only adds to the list of imports it is given, and
    what it adds are names of [dir(trainer)] that do not start with an
    underscore. *)
Theorem patch_vllm_imports (RLTrainer : pyobj)
    (trainer_file RLTrainer_name source : string)
    (all_imports imports imports' : list string) :
  patch_vllm RLTrainer trainer_file RLTrainer_name all_imports imports
  = Some (source, imports') →
  ∃ extra, imports' = imports ++ extra
           ∧ ∀ x, In x extra → In x all_imports ∧ startswith x "_" = false.
Proof.
  unfold patch_vllm. intros H.
  destruct (introspect RLTrainer) as [i|]; [|done].
  cbn [mbind option_bind] in H.
  destruct (function_source i !! "__init__") as [init|]; [|done].
  cbn [mbind option_bind] in H.
  destruct (class_source i) as [class_src|]; [|done].
  cbn [mbind option_bind] in H.
  match type of H with
  | context [fold_left ?f ?l (?c, ?im)] =>
      destruct (method_loop_imports i trainer_file all_imports l c im)
        as (extra & Hextra & Hnames);
      destruct (fold_left f l (c, im)) as [changed imports'']
  end.
  injection H as _ <-. exists extra. by split.
Qed.
(** ** The pattern of the defaults, lines 324-329 *)

Lemma rep_go_S step k greedy fuel min max s caps :
  rep_go step k greedy (S fuel) min max s caps
  = let stop :=
      match min with
      | O => k s caps
      | S _ => None
      end in
    let more :=
      match max with
      | Some O => None
      | _ =>
          step s caps
            (λ s' caps',
               if String.length s' <? String.length s
               then rep_go step k greedy fuel (pred min) (pred <$> max) s' caps'
               else None)
      end in
    if greedy then or_else more stop else or_else stop more.
Proof. by destruct max as [[|n]|]. Qed.

Lemma rep_go_max0 step k fuel s caps :
  rep_go step k true fuel 0 (Some 0) s caps = k s caps.
Proof. by destruct fuel. Qed.

Lemma or_else_none_r a : or_else a None = a.
Proof. by destruct a. Qed.

(** The longest first part of a text made of characters of a set, and
    the rest. *)
Fixpoint span (p : ascii → bool) (s : string) : string * string :=
  match s with
  | EmptyString => (EmptyString, EmptyString)
  | String c s' =>
      if p c then let '(run, rest) := span p s' in (String c run, rest)
      else (EmptyString, s)
  end.

Lemma span_spec p s run rest :
  span p s = (run, rest) →
  s = run +:+ rest ∧ any_char (λ c, negb (p c)) run = false.
Proof.
  revert run rest. induction s as [|c s IH]; intros run rest.
  - by intros [= <- <-].
  - cbn [span]. destruct (p c) eqn:Hc; [|by intros [= <- <-]].
    destruct (span p s) as [run' rest']. intros [= <- <-].
    destruct (IH _ _ eq_refl) as [-> Hrun]. split; [done|].
    by rewrite any_char_cons, Hc, Hrun.
Qed.

Lemma span_stop p d c t :
  any_char (λ c, negb (p c)) d = false → p c = false →
  span p (d +:+ String c t) = (d, String c t).
Proof.
  intros Hd Hc. induction d as [|e d IH].
  - rewrite str_app_nil_l. cbn [span]. by rewrite Hc.
  - rewrite any_char_cons in Hd. apply orb_false_iff in Hd as [He Hd].
    apply negb_false_iff in He. rewrite str_app_cons. cbn [span].
    by rewrite He, (IH Hd).
Qed.

(** A greedy repetition of one character set takes the longest run when
    what follows the repetition cannot start with a character of the
    set. *)
Lemma rep_go_run cs k :
  (∀ c s caps, in_charset cs c = true → k (String c s) caps = None) →
  ∀ fuel s min caps,
    String.length s < fuel →
    rep_go (rmatch (One cs)) k true fuel min None s caps
    = let '(run, rest) := span (in_charset cs) s in
      if min <=? String.length run then k rest caps else None.
Proof.
  intros Hk. induction fuel as [|fuel IH]; intros s min caps Hlen; [lia|].
  rewrite rep_go_S. cbn zeta. cbn [fmap option_fmap option_map].
  destruct s as [|c s].
  - cbn [rmatch span or_else String.length]. by destruct min.
  - cbn [rmatch span]. destruct (in_charset cs c) eqn:Hc.
    + assert ((String.length s <? String.length (String c s)) = true) as ->.
      { apply Nat.ltb_lt. cbn. lia. }
      rewrite IH by (cbn in Hlen; lia).
      destruct (span (in_charset cs) s) as [run rest].
      assert (match min with
              | O => k (String c s) caps
              | S _ => None
              end = None) as ->.
      { destruct min; [by apply Hk|done]. }
      rewrite or_else_none_r. by destruct min.
    + cbn [or_else String.length]. by destruct min.
Qed.

(** The characters a default may not hold. *)
Definition separator (c : ascii) : bool :=
  existsb (Ascii.eqb c) [","%char; "010"%char].

Definition default_group : regex :=
  Group 1 (Cat (lit " = ")
             (plus (One (NoneOf [","%char; "010"%char])))).

Lemma default_pattern_eq k :
  default_pattern k
  = Cat (lit k) (Cat (Rep true 0 (Some 1) default_group) (lit ("," +:+ nl))).
Proof. reflexivity. Qed.

Definition found : string → captures → option matched :=
  λ s caps, Some (s, caps).

(** The matcher reads its continuation by its results only. *)
Lemma rep_go_ext step k1 k2 greedy :
  (∀ s caps k k', (∀ s' caps', k s' caps' = k' s' caps') →
     step s caps k = step s caps k') →
  (∀ s caps, k1 s caps = k2 s caps) →
  ∀ fuel min max s caps,
    rep_go step k1 greedy fuel min max s caps
    = rep_go step k2 greedy fuel min max s caps.
Proof.
  intros Hstep Hk. induction fuel as [|fuel IH]; intros min max s caps.
  - cbn [rep_go]. by rewrite Hk.
  - rewrite !rep_go_S. cbn zeta. rewrite Hk.
    destruct max as [[|n]|]; [done| |].
    + rewrite (Hstep s caps _
                 (λ s' caps',
                    if String.length s' <? String.length s
                    then rep_go step k2 greedy fuel (pred min)
                           (pred <$> Some (S n)) s' caps'
                    else None)); [done|].
      intros s' caps'. by rewrite IH.
    + rewrite (Hstep s caps _
                 (λ s' caps',
                    if String.length s' <? String.length s
                    then rep_go step k2 greedy fuel (pred min)
                           (pred <$> None) s' caps'
                    else None)); [done|].
      intros s' caps'. by rewrite IH.
Qed.

Lemma rmatch_ext r :
  ∀ s caps k k', (∀ s' caps', k s' caps' = k' s' caps') →
    rmatch r s caps k = rmatch r s caps k'.
Proof.
  induction r as [|cs|r1 IH1 r2 IH2|r1 IH1 r2 IH2|greedy min max r IH|n r IH];
    intros s caps k k' Hk.
  - apply Hk.
  - cbn [rmatch]. destruct s as [|c s]; [done|].
    destruct (in_charset cs c); [apply Hk|done].
  - rewrite !rmatch_cat. apply IH1. intros s' caps'. by apply IH2.
  - cbn [rmatch]. by rewrite (IH1 _ _ _ _ Hk), (IH2 _ _ _ _ Hk).
  - rewrite !rmatch_rep. by apply rep_go_ext.
  - rewrite !rmatch_group. apply IH. intros s' caps'. apply Hk.
Qed.

(** What the pattern does after the name. *)
Lemma default_tail_eq s1 caps :
  rmatch (Cat (Rep true 0 (Some 1) default_group) (lit ("," +:+ nl)))
    s1 caps found
  = or_else
      (rmatch default_group s1 caps
         (λ s' caps',
            if String.length s' <? String.length s1
            then rmatch (lit ("," +:+ nl)) s' caps' found
            else None))
      (rmatch (lit ("," +:+ nl)) s1 caps found).
Proof.
  rewrite rmatch_cat, rmatch_rep, rep_go_S. cbn zeta.
  cbn [fmap option_fmap option_map pred]. f_equal.
  apply rmatch_ext. intros s' caps'. by rewrite rep_go_max0.
Qed.

Lemma take_app u rest : take (String.length u) (u +:+ rest) = u.
Proof.
  induction u as [|c u IH]; [by destruct rest|].
  rewrite str_app_cons. cbn [String.length take]. by rewrite IH.
Qed.

(** The group: [ = ], then the longest run of characters that are
    neither comma nor newline, which must not be empty. *)
Lemma default_group_eq s2 caps k :
  (∀ c s caps, separator c = false → k (String c s) caps = None) →
  rmatch default_group (" = " +:+ s2) caps k
  = let '(run, rest) := span (λ c, negb (separator c)) s2 in
    if 1 <=? String.length run
    then k rest (<[1 := " = " +:+ run]> caps)
    else None.
Proof.
  intros Hk. unfold default_group. rewrite rmatch_group, rmatch_cat.
  rewrite rmatch_lit_app. unfold plus. rewrite rmatch_rep.
  rewrite rep_go_run; [| |lia].
  - change (in_charset (NoneOf [","%char; "010"%char]))
      with (λ c, negb (separator c)).
    destruct (span _ s2) as [run rest] eqn:Hspan.
    destruct (1 <=? String.length run); [|done]. f_equal. f_equal.
    apply span_spec in Hspan as [-> _].
    rewrite <- (str_app_assoc " = " run rest), (str_length_app (" = " +:+ run)).
    replace (String.length (" = " +:+ run) + String.length rest
             - String.length rest)
      with (String.length (" = " +:+ run)) by lia.
    apply take_app.
  - intros c s caps' Hc. apply Hk.
    change (negb (separator c) = true) in Hc. by apply negb_true_iff.
Qed.

Lemma comma_nl_found s caps :
  rmatch (lit ("," +:+ nl)) ("," +:+ nl +:+ s) caps found = Some (s, caps).
Proof. apply (rmatch_lit_app ("," +:+ nl) s caps found). Qed.

Lemma comma_nl_inv s caps m :
  rmatch (lit ("," +:+ nl)) s caps found = Some m →
  ∃ r, s = "," +:+ nl +:+ r ∧ m = (r, caps).
Proof. intros (r & -> & [= <-])%rmatch_lit_some. by exists r. Qed.

Lemma comma_nl_class c s caps :
  separator c = false → rmatch (lit ("," +:+ nl)) (String c s) caps found = None.
Proof.
  intros Hc. apply rmatch_lit_none.
  change ("," +:+ nl) with (String ","%char nl). rewrite prefix_cons.
  unfold separator in Hc. cbn [existsb] in Hc.
  apply orb_false_iff in Hc as [Hc _]. by rewrite Ascii.eqb_sym, Hc.
Qed.

Lemma any_char_negb_negb p s :
  any_char (λ c, negb (negb (p c))) s = any_char p s.
Proof.
  induction s as [|c s IH]; [done|].
  by rewrite !any_char_cons, IH, negb_involutive.
Qed.

(** The two shapes of a text the pattern of [k] matches at its start. *)
Definition default_line (k s r : string) : Prop :=
  s = k +:+ "," +:+ nl +:+ r
  ∨ ∃ d, d ≠ EmptyString ∧ any_char separator d = false
         ∧ s = k +:+ " = " +:+ d +:+ "," +:+ nl +:+ r.

Lemma default_line_length k s r :
  default_line k s r → String.length r < String.length s.
Proof.
  intros [->|(d & _ & _ & ->)]; rewrite !str_length_app; cbn; lia.
Qed.

Lemma default_match_line k s r caps :
  rmatch (default_pattern k) s ∅ found = Some (r, caps) → default_line k s r.
Proof.
  rewrite default_pattern_eq, rmatch_cat.
  intros (s1 & -> & H)%rmatch_lit_some.
  rewrite default_tail_eq in H. apply or_else_some in H as [H|H].
  - right.
    assert (Hs2 : ∃ s2, s1 = " = " +:+ s2).
    { unfold default_group in H. rewrite rmatch_group, rmatch_cat in H.
      apply rmatch_lit_some in H as (s2 & -> & _). by exists s2. }
    destruct Hs2 as [s2 ->].
    rewrite default_group_eq in H.
    + destruct (span _ s2) as [run rest] eqn:Hspan.
      apply span_spec in Hspan as [-> Hrun].
      destruct (1 <=? String.length run) eqn:Hlen; [|done].
      destruct (String.length rest <? _); [|done].
      apply comma_nl_inv in H as (r' & -> & [= <- _]).
      exists run. split_and!.
      * by destruct run.
      * by rewrite any_char_negb_negb in Hrun.
      * done.
    + intros c s caps' Hc.
      destruct (_ <? _); [|done]. by apply comma_nl_class.
  - left. apply comma_nl_inv in H as (r' & -> & [= <- _]). done.
Qed.

Lemma default_line_match k s r :
  default_line k s r →
  ∃ caps, rmatch (default_pattern k) s ∅ found = Some (r, caps).
Proof.
  intros [->|(d & Hd & Hsep & ->)];
    rewrite default_pattern_eq, rmatch_cat, rmatch_lit_app, default_tail_eq.
  - exists ∅.
    assert (rmatch default_group ("," +:+ nl +:+ r) ∅
              (λ s' caps',
                 if String.length s' <? String.length ("," +:+ nl +:+ r)
                 then rmatch (lit ("," +:+ nl)) s' caps' found
                 else None) = None) as ->.
    { unfold default_group. rewrite rmatch_group, rmatch_cat.
      by apply rmatch_lit_none. }
    apply comma_nl_found.
  - eexists. rewrite default_group_eq.
    + change ("," +:+ nl +:+ r) with (String ","%char (nl +:+ r)).
      rewrite (span_stop _ d ","%char (nl +:+ r));
        [|by rewrite any_char_negb_negb|done].
      assert ((1 <=? String.length d) = true) as ->.
      { apply Nat.leb_le. destruct d; [done|cbn; lia]. }
      assert ((String.length (String ","%char (nl +:+ r))
               <? String.length (" = " +:+ d +:+ String ","%char (nl +:+ r)))
              = true) as ->.
      { apply Nat.ltb_lt. rewrite !str_length_app. cbn. lia. }
      cbn [or_else].
      change (String ","%char (nl +:+ r)) with ("," +:+ nl +:+ r).
      rewrite comma_nl_found. done.
    + intros c s caps' Hc.
      destruct (_ <? _); [|done]. by apply comma_nl_class.
Qed.

Lemma match_here_default k s r :
  (∃ caps, match_here (default_pattern k) s = Some (r, caps))
  ↔ default_line k s r.
Proof.
  unfold match_here. fold found. split.
  - intros [caps H].
    destruct (rmatch (default_pattern k) s ∅ found) as [[r' caps']|] eqn:E;
      [|done].
    destruct (String.length r' <? String.length s); [|done].
    injection H as -> ->. by apply (default_match_line k s r caps).
  - intros Hline. destruct (default_line_match k s r Hline) as [caps ->].
    exists caps. apply default_line_length, Nat.ltb_lt in Hline.
    by rewrite Hline.
Qed.

(** X12.  The pattern of line 325 for a key [k] that stands for itself
    in a pattern, as the keys of the table do, matches at the start of a
    text in two cases only: the text is [k], a comma and a newline; or it
    is [k], [ = ], a default that is not empty and has neither comma nor
    newline, a comma and a newline.  The match ends after that newline.
    Nothing is asked of what stands before [k]. *)
Theorem default_pattern_matches (k s r : string) :
  (∃ caps, match_here (default_pattern k) s = Some (r, caps))
  ↔ (s = k +:+ "," +:+ nl +:+ r
     ∨ ∃ d, d ≠ EmptyString
            ∧ any_char (λ c, Ascii.eqb c "," || Ascii.eqb c "010") d = false
            ∧ s = k +:+ " = " +:+ d +:+ "," +:+ nl +:+ r).
Proof.
  rewrite match_here_default. unfold default_line.
  assert (Hsep : ∀ d, any_char separator d
                      = any_char (λ c, Ascii.eqb c "," || Ascii.eqb c "010") d).
  { induction d as [|c d IH]; [done|]. rewrite !any_char_cons, IH.
    unfold separator. cbn [existsb]. by rewrite orb_false_r. }
  split; (intros [H|(d & H1 & H2 & H3)]; [by left|right]); exists d.
  - by rewrite <- Hsep.
  - by rewrite Hsep.
Qed.

(** *** What follows the last comma *)

Lemma cut_before l a x c r :
  any_char (Ascii.eqb c) l = false →
  a +:+ l = x +:+ String c r →
  ∃ r', r = r' +:+ l ∧ a = x +:+ String c r'.
Proof.
  intros Hl. revert a. induction x as [|y x IH]; intros a H.
  - rewrite str_app_nil_l in H. destruct a as [|e a].
    + rewrite str_app_nil_l in H. subst l.
      by rewrite any_char_cons, Ascii.eqb_refl in Hl.
    + rewrite str_app_cons in H. injection H as -> <-. by exists a.
  - rewrite str_app_cons in H. destruct a as [|e a].
    + rewrite str_app_nil_l in H. subst l.
      rewrite any_char_cons, any_char_app, any_char_cons, Ascii.eqb_refl in Hl.
      by rewrite orb_true_l, !orb_true_r in Hl.
    + rewrite str_app_cons in H. injection H as -> H.
      destruct (IH a H) as (r' & -> & ->). by exists r'.
Qed.

Lemma default_line_app k a r l :
  default_line k a r → default_line k (a +:+ l) (r +:+ l).
Proof.
  intros [->|(d & Hd & Hsep & ->)]; [left|right; exists d; split_and!];
    try done; by rewrite !str_app_assoc.
Qed.

(** The text after a comma the cut does not separate from its newline. *)
Lemma cut_after_comma l r r1 :
  String.prefix nl l = false →
  nl +:+ r = r1 +:+ l → ∃ r', r1 = nl +:+ r' ∧ r = r' +:+ l.
Proof.
  intros Hl H. destruct r1 as [|e r1].
  - assert (l = nl +:+ r) as -> by (symmetry; exact H).
    by rewrite prefix_app in Hl.
  - change (String "010"%char r = String e (r1 +:+ l)) in H.
    injection H as <- ->. by exists r1.
Qed.

Lemma default_line_cut k a l r :
  any_char (Ascii.eqb ","%char) l = false → String.prefix nl l = false →
  default_line k (a +:+ l) r → ∃ r', r = r' +:+ l ∧ default_line k a r'.
Proof.
  intros Hl Hnl [H|(d & Hd & Hsep & H)].
  - change (k +:+ "," +:+ nl +:+ r) with (k +:+ String ","%char (nl +:+ r)) in H.
    apply (cut_before l) in H as (r1 & H1 & ->); [|done].
    apply cut_after_comma in H1 as (r' & -> & ->); [|done].
    exists r'. split; [done|]. by left.
  - rewrite <- (str_app_assoc k " = "), <- (str_app_assoc (k +:+ " = ") d) in H.
    change (((k +:+ " = ") +:+ d) +:+ "," +:+ nl +:+ r)
      with (((k +:+ " = ") +:+ d) +:+ String ","%char (nl +:+ r)) in H.
    apply (cut_before l) in H as (r1 & H1 & ->); [|done].
    apply cut_after_comma in H1 as (r' & -> & ->); [|done].
    exists r'. split; [done|]. right. exists d. split_and!; try done.
    by rewrite !str_app_assoc.
Qed.

Lemma match_here_default_cut k a l :
  any_char (Ascii.eqb ","%char) l = false → String.prefix nl l = false →
  match match_here (default_pattern k) a with
  | Some (r, _) =>
      ∃ caps, match_here (default_pattern k) (a +:+ l) = Some (r +:+ l, caps)
  | None => match_here (default_pattern k) (a +:+ l) = None
  end.
Proof.
  intros Hl Hnl.
  destruct (match_here (default_pattern k) a) as [[r caps]|] eqn:E.
  - apply match_here_default, default_line_app. apply match_here_default.
    by exists caps.
  - destruct (match_here (default_pattern k) (a +:+ l)) as [[r caps]|] eqn:E';
      [|done].
    assert (Hline : default_line k (a +:+ l) r).
    { apply match_here_default. by exists caps. }
    apply default_line_cut in Hline as (r' & _ & Hline); [|done..].
    apply match_here_default in Hline as [caps' Hm]. congruence.
Qed.

Lemma default_pattern_needs k : needs (default_pattern k) ",".
Proof.
  rewrite default_pattern_eq.
  apply needs_cat_r, needs_cat_r. change ("," +:+ nl) with (String ","%char nl).
  intros s caps k' m (s' & -> & _)%rmatch_lit_some. by apply contains_prefix.
Qed.

Lemma contains_char c s :
  contains (String c EmptyString) s = any_char (Ascii.eqb c) s.
Proof.
  induction s as [|d s IH]; [done|].
  rewrite contains_cons_eq, any_char_cons, IH, prefix_cons, prefix_nil_l.
  by rewrite andb_true_r.
Qed.

Lemma sub_default_cut k t l :
  any_char (Ascii.eqb ","%char) l = false → String.prefix nl l = false →
  ∀ a skip, skip ≤ String.length a →
    sub_go (default_pattern k) [Text t] None skip (a +:+ l)
    = sub_go (default_pattern k) [Text t] None skip a +:+ l.
Proof.
  intros Hl Hnl. induction a as [|c a IH]; intros skip Hskip.
  - cbn in Hskip. assert (skip = 0) as -> by lia.
    rewrite !str_app_nil_l.
    apply (sub_go_absent _ _ _ "," l (default_pattern_needs k)).
    by rewrite contains_char.
  - rewrite str_app_cons. destruct skip as [|n].
    + cbn [sub_go]. rewrite <- str_app_cons.
      pose proof (match_here_default_cut k (String c a) l Hl Hnl) as Hcut.
      destruct (match_here (default_pattern k) (String c a))
        as [[r caps]|] eqn:E.
      * destruct Hcut as [caps' ->].
        assert (Hlen : String.length r < String.length (String c a)).
        { apply (default_line_length k), match_here_default. by exists caps. }
        cbn [expand fmap option_fmap option_map].
        rewrite !str_length_app.
        replace (String.length (String c a) + String.length l
                 - (String.length r + String.length l) - 1)
          with (String.length (String c a) - String.length r - 1) by lia.
        rewrite IH by (cbn in Hlen |- *; lia).
        by rewrite !str_app_assoc.
      * rewrite Hcut, IH by lia. by rewrite str_app_cons.
    + cbn [sub_go]. apply IH. cbn in Hskip. lia.
Qed.

Lemma replace_defaults_cut table l :
  any_char (Ascii.eqb ","%char) l = false → String.prefix nl l = false →
  ∀ a, replace_defaults table (a +:+ l) = replace_defaults table a +:+ l.
Proof.
  intros Hl Hnl. unfold replace_defaults.
  induction table as [|[k v] table IH]; intros a; [done|].
  cbn [fold_left fst snd]. unfold re_sub.
  rewrite sub_default_cut by (done || lia). apply IH.
Qed.

(** X13.  The defaults are rewritten up to the last comma only: a text
    without comma that does not start with a newline, put after any
    arguments, is left as it is by every pass of lines 324-329.  The last
    parameter of a signature has no comma after it, so it keeps its
    default, its name being a key of the table or not. *)
Theorem replace_defaults_keeps_last (table : list (string * pyval))
    (arguments last : string) :
  contains "," last = false → startswith last nl = false →
  replace_defaults table (arguments +:+ last)
  = replace_defaults table arguments +:+ last.
Proof.
  intros Hl Hnl. apply replace_defaults_cut; [|done].
  by rewrite <- contains_char.
Qed.
(** ** The module handed to [create_new_function], lines 370-404 *)

Section CreatedModule.

Variable loads : created_module → bool.

Local Abbreviation patch :=
  (_patch_trl_rl_trainers loads).

Lemma synthesize_created trainer_file trainer tn cn RLTrainer RLConfig w w' :
  trainer_files w !! trainer_file = Some trainer →
  tn ≠ cn →
  synthesize loads trainer_file trainer tn cn RLTrainer RLConfig w
  = Patched w' →
  ∃ created exported_trainer exported_config,
    loads created = true
    ∧ trainer_attrs w !! tn = Some exported_trainer
    ∧ trainer_attrs w !! cn = Some exported_config
    ∧ trl_attrs w' !! tn
      = Some (synthesized created tn (obj_doc exported_trainer))
    ∧ trl_attrs w' !! cn
      = Some (synthesized created cn (obj_doc exported_config))
    ∧ cm_name created = "Unsloth" +:+ tn
    ∧ cm_location created = "trl.trainer." +:+ trainer_file
    ∧ ∀ x, In x (cm_imports created) →
           In x (mod_dir trainer) ∧ startswith x "_" = false.
Proof.
  intros Hfile Hne. unfold synthesize.
  destruct (introspect RLTrainer ≫= init_signature) as [tp|]; [|done].
  destruct (introspect RLConfig ≫= init_signature) as [cp|]; [|done].
  destruct (add_tokenizer cp (process_signature tp)) as [targs tcall].
  destruct (process_signature cp) as [cargs ccall].
  destruct (patch_vllm _ _ _ _ _) as [[extras imports]|] eqn:Hvllm; [|done].
  apply patch_vllm_imports_spec in Hvllm as (extra & -> & Hextra).
  destruct (trainer_attrs w !! tn) as [et|] eqn:Het; [|done].
  destruct (trainer_attrs w !! cn) as [ec|] eqn:Hec; [|done].
  unfold create_new_function.
  match goal with |- context [loads ?m] =>
    set (created := m); destruct (loads created) eqn:Hloads; [|done] end.
  destruct (rebind trainer_file tn _ w) as [w1|] eqn:H1; [|done].
  destruct (rebind trainer_file cn _ w1) as [w2|] eqn:H2; [|done].
  intros [= <-].
  apply rebind_spec in H1 as (m1 & _ & Ha1 & _).
  apply rebind_spec in H2 as (m2 & _ & Ha2 & _).
  exists created, et, ec. split_and!; try done.
  - rewrite Ha2, Ha1. rewrite lookup_insert_ne by done.
    apply lookup_insert_eq.
  - rewrite Ha2. apply lookup_insert_eq.
  - intros x [Hx|Hx]%in_app_iff.
    + apply filter_In in Hx as [Hin Hx]. by apply negb_true_iff in Hx.
    + by apply Hextra.
Qed.

(** One module was created for the call: named [Unsloth<trainer>],
    placed at [trl.trainer.<trainer_file>], importing names that [dir]
    lists for the submodule and that do not start with an underscore; the
    two classes bound come from it, each with the docstring of the class
    [trl.trainer] exported under that name before the call. *)
Definition module_created (trainer_file : string) (w w' : world) : Prop :=
  ∃ trainer tn cn created exported_trainer exported_config,
    trainer_files w !! trainer_file = Some trainer
    ∧ loads created = true
    ∧ trainer_attrs w !! tn = Some exported_trainer
    ∧ trainer_attrs w !! cn = Some exported_config
    ∧ trl_attrs w' !! tn
      = Some (synthesized created tn (obj_doc exported_trainer))
    ∧ trl_attrs w' !! cn
      = Some (synthesized created cn (obj_doc exported_config))
    ∧ cm_name created = "Unsloth" +:+ tn
    ∧ cm_location created = "trl.trainer." +:+ trainer_file
    ∧ ∀ x, In x (cm_imports created) →
           In x (mod_dir trainer) ∧ startswith x "_" = false.

(** X14.  A call that runs to its end has had one module created: it is
    named [Unsloth<trainer>] and placed at [trl.trainer.<trainer_file>];
    the names it is told to import are names [dir] lists for the
    submodule that do not start with an underscore; the two classes bound
    come from it, each with the docstring of the class [trl.trainer]
    exported under that name before the call. *)
Theorem created_module_of_patch (trainer_file : string) (w w' : world) :
  patch trainer_file w = Patched w' → module_created trainer_file w w'.
Proof.
  intros H.
  destruct (patch_patched _ _ _ _ H)
    as (trainer & tn & cn & T & Cf & Hres & _ & _ & Hs).
  pose proof Hres as (Hfile & Hn & Hc & _ & _).
  destruct (filter_singleton _ _ _ Hn) as [Hpn _].
  destruct (filter_singleton _ _ _ Hc) as [Hpc _].
  assert (Hne : tn ≠ cn) by by apply (trainer_config_distinct trainer_file).
  destruct (synthesize_created _ _ _ _ _ _ _ _ Hfile Hne Hs)
    as (created & et & ec & Hrest).
  exists trainer, tn, cn, created, et, ec. by split.
Qed.

End CreatedModule.

(** ** The generation context manager: leaving before the body *)

Section UnwrapNotEntered.

Variable value : Type.
Variable is_tensor : value → bool.
Variable clone : value → value.
Variable inference_effect training_effect
  : pyref → gmap pyref (generate_fn value) → gmap pyref (generate_fn value).
Variable trl_enter
  : pyref → gmap pyref (generate_fn value)
    → option (pyref * gmap pyref (generate_fn value)).
Variable trl_exit
  : pyref → gmap pyref (generate_fn value) → gmap pyref (generate_fn value).

Local Abbreviation run :=
  (unsloth_unwrap_model_for_generation value is_tensor clone
     inference_effect training_effect trl_enter trl_exit).

(** X15.  When the model the manager of TRL yields has no [generate]
    after [for_inference], the statement raises before its [try]: the
    body is not run, nothing is put on the model, the manager of TRL is
    left, and [for_inference] is the last call made on
    [FastLanguageModel]: [for_training] is not called. *)
Theorem unwrap_without_generate (model unwrapped_model : pyref)
    (body : pyref → models value → models value * completion)
    (st : models value) (g : gmap pyref (generate_fn value)) :
  trl_enter model (generate value st) = Some (unwrapped_model, g) →
  inference_effect unwrapped_model g !! unwrapped_model = None →
  run model body st
  = ({| generate := trl_exit model (inference_effect unwrapped_model g);
        log := log value st ++ [ForInference unwrapped_model] |},
     Exception)
  ∧ ∀ body', run model body' st = run model body st.
Proof.
  intros Henter Hgen.
  assert (H : ∀ b, run model b st
            = ({| generate := trl_exit model (inference_effect unwrapped_model g);
                  log := log value st ++ [ForInference unwrapped_model] |},
               Exception)).
  { intros b. unfold unsloth_unwrap_model_for_generation.
    rewrite Henter. cbn. by rewrite Hgen. }
  split; [apply H|]. intros body'. by rewrite !H.
Qed.

End UnwrapNotEntered.

(** ** [patch_trl_rl_trainers]: one trainer after another *)

Section PatchSequence.

Variable loads : created_module → bool.

Lemma patch_each_app l1 l2 w :
  patch_each loads (l1 ++ l2) w
  = match patch_each loads l1 w with
    | Returned w1 => patch_each loads l2 w1
    | Failed w1 => Failed w1
    end.
Proof.
  revert w. induction l1 as [|t l1 IH]; intros w; [done|].
  cbn [app patch_each].
  destruct (_patch_trl_rl_trainers loads t w); by rewrite ?IH.
Qed.

(** X16.  The loop of lines 545-546 patches the trainers in the order
    of the list, each in the namespaces the ones before it left; and it
    has no handler: when the call for one trainer raises, the run ends
    there, the namespaces are as the trainers before it left them, and
    no trainer after it is looked at. *)
Theorem patch_each_stops_at_raise (before : list string)
    (trainer : string) (w w1 w2 : world) :
  patch_each loads before w = Returned w1 →
  _patch_trl_rl_trainers loads trainer w1 = Raised w2 →
  w2 = w1
  ∧ ∀ after, patch_each loads (before ++ trainer :: after) w = Failed w1.
Proof.
  intros Hbefore Hraise.
  pose proof (patch_raised loads trainer w1 w2 Hraise) as ->.
  split; [done|]. intros after.
  rewrite patch_each_app, Hbefore. cbn [patch_each]. by rewrite Hraise.
Qed.

End PatchSequence.
(** ** The substitutions of [patch_vllm] where they apply *)

Lemma rmatch_plus_run cs s caps k :
  (∀ c s caps, in_charset cs c = true → k (String c s) caps = None) →
  rmatch (plus (One cs)) s caps k
  = let '(run, rest) := span (in_charset cs) s in
    if 1 <=? String.length run then k rest caps else None.
Proof.
  intros Hk. unfold plus. rewrite rmatch_rep. by apply rep_go_run; [|lia].
Qed.

Lemma rmatch_star_run cs s caps k :
  (∀ c s caps, in_charset cs c = true → k (String c s) caps = None) →
  rmatch (star (One cs)) s caps k
  = let '(run, rest) := span (in_charset cs) s in k rest caps.
Proof.
  intros Hk. unfold star. rewrite rmatch_rep, rep_go_run by (done || lia).
  by destruct (span _ s).
Qed.

(** *** The header of [__init__], lines 429-437 *)

Definition blank : charset := Only " "%char.

Lemma span_spaces n c t :
  Ascii.eqb c " " = false →
  span (in_charset blank) (spaces n +:+ String c t) = (spaces n, String c t).
Proof.
  intros Hc. apply span_stop; [|done].
  induction n as [|n IH]; [done|]. cbn [spaces]. by rewrite any_char_cons, IH.
Qed.

(** Blanks before a text that does not start with one. *)
Lemma rmatch_blanks r n c t caps k :
  Ascii.eqb c " " = false →
  (∀ s caps, rmatch r (String " "%char s) caps k = None) →
  rmatch (Cat (star (One blank)) r) (spaces n +:+ String c t) caps k
  = rmatch r (String c t) caps k.
Proof.
  intros Hc Hr. rewrite rmatch_cat, rmatch_star_run.
  - by rewrite span_spaces.
  - intros d s caps' Hd. apply Ascii.eqb_eq in Hd as ->. apply Hr.
Qed.

Lemma rmatch_blanks_end n c t caps k :
  Ascii.eqb c " " = false →
  (∀ s caps, k (String " "%char s) caps = None) →
  rmatch (star (One blank)) (spaces n +:+ String c t) caps k
  = k (String c t) caps.
Proof.
  intros Hc Hk. rewrite rmatch_star_run.
  - by rewrite span_spaces.
  - intros d s caps' Hd. apply Ascii.eqb_eq in Hd as ->. apply Hk.
Qed.

Lemma rep_go_exact cs k n :
  ∀ fuel d t caps,
    String.length d = n → n ≤ fuel →
    any_char (λ c, negb (in_charset cs c)) d = false →
    rep_go (rmatch (One cs)) k true fuel n (Some n) (d +:+ t) caps = k t caps.
Proof.
  induction n as [|n IH]; intros fuel d t caps Hlen Hfuel Hd.
  - destruct d; [|done]. apply rep_go_max0.
  - destruct d as [|c d]; [done|]. destruct fuel as [|fuel]; [lia|].
    rewrite any_char_cons in Hd. apply orb_false_iff in Hd as [Hc Hd].
    apply negb_false_iff in Hc.
    rewrite rep_go_S. cbn zeta. cbn [fmap option_fmap option_map pred].
    rewrite str_app_cons. cbn [rmatch]. rewrite Hc.
    assert ((String.length (d +:+ t) <? String.length (String c (d +:+ t)))
            = true) as ->.
    { apply Nat.ltb_lt. cbn. lia. }
    rewrite IH by (done || (cbn in Hlen; lia)). apply or_else_none_r.
Qed.

Lemma rmatch_exactly cs n d t caps k :
  String.length d = n →
  any_char (λ c, negb (in_charset cs c)) d = false →
  rmatch (exactly n (One cs)) (d +:+ t) caps k = k t caps.
Proof.
  intros Hlen Hd. unfold exactly. rewrite rmatch_rep.
  apply rep_go_exact; [done| |done]. rewrite str_length_app. lia.
Qed.

(** The header the pattern looks for: the closing parenthesis, the
    annotation [-> None] with any blanks around its parts, the colon, the
    newline and four characters of white space. *)
Definition none_annotation (n1 n2 n3 : nat) : string :=
  spaces n1 +:+ "->" +:+ spaces n2 +:+ "None" +:+ spaces n3.

Definition init_header (n1 n2 n3 : nat) (ind : string) : string :=
  ")" +:+ none_annotation n1 n2 n3 +:+ ":" +:+ nl +:+ ind.

Lemma signature_end_found n1 n2 n3 ind b :
  String.length ind = 4 →
  any_char (λ c, negb (is_space c)) ind = false →
  ∃ caps,
    rmatch signature_end (init_header n1 n2 n3 ind +:+ b) ∅ found
    = Some (b, caps)
    ∧ caps !! 2 = Some ind.
Proof.
  intros Hlen Hind. unfold signature_end, init_header, none_annotation.
  rewrite !str_app_assoc.
  rewrite rmatch_cat, rmatch_lit_app.
  rewrite rmatch_cat, rmatch_group.
  change ("->" +:+ spaces n2 +:+ "None" +:+ spaces n3 +:+ ":" +:+ nl +:+ ind
          +:+ b)
    with (String "-"%char
            (">" +:+ spaces n2 +:+ "None" +:+ spaces n3 +:+ ":" +:+ nl +:+ ind
             +:+ b)).
  rewrite rmatch_blanks;
    [|done|by intros; rewrite rmatch_cat; apply rmatch_lit_none].
  change (String "-"%char
            (">" +:+ spaces n2 +:+ "None" +:+ spaces n3 +:+ ":" +:+ nl +:+ ind
             +:+ b))
    with ("->" +:+ spaces n2 +:+ "None" +:+ spaces n3 +:+ ":" +:+ nl +:+ ind
          +:+ b).
  rewrite rmatch_cat, rmatch_lit_app.
  change ("None" +:+ spaces n3 +:+ ":" +:+ nl +:+ ind +:+ b)
    with (String "N"%char ("one" +:+ spaces n3 +:+ ":" +:+ nl +:+ ind +:+ b)).
  rewrite rmatch_blanks;
    [|done|by intros; rewrite rmatch_cat; apply rmatch_lit_none].
  change (String "N"%char ("one" +:+ spaces n3 +:+ ":" +:+ nl +:+ ind +:+ b))
    with ("None" +:+ spaces n3 +:+ ":" +:+ nl +:+ ind +:+ b).
  rewrite rmatch_cat, rmatch_lit_app.
  change (":" +:+ nl +:+ ind +:+ b)
    with (String ":"%char (nl +:+ ind +:+ b)).
  rewrite rmatch_blanks_end;
    [|done|by intros; rewrite rmatch_cat; apply rmatch_lit_none].
  change (String ":"%char (nl +:+ ind +:+ b))
    with ((":" +:+ nl) +:+ ind +:+ b).
  rewrite rmatch_cat, rmatch_lit_app, rmatch_group.
  rewrite rmatch_exactly by done.
  eexists. split; [reflexivity|].
  etrans; [apply lookup_insert_eq|]. f_equal.
  rewrite str_length_app.
  replace (String.length ind + String.length b - String.length b)
    with (String.length ind) by lia.
  apply take_app.
Qed.

Lemma signature_end_starts c s :
  Ascii.eqb c ")" = false → match_here signature_end (String c s) = None.
Proof.
  intros Hc. unfold match_here, signature_end.
  rewrite rmatch_cat, rmatch_lit_none; [done|].
  by rewrite prefix_cons, Ascii.eqb_sym, Hc.
Qed.

Lemma sub_go_done r template q t :
  sub_go r template (Some 0) (String.length q) (q +:+ t) = t.
Proof. induction q as [|c q IH]; [by destruct t|]. exact IH. Qed.

(** X17.  Where the source of [__init__] has no closing parenthesis
    before the one of its header, and the header ends in [-> None]
    (blanks around the parts as they come), a colon, a newline and four
    characters of white space, line 430 drops the annotation and puts the
    line that sets [args.use_vllm] first in the body, eight columns in;
    what follows the header is kept as it is, later headers too. *)
Theorem set_use_vllm_header (a ind b : string) (n1 n2 n3 : nat) :
  contains ")" a = false →
  String.length ind = 4 →
  any_char (λ c, negb (is_space c)) ind = false →
  set_use_vllm
    (a +:+ ")" +:+ spaces n1 +:+ "->" +:+ spaces n2 +:+ "None" +:+ spaces n3
     +:+ ":" +:+ nl +:+ ind +:+ b)
  = a +:+ "):" +:+ nl +:+ ind
    +:+ "    if hasattr(model, 'vllm_engine') and getattr(args, 'use_vllm') and getattr(args, 'use_vllm', False): args.use_vllm = True"
    +:+ nl +:+ ind +:+ b.
Proof.
  intros Ha Hlen Hind.
  destruct (signature_end_found n1 n2 n3 ind b Hlen Hind)
    as (caps & Hm & Hcaps).
  unfold init_header, none_annotation in Hm. rewrite !str_app_assoc in Hm.
  unfold set_use_vllm, re_sub_n.
  induction a as [|c a IH].
  - rewrite !str_app_nil_l.
    change (")" +:+ spaces n1 +:+ "->" +:+ spaces n2 +:+ "None" +:+ spaces n3
            +:+ ":" +:+ nl +:+ ind +:+ b)
      with (String ")"%char
              (spaces n1 +:+ "->" +:+ spaces n2 +:+ "None" +:+ spaces n3
               +:+ ":" +:+ nl +:+ ind +:+ b)) in Hm |- *.
    cbn [sub_go]. unfold match_here. fold found. rewrite Hm.
    assert ((String.length b
             <? String.length
                  (String ")"%char
                     (spaces n1 +:+ "->" +:+ spaces n2 +:+ "None"
                      +:+ spaces n3 +:+ ":" +:+ nl +:+ ind +:+ b))) = true)
      as ->.
    { apply Nat.ltb_lt. cbn [String.length]. rewrite !str_length_app. lia. }
    cbn [fmap option_fmap option_map pred].
    unfold use_vllm_line. cbn [expand]. rewrite Hcaps. cbn [default].
    rewrite !str_app_assoc, str_app_nil_l.
    do 6 f_equal.
    set (h := spaces n1 +:+ "->" +:+ spaces n2 +:+ "None" +:+ spaces n3
              +:+ ":" +:+ nl +:+ ind).
    replace (spaces n1 +:+ "->" +:+ spaces n2 +:+ "None" +:+ spaces n3
             +:+ ":" +:+ nl +:+ ind +:+ b) with (h +:+ b)
      by (unfold h; by rewrite !str_app_assoc).
    cbn [String.length]. rewrite str_length_app.
    replace (S (String.length h + String.length b) - String.length b - 1)
      with (String.length h) by lia.
    apply sub_go_done.
  - rewrite contains_cons_eq in Ha. apply orb_false_iff in Ha as [Hc Ha].
    rewrite !str_app_cons. cbn [sub_go].
    rewrite signature_end_starts.
    + f_equal. by apply IH.
    + rewrite prefix_cons, prefix_nil_l, andb_true_r in Hc.
      by rewrite Ascii.eqb_sym.
Qed.

(** *** Removing [.state_dict()], lines 501-506 *)

Lemma match_here_lit_app t r :
  t ≠ EmptyString → match_here (lit t) (t +:+ r) = Some (r, ∅).
Proof.
  intros Ht. unfold match_here. rewrite rmatch_lit_app.
  assert ((String.length r <? String.length (t +:+ r)) = true) as ->; [|done].
  apply Nat.ltb_lt. rewrite str_length_app. destruct t; [done|cbn; lia].
Qed.

Lemma match_here_lit_none t s :
  String.prefix t s = false → match_here (lit t) s = None.
Proof. intros H. unfold match_here. by rewrite rmatch_lit_none. Qed.

(** A substitution of a literal text by nothing is a [str.replace]. *)
Lemma sub_lit_replace t :
  t ≠ EmptyString →
  ∀ s skip, sub_go (lit t) [] None skip s = replace_go t EmptyString None skip s.
Proof.
  intros Ht. induction s as [s IH] using (induction_ltof1 _ String.length).
  unfold ltof in IH. intros skip. destruct s as [|c s]; [done|].
  destruct skip as [|n]; cbn [sub_go replace_go]; [|apply IH; cbn; lia].
  destruct (String.prefix t (String c s)) eqn:Hp.
  - apply prefix_split in Hp as [r Hr]. rewrite Hr, match_here_lit_app by done.
    cbn [expand fmap option_fmap option_map]. rewrite <- Hr.
    rewrite IH by (cbn; lia). f_equal. f_equal.
    rewrite Hr, str_length_app. lia.
  - rewrite match_here_lit_none by done. f_equal. apply IH. cbn. lia.
Qed.

Lemma re_sub_lit_replace t s :
  t ≠ EmptyString → re_sub (lit t) [] s = replace t EmptyString s.
Proof.
  intros Ht. unfold re_sub. rewrite sub_lit_replace by done.
  by rewrite replace_nonempty.
Qed.

(** X18.  The third substitution removes every [.state_dict()] from the
    source of a method, as [str.replace] with an empty text would: the
    occurrences from left to right, none overlapping.  For a method with
    neither [model_executor.driver_worker] nor [load_weights(], and with
    no [self.llm.] once that is done, this is all the four substitutions
    do. *)
Theorem redirect_removes_state_dict (lora_name source : string) :
  re_sub (lit ".state_dict()") [] source
  = replace ".state_dict()" EmptyString source
  ∧ (contains "model_executor.driver_worker" source = false →
     contains "load_weights(" source = false →
     contains "self.llm." (replace ".state_dict()" EmptyString source)
     = false →
     redirect_vllm_calls lora_name source
     = replace ".state_dict()" EmptyString source).
Proof.
  split; [by apply re_sub_lit_replace|]. intros H1 H2 H3.
  unfold redirect_vllm_calls.
  rewrite (re_sub_absent (line_with "model_executor.driver_worker") _ _ source
             (line_with_needs _) H1).
  rewrite (re_sub_absent (line_with "load_weights(") _ _ source
             (line_with_needs _) H2).
  rewrite re_sub_lit_replace by done.
  apply (re_sub_absent llm_call _ _ _ llm_call_needs H3).
Qed.

(** *** The calls of the engine, lines 508-514 *)

Definition not_closing : charset := NoneOf [")"%char].

(** A call of [generate] or [chat] on [self.llm] up to its first closing
    parenthesis. *)
Definition engine_call (method args rest s : string) : Prop :=
  (method = "generate" ∨ method = "chat")
  ∧ args ≠ EmptyString
  ∧ any_char (λ c, Ascii.eqb c ")") args = false
  ∧ s = "self.llm." +:+ method +:+ "(" +:+ args +:+ ")" +:+ rest.

Lemma closing_class c s caps k :
  in_charset not_closing c = true →
  rmatch (lit ")") (String c s) caps k = None.
Proof.
  intros Hc. apply rmatch_lit_none. rewrite prefix_cons.
  unfold not_closing in Hc. cbn [in_charset existsb] in Hc.
  rewrite orb_false_r in Hc. apply negb_true_iff in Hc.
  by rewrite Ascii.eqb_sym, Hc.
Qed.

Lemma any_char_not_closing args :
  any_char (λ c, negb (in_charset not_closing c)) args
  = any_char (λ c, Ascii.eqb c ")") args.
Proof.
  induction args as [|c args IH]; [done|]. rewrite !any_char_cons, IH.
  cbn [in_charset not_closing existsb].
  by rewrite orb_false_r, negb_involutive.
Qed.

(** What the pattern does after the name of the method. *)
Lemma llm_arguments_eq s3 (k : string → captures → option matched) caps :
  (∀ c s caps, in_charset not_closing c = true → k (String c s) caps = None) →
  rmatch (Cat (lit "(") (plus (One not_closing))) ("(" +:+ s3) caps k
  = let '(run, rest) := span (in_charset not_closing) s3 in
    if 1 <=? String.length run then k rest caps else None.
Proof.
  intros Hk. rewrite rmatch_cat, rmatch_lit_app. by apply rmatch_plus_run.
Qed.

Lemma llm_call_eq s :
  rmatch llm_call s ∅ found
  = rmatch (Cat (lit "self.llm.")
              (Cat (Alt (lit "generate") (lit "chat"))
                 (Cat (lit "(") (plus (One not_closing)))))
      s ∅
      (λ s' caps',
         rmatch (lit ")") s'
           (<[1 := take (String.length s - String.length s') s]> caps') found).
Proof. reflexivity. Qed.

Lemma rmatch_alt r1 r2 s caps k :
  rmatch (Alt r1 r2) s caps k
  = or_else (rmatch r1 s caps k) (rmatch r2 s caps k).
Proof. reflexivity. Qed.

Lemma llm_call_found method args rest s :
  engine_call method args rest s →
  rmatch llm_call s ∅ found
  = Some (rest, {[1 := "self.llm." +:+ method +:+ "(" +:+ args]}).
Proof.
  intros (Hmethod & Hargs & Hclose & ->). rewrite llm_call_eq.
  set (s := "self.llm." +:+ method +:+ "(" +:+ args +:+ ")" +:+ rest).
  rewrite rmatch_cat. unfold s at 1. rewrite rmatch_lit_app, rmatch_cat.
  rewrite rmatch_alt.
  assert (Htail : ∀ caps,
    rmatch (Cat (lit "(") (plus (One not_closing)))
      ("(" +:+ args +:+ ")" +:+ rest) caps
      (λ s' caps',
         rmatch (lit ")") s'
           (<[1 := take (String.length s - String.length s') s]> caps') found)
    = Some (rest,
            <[1 := "self.llm." +:+ method +:+ "(" +:+ args]> caps)).
  { intros caps. rewrite llm_arguments_eq
      by (intros; by apply closing_class).
    change (")" +:+ rest) with (String ")"%char rest).
    rewrite span_stop; [|by rewrite any_char_not_closing|done].
    assert ((1 <=? String.length args) = true) as ->.
    { apply Nat.leb_le. destruct args; [done|cbn; lia]. }
    change (String ")"%char rest) with (")" +:+ rest).
    rewrite rmatch_lit_app. unfold found. do 3 f_equal.
    unfold s.
    replace ("self.llm." +:+ method +:+ "(" +:+ args +:+ ")" +:+ rest)
      with (("self.llm." +:+ method +:+ "(" +:+ args) +:+ ")" +:+ rest)
      by (by rewrite !str_app_assoc).
    rewrite str_length_app.
    replace (String.length ("self.llm." +:+ method +:+ "(" +:+ args)
             + String.length (")" +:+ rest) - String.length (")" +:+ rest))
      with (String.length ("self.llm." +:+ method +:+ "(" +:+ args)) by lia.
    apply take_app. }
  destruct Hmethod as [-> | ->].
  - rewrite rmatch_lit_app. cbn beta. rewrite Htail. done.
  - rewrite (rmatch_lit_none "generate") by done.
    cbn [or_else]. rewrite rmatch_lit_app. cbn beta. rewrite Htail. done.
Qed.

Lemma llm_call_inv s rest caps :
  rmatch llm_call s ∅ found = Some (rest, caps) →
  ∃ method args, engine_call method args rest s.
Proof.
  rewrite llm_call_eq, rmatch_cat.
  intros (s1 & Hs & H)%rmatch_lit_some.
  rewrite rmatch_cat, rmatch_alt in H.
  assert (Htail : ∀ s2,
    rmatch (Cat (lit "(") (plus (One not_closing))) s2 ∅
      (λ s' caps',
         rmatch (lit ")") s'
           (<[1 := take (String.length s - String.length s') s]> caps') found)
    = Some (rest, caps) →
    ∃ args, args ≠ EmptyString
            ∧ any_char (λ c, Ascii.eqb c ")") args = false
            ∧ s2 = "(" +:+ args +:+ ")" +:+ rest).
  { intros s2 H2.
    assert (Hs3 : ∃ s3, s2 = "(" +:+ s3).
    { rewrite rmatch_cat in H2.
      apply rmatch_lit_some in H2 as (s3 & -> & _). by exists s3. }
    destruct Hs3 as [s3 ->].
    rewrite llm_arguments_eq in H2 by (intros; by apply closing_class).
    destruct (span _ s3) as [run rest'] eqn:Hspan.
    apply span_spec in Hspan as [-> Hrun].
    destruct (1 <=? String.length run) eqn:Hlen; [|done].
    apply rmatch_lit_some in H2 as (r & -> & [= <- _]).
    exists run. split_and!; [by destruct run| |done].
    by rewrite any_char_not_closing in Hrun. }
  apply or_else_some in H as [H|H].
  - apply rmatch_lit_some in H as (s2 & -> & H).
    destruct (Htail _ H) as (args & Hargs & Hclose & ->).
    exists "generate", args. split_and!; try done. by left.
  - apply rmatch_lit_some in H as (s2 & -> & H).
    destruct (Htail _ H) as (args & Hargs & Hclose & ->).
    exists "chat", args. split_and!; try done. by right.
Qed.

(** X19.  The pattern of line 511 matches at the start of a text exactly
    when the text is [self.llm.generate(] or [self.llm.chat(], arguments
    that are not empty and have no closing parenthesis, and a closing
    parenthesis; the group is the call without that parenthesis, so the
    text put for the match is the call with the LoRA request as its last
    argument.  The parenthesis that ends the match is the first one after
    the opening one: arguments that hold a call of their own are cut at
    the parenthesis that closes that call. *)
Theorem llm_call_matches (lora_name s rest : string) (caps : captures) :
  match_here llm_call s = Some (rest, caps)
  ↔ ∃ method args,
      (method = "generate" ∨ method = "chat")
      ∧ args ≠ EmptyString
      ∧ any_char (λ c, Ascii.eqb c ")") args = false
      ∧ s = "self.llm." +:+ method +:+ "(" +:+ args +:+ ")" +:+ rest
      ∧ caps = {[1 := "self.llm." +:+ method +:+ "(" +:+ args]}
      ∧ expand
          [ Backref 1;
            Text (", lora_request = self.model.load_lora('" +:+ lora_name +:+
                  "', load_tensors = True))") ] caps
        = "self.llm." +:+ method +:+ "(" +:+ args
          +:+ ", lora_request = self.model.load_lora('" +:+ lora_name
          +:+ "', load_tensors = True))".
Proof.
  unfold match_here. fold found. split.
  - intros H.
    destruct (rmatch llm_call s ∅ found) as [[r c]|] eqn:E; [|done].
    destruct (String.length r <? String.length s); [|done].
    injection H as -> ->.
    destruct (llm_call_inv _ _ _ E) as (method & args & Hcall).
    pose proof (llm_call_found _ _ _ _ Hcall) as E'.
    rewrite E in E'. injection E' as ->.
    destruct Hcall as (Hm & Ha & Hc & Hs).
    exists method, args. split_and!; try done.
    cbn [expand].
    assert (Hl : ({[1 := "self.llm." +:+ method +:+ "(" +:+ args]} : captures)
                 !! 1
                 = Some ("self.llm." +:+ method +:+ "(" +:+ args))
      by apply lookup_singleton_eq.
    rewrite Hl. cbn [from_option]. unfold id.
    by rewrite !str_app_assoc, str_app_nil_r.
  - intros (method & args & Hm & Ha & Hc & Hs & -> & _).
    rewrite (llm_call_found method args rest s) by done.
    assert ((String.length rest <? String.length s) = true) as ->; [|done].
    apply Nat.ltb_lt. rewrite Hs, !str_length_app. cbn. lia.
Qed.

(** *** The tokenizer alias, lines 180-187 *)

Lemma contains_replace old new s :
  old ≠ EmptyString → contains old s = true →
  contains new (replace old new s) = true.
Proof.
  intros Hold. rewrite replace_nonempty by done.
  induction s as [|c s IH].
  - destruct old; [done|]. by rewrite contains_nil.
  - rewrite contains_cons_eq, replace_go_cons.
    destruct (String.prefix old (String c s)) eqn:Hp.
    + intros _. apply contains_prefix, prefix_app.
    + cbn [orb]. intros H. by apply contains_cons, IH.
Qed.

(** X20.  Whether the trainer gets the [tokenizer] alias is read off
    [parameters] as the loop of line 156 leaves it: the signature of the
    config class.  A config without [processing_class], or with
    [tokenizer], leaves the texts of the trainer as they are whatever the
    trainer takes; a config with [processing_class] and without
    [tokenizer] adds [tokenizer = None] as the last argument, and, for a
    trainer that forwards [processing_class], the forwarded text passes
    [tokenizer] when it is given. *)
Theorem add_tokenizer_by_config (parameters trainer_parameters : signature) :
  (has_parameter "processing_class" parameters = false
   ∨ has_parameter "tokenizer" parameters = true →
   add_tokenizer parameters (process_signature trainer_parameters)
   = process_signature trainer_parameters)
  ∧ (has_parameter "processing_class" parameters = true →
     has_parameter "tokenizer" parameters = false →
     (add_tokenizer parameters (process_signature trainer_parameters)).1
     = (process_signature trainer_parameters).1
       +:+ "," +:+ nl +:+ spaces 8 +:+ "tokenizer = None"
     ∧ ((∃ v, In ("processing_class", v) trainer_parameters ∧ v ≠ VOther) →
        contains
          "processing_class = tokenizer if tokenizer is not None else processing_class"
          (add_tokenizer parameters (process_signature trainer_parameters)).2
        = true)).
Proof.
  unfold add_tokenizer.
  destruct (process_signature trainer_parameters) as [arguments call_args]
    eqn:Hsig.
  split.
  - intros [H|H]; rewrite H; [by rewrite andb_false_r|by cbn [negb andb]].
  - intros H1 H2. rewrite H1, H2. cbn [negb andb fst snd]. split; [done|].
    intros (v & Hin & Hv). apply contains_replace; [done|].
    assert (Hcall : call_args = (process_signature trainer_parameters).2)
      by by rewrite Hsig.
    rewrite Hcall, process_signature_kept. cbn [snd].
    apply contains_app_r, contains_app_r.
    assert (Hk : In ("processing_class", v)
                   (List.filter kept trainer_parameters)).
    { apply filter_In. split; [done|]. by apply kept_spec. }
    apply (in_map forward_text) in Hk.
    change (forward_text ("processing_class", v))
      with "processing_class = processing_class" in Hk.
    clear -Hk.
    induction (map forward_text (List.filter kept trainer_parameters))
      as [|x [|y l] IH]; [done| |].
    + destruct Hk as [->|[]]. by vm_compute.
    + rewrite join_cons. destruct Hk as [->|Hk].
      * apply contains_prefix, prefix_app.
      * apply contains_app_r, contains_app_r. by apply IH.
Qed.
(** ** The length check, lines 245-262 *)

(** The statement of line 260. *)
Definition lower_max_seq_length : string :=
  "args.max_seq_length = model_max_seq_length".

(** The blocks before the call of the statistics, by the three tests. *)
Definition preamble_blocks (args model eval_dataset : bool) : string :=
  when (args && model) mixed_precision +:+
  when args
    (when eval_dataset check_eval_dataset +:+ check_ga +:+ eval_changes) +:+
  when model length_check +:+
  when model training_check.

(** The preamble up to the name of the trainer file. *)
Lemma trainer_extra_args_quote trainer_file call_args :
  ∃ pre,
    trainer_extra_args trainer_file call_args
    = pre +:+ String "'"%char (trainer_file +:+ String "'"%char (")" +:+ nl))
    ∧ contains lower_max_seq_length pre = false
    ∧ contains lower_max_seq_length (indent8 pre) = false.
Proof.
  unfold trainer_extra_args. rewrite statistics_call_end.
  exists (preamble_blocks (contains "args" call_args)
            (contains "model" call_args) (contains "eval_dataset" call_args)
          +:+ "from unsloth_zoo.logging_utils import PatchRLStatistics"
          +:+ nl +:+ "PatchRLStatistics(").
  destruct (contains "args" call_args), (contains "model" call_args),
    (contains "eval_dataset" call_args);
    (split; [vm_compute; reflexivity|split; vm_compute; reflexivity]).
Qed.

(** X21.  The literals of lines 256-260 follow a line without
    continuation mark and are no part of [length_check]: the preamble of
    a synthesized trainer never has the statement that lowers
    [args.max_seq_length] to the maximum of the model, whatever the
    constructor forwards, before it is indented and after (the name of
    the trainer file not holding the statement, and no newline). *)
Theorem max_seq_length_never_lowered (trainer_file call_args : string) :
  contains "args.max_seq_length = model_max_seq_length" trainer_file = false →
  contains "args.max_seq_length = model_max_seq_length"
    (trainer_extra_args trainer_file call_args) = false
  ∧ (any_char (Ascii.eqb "010"%char) trainer_file = false →
     contains "args.max_seq_length = model_max_seq_length"
       (indent8 (trainer_extra_args trainer_file call_args)) = false).
Proof.
  intros Hfile.
  destruct (trainer_extra_args_quote trainer_file call_args)
    as (pre & Heq & Hpre & Hind).
  fold lower_max_seq_length in Hfile |- *.
  assert (Hne : lower_max_seq_length ≠ EmptyString) by done.
  assert (Hq : any_char (Ascii.eqb "'"%char) lower_max_seq_length = false)
    by reflexivity.
  rewrite Heq. split.
  - rewrite contains_split_char, Hpre by done.
    rewrite contains_split_char, Hfile by done. reflexivity.
  - intros Hnl. rewrite indent8_app, nl_indent_cons.
    change (Ascii.eqb "'" "010") with false. cbn match.
    rewrite nl_indent_app, (nl_indent_id trainer_file Hnl).
    rewrite nl_indent_cons. change (Ascii.eqb "'" "010") with false. cbn match.
    rewrite contains_split_char, Hind by done.
    rewrite contains_split_char, Hfile by done. reflexivity.
Qed.
(** ** The added properties at sample inputs *)




(** A trainer without PEFT and without vLLM. *)
Definition plain_init_source : string :=
  unlines
    [ "    def __init__(self, model):";
      "        self.model = model" ].

Definition plain_class_source : string :=
  unlines [ "class SFTTrainer(Trainer):" ] +:+ plain_init_source.

Definition plain_introspection : introspection :=
  {| init_signature := Some [("self", VEmpty); ("model", VEmpty)];
     function_source := {[ "__init__" := plain_init_source ]};
     class_source := Some plain_class_source;
     class_dir := ["__init__"] |}.

Definition SFTTrainer : pyobj :=
  {| obj_name := "SFTTrainer"; obj_doc := "None";
     obj_kind := Library plain_introspection |}.

(** A trainer whose [__init__] reads the weights of the model. *)
Definition reload_init_source : string :=
  unlines
    [ "    def __init__(self, model, peft_config = None):";
      "        if peft_config is not None:";
      "            model = get_peft_model(model, peft_config)";
      "        self.weights = model.state_dict()" ].

Definition reload_class_source : string :=
  unlines [ "class ReloadTrainer(Trainer):" ] +:+ reload_init_source.

Definition reload_introspection : introspection :=
  {| init_signature := None;
     function_source := {[ "__init__" := reload_init_source ]};
     class_source := Some reload_class_source;
     class_dir := ["__init__"] |}.

Definition ReloadTrainer : pyobj :=
  {| obj_name := "ReloadTrainer"; obj_doc := "None";
     obj_kind := Library reload_introspection |}.

(** The PEFT branch of the sample is still there after [patch_vllm]. *)
Example reload_trainer_patched :
  patch_vllm ReloadTrainer "reload_trainer" "ReloadTrainer" [] []
  = Some (unlines
            [ "class _UnslothReloadTrainer(Trainer):";
              "    def __init__(self, model, peft_config = None):";
              "        if peft_config is not None:";
              "            model = get_peft_model(model, peft_config)";
              "        self.weights = model" ],
          []).
Proof. vm_compute. reflexivity. Qed.

(** X4 at the sample library. *)
Lemma patch_trl_rl_trainers_idempotent_witness :
  patch_trl_rl_trainers (λ _, true) grpo_world = Returned grpo_patched
  ∧ patch_trl_rl_trainers (λ _, true) grpo_patched = Returned grpo_patched.
Proof.
  assert (H : patch_trl_rl_trainers (λ _, true) grpo_world
              = Returned grpo_patched) by (vm_compute; reflexivity).
  split; [exact H|].
  exact (patch_trl_rl_trainers_idempotent (λ _, true) _ _ H).
Defined.


(** X6 at two short signatures. *)
Lemma kwargs_text_keeps_comma_witness :
  kwargs_text (add_tokenizer [("self", VEmpty); ("seed", VInt 42)]
                 (process_signature [("self", VEmpty); ("model", VEmpty)])).2
  = ",**kwargs"
  ∧ kwargs_text (process_signature [("self", VEmpty); ("seed", VInt 42)]).2
    = ",**kwargs".
Proof.
  assert (H1 : ∀ k v, In (k, v) [("self", VEmpty); ("model", VEmpty)] →
                      endswith k "," = false).
  { intros k v [[= <- <-]|[[= <- <-]|[]]]; reflexivity. }
  assert (H2 : ∀ k v, In (k, v) [("self", VEmpty); ("seed", VInt 42)] →
                      endswith k "," = false).
  { intros k v [[= <- <-]|[[= <- <-]|[]]]; reflexivity. }
  destruct (kwargs_text_keeps_comma _ _ H1 H2) as (R1 & R2 & _).
  split; [exact R1|exact R2].
Defined.

(** X7 at a signature whose only model is a reference model. *)
Lemma word_in_call_args_witness :
  "model" ≠ EmptyString ∧ plain "model" = true
  ∧ (contains "model"
       (process_signature [("self", VEmpty); ("ref_model", VNone)]).2 = true
     ↔ ∃ k v, In (k, v) [("self", VEmpty); ("ref_model", VNone)]
              ∧ k ≠ "self" ∧ v ≠ VOther ∧ contains "model" k = true).
Proof.
  assert (H1 : "model" ≠ EmptyString) by discriminate.
  assert (H2 : plain "model" = true) by reflexivity.
  split; [exact H1|]. split; [exact H2|].
  exact (word_in_call_args [("self", VEmpty); ("ref_model", VNone)]
           "model" H1 H2).
Defined.

(** X9 at the trainer without PEFT and vLLM. *)
Lemma patch_vllm_only_renames_witness :
  patch_vllm SFTTrainer "sft_trainer" "SFTTrainer" ["Trainer"] ["Trainer"]
  = Some (unlines [ "class _UnslothSFTTrainer(Trainer):" ]
          +:+ plain_init_source,
          ["Trainer"]).
Proof.
  assert (Hm : ∀ function source,
            function_source plain_introspection !! function = Some source →
            mentions_vllm source = false).
  { intros function source H. cbn in H.
    apply lookup_singleton_Some in H as [_ <-]. reflexivity. }
  rewrite (patch_vllm_only_renames SFTTrainer plain_introspection
             "sft_trainer" "SFTTrainer" plain_init_source plain_class_source
             ["Trainer"] ["Trainer"]
             eq_refl eq_refl eq_refl eq_refl eq_refl eq_refl Hm).
  vm_compute. reflexivity.
Defined.

(** X10 at the trainer that reads the weights. *)
Lemma patch_vllm_init_overwritten_witness :
  redirect_vllm_calls ("reload_trainer" +:+ "_lora_model") reload_init_source
  ≠ reload_init_source
  ∧ ∃ rest imports',
      patch_vllm ReloadTrainer "reload_trainer" "ReloadTrainer" [] []
      = Some (rename_class "ReloadTrainer"
                (apply_changes
                   (("__init__",
                     (reload_init_source,
                      redirect_vllm_calls ("reload_trainer" +:+ "_lora_model")
                        reload_init_source)) :: rest)
                   reload_class_source),
              imports')
      ∧ Forall (λ e, e.1 ≠ "__init__") rest.
Proof.
  assert (Hc : redirect_vllm_calls ("reload_trainer" +:+ "_lora_model")
                 reload_init_source ≠ reload_init_source).
  { intros H. vm_compute in H. discriminate H. }
  split; [exact Hc|].
  apply (patch_vllm_init_overwritten ReloadTrainer reload_introspection).
  - reflexivity.
  - reflexivity.
  - reflexivity.
  - left. reflexivity.
  - vm_compute. reflexivity.
  - exact Hc.
Defined.

(** X11 at the sample trainer: of the names of the submodule the two that
    the changed method mentions are added. *)
Lemma patch_vllm_imports_witness :
  patch_vllm GRPOTrainer "grpo_trainer" "GRPOTrainer"
    ["LLM"; "SamplingParams"; "_helper"; "prompts"; "outputs"] ["LLM"]
  = Some (grpo_vllm_source, ["LLM"; "prompts"; "outputs"])
  ∧ ∃ extra,
      ["LLM"; "prompts"; "outputs"] = ["LLM"] ++ extra
      ∧ ∀ x, In x extra →
             In x ["LLM"; "SamplingParams"; "_helper"; "prompts"; "outputs"]
             ∧ startswith x "_" = false.
Proof.
  assert (H : patch_vllm GRPOTrainer "grpo_trainer" "GRPOTrainer"
                ["LLM"; "SamplingParams"; "_helper"; "prompts"; "outputs"]
                ["LLM"]
              = Some (grpo_vllm_source, ["LLM"; "prompts"; "outputs"]))
    by (vm_compute; reflexivity).
  split; [exact H|].
  exact (patch_vllm_imports _ _ _ _ _ _ _ H).
Defined.

(** X13 at a signature that ends with [seed]: the first [seed] is
    rewritten, the last one is not. *)
Lemma replace_defaults_keeps_last_witness :
  replace_defaults replacements
    ((nl +:+ spaces 8 +:+ "self," +:+ nl +:+ spaces 8 +:+ "seed = 1,"
      +:+ nl +:+ spaces 8) +:+ "seed = 42")
  = replace_defaults replacements
      (nl +:+ spaces 8 +:+ "self," +:+ nl +:+ spaces 8 +:+ "seed = 1,"
       +:+ nl +:+ spaces 8) +:+ "seed = 42".
Proof.
  apply replace_defaults_keeps_last; reflexivity.
Defined.

Example replace_defaults_last_ex :
  replace_defaults replacements
    (nl +:+ spaces 8 +:+ "self," +:+ nl +:+ spaces 8 +:+ "seed = 1,"
     +:+ nl +:+ spaces 8 +:+ "seed = 42")
  = nl +:+ spaces 8 +:+ "self," +:+ nl +:+ spaces 8 +:+ "seed = 3407,"
    +:+ nl +:+ spaces 8 +:+ "seed = 42".
Proof. vm_compute. reflexivity. Qed.

(** X14 at the sample library. *)
Lemma created_module_of_patch_witness :
  _patch_trl_rl_trainers (λ _, true) "grpo_trainer" grpo_world
  = Patched grpo_patched
  ∧ module_created (λ _, true) "grpo_trainer" grpo_world grpo_patched.
Proof.
  assert (H : _patch_trl_rl_trainers (λ _, true) "grpo_trainer" grpo_world
              = Patched grpo_patched) by (vm_compute; reflexivity).
  split; [exact H|].
  exact (created_module_of_patch (λ _, true) _ _ _ H).
Defined.

(** X15 at a model without [generate]. *)
Lemma unwrap_without_generate_witness :
  let st : models nat := {| generate := ∅; log := [] |} in
  let body : pyref → models nat → models nat * completion :=
    λ m s, (set_generate nat m (λ _, 0) s, Normal) in
  unsloth_unwrap_model_for_generation nat (λ _, true) id
    (λ _ g, g) (λ _ g, g) (λ m g, Some (m, g)) (λ _ g, g)
    (Ref 0) body st
  = ({| generate := ∅; log := [ForInference (Ref 0)] |}, Exception).
Proof.
  intros st body.
  exact (proj1 (unwrap_without_generate nat (λ _, true) id
                  (λ _ g, g) (λ _ g, g) (λ m g, Some (m, g)) (λ _ g, g)
                  (Ref 0) (Ref 0) body st ∅ eq_refl eq_refl)).
Defined.

(** X16 at the library whose constructor cannot be read: the trainers
    listed after it are not reached. *)
Lemma patch_each_stops_at_raise_witness :
  patch_each (λ _, true) [] opaque_world = Returned opaque_world
  ∧ _patch_trl_rl_trainers (λ _, true) "grpo_trainer" opaque_world
    = Raised opaque_world
  ∧ patch_each (λ _, true) ([] ++ "grpo_trainer" :: ["sft_trainer"])
      opaque_world
    = Failed opaque_world.
Proof.
  assert (H1 : patch_each (λ _, true) [] opaque_world
               = Returned opaque_world) by reflexivity.
  assert (H2 : _patch_trl_rl_trainers (λ _, true) "grpo_trainer" opaque_world
               = Raised opaque_world) by (vm_compute; reflexivity).
  split; [exact H1|]. split; [exact H2|].
  exact (proj2 (patch_each_stops_at_raise (λ _, true) [] "grpo_trainer"
                  opaque_world opaque_world opaque_world H1 H2)
           ["sft_trainer"]).
Defined.

(** X17 at a short constructor. *)
Lemma set_use_vllm_header_witness :
  set_use_vllm
    ("    def __init__(self, model" +:+ ")" +:+ spaces 1 +:+ "->" +:+ spaces 1
     +:+ "None" +:+ spaces 0 +:+ ":" +:+ nl +:+ spaces 4
     +:+ "    self.model = model")
  = "    def __init__(self, model" +:+ "):" +:+ nl +:+ spaces 4
    +:+ "    if hasattr(model, 'vllm_engine') and getattr(args, 'use_vllm') and getattr(args, 'use_vllm', False): args.use_vllm = True"
    +:+ nl +:+ spaces 4 +:+ "    self.model = model".
Proof.
  apply (set_use_vllm_header "    def __init__(self, model" (spaces 4)
           "    self.model = model" 1 1 0); reflexivity.
Defined.

Example set_use_vllm_ex :
  set_use_vllm
    (unlines [ "    def __init__(self, model) -> None:";
               "        self.model = model" ])
  = unlines
      [ "    def __init__(self, model):";
        "        if hasattr(model, 'vllm_engine') and getattr(args, 'use_vllm') and getattr(args, 'use_vllm', False): args.use_vllm = True";
        "        self.model = model" ].
Proof. vm_compute. reflexivity. Qed.

(** The call of the engine inside the arguments takes the request. *)
Example llm_call_nested_ex :
  re_sub llm_call
    [ Backref 1;
      Text (", lora_request = self.model.load_lora('grpo_trainer_lora_model', load_tensors = True))") ]
    "out = self.llm.generate(tok(prompts), params)"
  = "out = self.llm.generate(tok(prompts, lora_request = self.model.load_lora('grpo_trainer_lora_model', load_tensors = True)), params)".
Proof. vm_compute. reflexivity. Qed.

(** X21 at the sample trainer: the length check is there, the statement
    of line 260 is not. *)
Lemma max_seq_length_never_lowered_witness :
  contains "args.max_seq_length = model_max_seq_length" "grpo_trainer" = false
  ∧ contains "args.max_seq_length = model_max_seq_length"
      (trainer_extra_args "grpo_trainer" "model = model, args = args") = false.
Proof.
  assert (H : contains "args.max_seq_length = model_max_seq_length"
                "grpo_trainer" = false) by reflexivity.
  split; [exact H|].
  exact (proj1 (max_seq_length_never_lowered "grpo_trainer"
                  "model = model, args = args" H)).
Defined.

Example length_check_included :
  contains "if hasattr(args, 'max_seq_length'): args.max_seq_length = max_seq_length"
    (trainer_extra_args "grpo_trainer" "model = model, args = args") = true.
Proof. vm_compute. reflexivity. Qed.
